(** * orbit-js: the WebAssembly boundary bridge of [src/index.ts]

    A shallow embedding of the host side of the bridge: the slice codec,
    the cached memory views, the call dispatcher [invoke], the error
    mapper, the input resolver of [evaluate] and the instantiation
    strategy of [createOrbit].

    The compiled core is an external collaborator.  It appears here as a
    record of state transformers over the instance's own state
    ([OrbitExports]); the host built-ins the source calls appear as the
    fields of two records: [Platform] ([TextEncoder], [TextDecoder],
    [JSON], [node:fs], [URL], [String.prototype.trim]) and [Loader]
    ([WebAssembly.instantiate], [fetch], [readFile]).  Everything else
    is translated from the source, function by function, under the names
    the source uses; the theorems hold for every core and every
    platform, and [Demo] provides concrete ones to run the bridge on. *)

From Stdlib Require Import ZArith Lia Bool List String Ascii.
From Stdlib Require Import Init.Byte Strings.Byte.
From stdpp Require Import base option list gmap strings pretty.

Import ListNotations.
Local Open Scope string_scope.
Local Open Scope list_scope.
Local Open Scope Z_scope.
Set Warnings "-register-all".

(** ** JavaScript values that cross the API *)

(** [JsonValue] of the source.  A number keeps the literal it was read
    from: the IEEE double it denotes is never computed by the bridge. *)
Inductive JsonValue : Type :=
| JNull
| JBool (b : bool)
| JNumber (lexeme : string)
| JString (s : string)
| JArray (items : list JsonValue)
| JObject (members : list (string * JsonValue)).

(** Identity of an [ArrayBuffer] object. *)
Definition BufferId : Type := nat.

(** A host-owned [Uint8Array]: a whole-buffer view over an [ArrayBuffer]
    that only the host references.  The bridge never writes to such an
    array after creating it, so it is represented by the identity of its
    backing buffer together with its content. *)
Record Uint8Array : Type := mkUint8Array {
  u8_buffer : BufferId;
  u8_bytes : list byte
}.

(** [interface OrbitSlice] *)
Record OrbitSlice : Type := mkSlice {
  ptr : Z;
  len : Z;
  cap : Z
}.

(** Thrown values.  [OrbitError] is the class of the source (it extends
    [Error]); the others are the built-in error classes the modelled
    operations throw.  [RuntimeError] is a WebAssembly trap. *)
Inductive JsError : Type :=
| Error (message : string)
| TypeError (message : string)
| RangeError (message : string)
| SyntaxError (message : string)
| RuntimeError (message : string)
| OrbitError (detail : JsonValue) (message : string) (name : string).

(** [e instanceof OrbitError] *)
Definition is_OrbitError (e : JsError) : bool :=
  match e with
  | OrbitError _ _ _ => true
  | _ => false
  end.

(** Completion of a JavaScript evaluation: a value or a thrown error. *)
Inductive Completion (A : Type) : Type :=
| Normal (a : A)
| Throw (e : JsError).
Arguments Normal {A} a.
Arguments Throw {A} e.

(** ** Host built-ins

    The parts of the JavaScript platform the source relies on.  They are
    not code of the repository, so they are fields of a record and every
    theorem holds for any platform. *)

(** A parsed [URL] object, as far as the source inspects it. *)
Record URL : Type := mkURL {
  protocol : string;
  href : string
}.

(** What [tryLoadFileInput] hands to [node:fs]: the trimmed path, or a
    [URL] object when the path starts with [file:]. *)
Inductive FsTarget : Type :=
| PathTarget (path : string)
| UrlTarget (url : URL).

(** The two functions of [node:fs] the source uses.  [existsSync] never
    throws. *)
Record NodeFs : Type := mkNodeFs {
  existsSync : FsTarget -> bool;
  readFileSync : FsTarget -> string -> Completion string
}.

Record Platform : Type := mkPlatform {
  (* new TextEncoder().encode / new TextDecoder().decode *)
  textEncoder_encode : string -> list byte;
  textDecoder_decode : list byte -> string;
  (* JSON.parse: None stands for a thrown SyntaxError *)
  JSON_parse : string -> option JsonValue;
  JSON_stringify : JsonValue -> string;
  (* Number.prototype.toString of the double a literal denotes *)
  Number_toString : string -> string;
  (* typeof process !== "undefined" && !!process.versions?.node *)
  process_versions_node : bool;
  (* the module object of import("node:fs") *)
  node_fs : NodeFs;
  (* new URL(input): None stands for a thrown TypeError *)
  URL_new : string -> option URL;
  (* String.prototype.trim *)
  String_trim : string -> string
}.

Definition STATUS_OK : Z := 0.
Definition SLICE_STRUCT_SIZE : Z := 12.

(** ** The compiled core *)

Section Core.

(** Module-private state (globals, allocator bookkeeping, ...). *)
Context {G : Type}.

(** State of a module instance.  [grow_count] counts the [memory.grow]
    operations performed so far: whenever it changes, the JavaScript API
    detaches the [ArrayBuffer] that backed the memory and
    [exports.memory.buffer] yields a new object. *)
Record WasmInstance : Type := mkInstance {
  linear_memory : list byte;
  grow_count : nat;
  globals : G
}.

(** [interface OrbitExports].  The allocator reports failure by returning
    the null pointer; an entry point may trap, which the host observes as
    a thrown [RuntimeError].  Arguments are the JavaScript numbers the
    host passes. *)
Record OrbitExports : Type := mkExports {
  orbit_alloc : Z -> WasmInstance -> Z * WasmInstance;
  orbit_dealloc : Z -> Z -> Z -> WasmInstance -> WasmInstance;
  orbit_version : Z -> WasmInstance -> Completion Z * WasmInstance;
  orbit_parse : Z -> Z -> Z -> WasmInstance -> Completion Z * WasmInstance;
  orbit_parse_with_recovery :
    Z -> Z -> Z -> WasmInstance -> Completion Z * WasmInstance;
  orbit_evaluate : Z -> Z -> Z -> WasmInstance -> Completion Z * WasmInstance;
  orbit_evaluate_ast :
    Z -> Z -> Z -> WasmInstance -> Completion Z * WasmInstance;
  orbit_value_to_json :
    Z -> Z -> Z -> Z -> WasmInstance -> Completion Z * WasmInstance;
  orbit_value_to_yaml :
    Z -> Z -> Z -> WasmInstance -> Completion Z * WasmInstance;
  orbit_value_to_msgpack :
    Z -> Z -> Z -> WasmInstance -> Completion Z * WasmInstance
}.

(** ** Observable events

    A ghost log of what the host does at the boundary: calls of the
    exports, raw accesses to memory through a view (with the identity of
    the view's backing buffer and of the memory's buffer at that moment)
    and probes of the file system. *)

Inductive AccessOp : Type := U8Set | U8Slice | DvGetUint32.

Inductive Event : Type :=
| EvAlloc (size : Z) (returned : Z)
| EvDealloc (p l c : Z)
| EvEntry (name : string) (args : list Z)
| EvAccess (op : AccessOp) (view current : BufferId)
| EvExistsSync (target : FsTarget)
| EvReadFileSync (target : FsTarget) (encoding : string).

(** ** The realm: everything an [OrbitCore] object can reach *)

Record Realm : Type := mkRealm {
  instance : WasmInstance;
  memory_buffer : BufferId;          (* identity of exports.memory.buffer *)
  next_buffer : BufferId;            (* next unused buffer identity *)
  cachedView : option BufferId;      (* this.cachedView, by its .buffer *)
  cachedU8 : option BufferId;        (* this.cachedU8, by its .buffer *)
  trace : list Event
}.

Definition set_instance (w : WasmInstance) (r : Realm) : Realm :=
  mkRealm w (memory_buffer r) (next_buffer r) (cachedView r) (cachedU8 r)
          (trace r).
Definition set_memory_buffer (b : BufferId) (r : Realm) : Realm :=
  mkRealm (instance r) b (next_buffer r) (cachedView r) (cachedU8 r) (trace r).
Definition set_next_buffer (b : BufferId) (r : Realm) : Realm :=
  mkRealm (instance r) (memory_buffer r) b (cachedView r) (cachedU8 r)
          (trace r).
Definition set_cachedView (v : option BufferId) (r : Realm) : Realm :=
  mkRealm (instance r) (memory_buffer r) (next_buffer r) v (cachedU8 r)
          (trace r).
Definition set_cachedU8 (v : option BufferId) (r : Realm) : Realm :=
  mkRealm (instance r) (memory_buffer r) (next_buffer r) (cachedView r) v
          (trace r).
Definition log (e : Event) (r : Realm) : Realm :=
  mkRealm (instance r) (memory_buffer r) (next_buffer r) (cachedView r)
          (cachedU8 r) (trace r ++ [e]).

(** ** The monad of host code: state and exceptions *)

Definition M (A : Type) : Type := Realm -> Completion A * Realm.

Definition ret {A} (a : A) : M A := fun r => (Normal a, r).
Definition throw {A} (e : JsError) : M A := fun r => (Throw e, r).
Definition bind {A B} (m : M A) (k : A -> M B) : M B :=
  fun r =>
    match m r with
    | (Normal a, r') => k a r'
    | (Throw e, r') => (Throw e, r')
    end.
Definition of_completion {A} (c : Completion A) : M A := fun r => (c, r).

(** [try { body } finally { fin }]: [fin] always runs; if it throws, its
    error replaces the completion of [body]. *)
Definition try_finally {A} (body : M A) (fin : M unit) : M A :=
  fun r =>
    let '(c, r1) := body r in
    match fin r1 with
    | (Normal _, r2) => (c, r2)
    | (Throw e, r2) => (Throw e, r2)
    end.

End Core.

Arguments WasmInstance : clear implicits.
Arguments OrbitExports : clear implicits.
Arguments Realm : clear implicits.
Arguments M : clear implicits.

Declare Scope js_scope.
Delimit Scope js_scope with js.
Notation "x <- c1 ;; c2" := (bind c1 (fun x => c2))
  (at level 100, c1 at next level, right associativity) : js_scope.
Notation "c1 ;; c2" := (bind c1 (fun _ => c2))
  (at level 100, right associativity) : js_scope.

Local Open Scope js_scope.

(** ** Property access and string conversion on parsed JSON *)

(** Own data property [key] of an object literal read by [JSON.parse]:
    the last member with that key wins. *)
Fixpoint own_property (members : list (string * JsonValue)) (key : string)
  : option JsonValue :=
  match members with
  | [] => None
  | (k, v) :: rest =>
      match own_property rest key with
      | Some v' => Some v'
      | None => if String.eqb k key then Some v else None
      end
  end.

(** [v.key] for the two keys the source reads ([kind] and [message],
    which no built-in prototype defines): [undefined] ([None]) unless [v]
    is an object with such a member; reading a property of [null]
    throws. *)
Definition get_property (v : JsonValue) (key : string)
  : Completion (option JsonValue) :=
  match v with
  | JNull => Throw (TypeError "Cannot read properties of null")
  | JObject members => Normal (own_property members key)
  | _ => Normal None
  end.

Section Conversions.

Context (P : Platform).

(** [ToString] as a template literal applies it.  An object whose own
    [toString] member shadows the inherited method cannot be converted
    (the member is data, never a function). *)
Fixpoint ToString (v : JsonValue) : Completion string :=
  match v with
  | JNull => Normal "null"
  | JBool true => Normal "true"
  | JBool false => Normal "false"
  | JNumber lexeme => Normal (Number_toString P lexeme)
  | JString s => Normal s
  | JArray items =>
      (* Array.prototype.join(","), null elements print as empty *)
      (fix join (first : bool) (l : list JsonValue) : Completion string :=
         match l with
         | [] => Normal EmptyString
         | x :: rest =>
             match (match x with JNull => Normal EmptyString | _ => ToString x end) with
             | Throw e => Throw e
             | Normal sx =>
                 match join false rest with
                 | Throw e => Throw e
                 | Normal srest =>
                     Normal ((if first then EmptyString else ",") +:+ sx +:+ srest)
                 end
             end
         end) true items
  | JObject members =>
      match own_property members "toString" with
      | Some _ => Throw (TypeError "Cannot convert object to primitive value")
      | None => Normal "[object Object]"
      end
  end.

(** [`${x}`] where [x] may be [undefined]. *)
Definition template_part (x : option JsonValue) : Completion string :=
  match x with
  | None => Normal "undefined"
  | Some v => ToString v
  end.

(** [new OrbitError(detail)]: the constructor reads [detail.kind] and
    [detail.message] for the message, then [detail.kind] for the name. *)
Definition new_OrbitError (detail : JsonValue) : Completion JsError :=
  match get_property detail "kind" with
  | Throw e => Throw e
  | Normal kind =>
      match template_part kind with
      | Throw e => Throw e
      | Normal skind =>
          match get_property detail "message" with
          | Throw e => Throw e
          | Normal message =>
              match template_part message with
              | Throw e => Throw e
              | Normal smessage =>
                  Normal (OrbitError detail
                            (skind +:+ ": " +:+ smessage)
                            ("Orbit" +:+ skind +:+ "Error"))
              end
          end
      end
  end.

End Conversions.

(** [function isNodeLike()] *)
Definition isNodeLike (P : Platform) : bool := process_versions_node P.

(** The module-level [nodeFs] binding: [null] unless [isNodeLike()]. *)
Definition nodeFs (P : Platform) : option NodeFs :=
  if isNodeLike P then Some (node_fs P) else None.

(** ** [class OrbitCore] *)

Section OrbitCore.

Context {G : Type} (P : Platform) (X : OrbitExports G).

Abbreviation Realm := (Realm G).
Abbreviation M := (M G).

(** *** Calling the exports *)

(** One call into the module: the instance steps, and if the memory grew
    the buffer object that backed it is detached and
    [exports.memory.buffer] becomes a fresh object. *)
Definition run_export {A} (f : WasmInstance G -> A * WasmInstance G)
  (r : Realm) : A * Realm :=
  let '(a, w') := f (instance r) in
  let r' := set_instance w' r in
  (a, if Nat.eqb (grow_count w') (grow_count (instance r)) then r'
      else set_next_buffer (S (next_buffer r))
             (set_memory_buffer (next_buffer r) r')).

(** [this.exports.orbit_alloc(size)] *)
Definition exports_orbit_alloc (size : Z) : M Z :=
  fun r =>
    let '(p, r') := run_export (orbit_alloc X size) r in
    (Normal p, log (EvAlloc size p) r').

(** [this.exports.orbit_dealloc(ptr, len, cap)] *)
Definition exports_orbit_dealloc (p l c : Z) : M unit :=
  fun r =>
    let '(_, r') := run_export (fun w => (tt, orbit_dealloc X p l c w)) r in
    (Normal tt, log (EvDealloc p l c) r').

(** A call of one of the entry points, recorded under its name. *)
Definition exports_entry (name : string) (args : list Z)
  (f : WasmInstance G -> Completion Z * WasmInstance G) : M Z :=
  fun r => run_export f (log (EvEntry name args) r).

(** *** Typed-array and DataView operations on the module memory

    A view over the module memory is known by the identity of the buffer
    it was built over.  That buffer holds the linear memory as long as
    it is the memory's current buffer, and is detached afterwards. *)

Definition byte_length (l : list byte) : Z := Z.of_nat (length l).

(** [new Uint8Array(...)] over a freshly created buffer. *)
Definition fresh_Uint8Array (content : list byte) : M Uint8Array :=
  fun r =>
    (Normal (mkUint8Array (next_buffer r) content),
     set_next_buffer (S (next_buffer r)) r).

Definition store_bytes (mem source : list byte) (offset : Z) : list byte :=
  take (Z.to_nat offset) mem ++ source
    ++ drop (Z.to_nat offset + length source)%nat mem.

(** [view.set(source, offset)] on a [Uint8Array] that spans the buffer
    [view]. *)
Definition Uint8Array_set (view : BufferId) (source : list byte) (offset : Z)
  : M unit :=
  fun r0 =>
    let r := log (EvAccess U8Set view (memory_buffer r0)) r0 in
    let mem := linear_memory (instance r) in
    if offset <? 0 then
      (Throw (RangeError "offset is out of bounds"), r)
    else if negb (Nat.eqb view (memory_buffer r)) then
      (Throw (TypeError "Cannot perform set on a detached ArrayBuffer"), r)
    else if byte_length mem <? offset + byte_length source then
      (Throw (RangeError "offset is out of bounds"), r)
    else
      (Normal tt,
       set_instance
         (mkInstance (store_bytes mem source offset)
                     (grow_count (instance r)) (globals (instance r))) r).

(** The index a relative position of [slice] denotes in an array of
    [n] elements. *)
Definition clamp_index (n pos : Z) : Z :=
  if pos <? 0 then Z.max (n + pos) 0 else Z.min pos n.

(** [view.slice(start, end)]: a new array over a new buffer. *)
Definition Uint8Array_slice (view : BufferId) (start final : Z)
  : M Uint8Array :=
  fun r0 =>
    let r := log (EvAccess U8Slice view (memory_buffer r0)) r0 in
    let mem := linear_memory (instance r) in
    if negb (Nat.eqb view (memory_buffer r)) then
      (Throw (TypeError "Cannot perform slice on a detached ArrayBuffer"), r)
    else
      let k := clamp_index (byte_length mem) start in
      let e := clamp_index (byte_length mem) final in
      let count := Z.max (e - k) 0 in
      fresh_Uint8Array (take (Z.to_nat count) (drop (Z.to_nat k) mem)) r.

Definition byte_value (b : byte) : Z := Z.of_N (Byte.to_N b).

(** Four bytes read as a little-endian unsigned 32-bit word. *)
Definition word_le (b0 b1 b2 b3 : byte) : Z :=
  Z.lor (byte_value b0)
    (Z.lor (Z.shiftl (byte_value b1) 8)
       (Z.lor (Z.shiftl (byte_value b2) 16) (Z.shiftl (byte_value b3) 24))).

(** [view.getUint32(byteOffset, true)] on a [DataView] that spans the
    buffer [view]. *)
Definition DataView_getUint32 (view : BufferId) (byteOffset : Z) : M Z :=
  fun r0 =>
    let r := log (EvAccess DvGetUint32 view (memory_buffer r0)) r0 in
    let mem := linear_memory (instance r) in
    if byteOffset <? 0 then
      (Throw (RangeError "Offset is outside the bounds of the DataView"), r)
    else if negb (Nat.eqb view (memory_buffer r)) then
      (Throw (TypeError "Cannot perform getUint32 on a detached ArrayBuffer"),
       r)
    else
      match drop (Z.to_nat byteOffset) mem with
      | b0 :: b1 :: b2 :: b3 :: _ => (Normal (word_le b0 b1 b2 b3), r)
      | _ =>
          (Throw (RangeError "Offset is outside the bounds of the DataView"),
           r)
      end.

(** *** The cached views *)

(** [private getUint8Memory()] *)
Definition getUint8Memory : M BufferId :=
  fun r =>
    match cachedU8 r with
    | Some b =>
        if Nat.eqb b (memory_buffer r) then (Normal b, r)
        else (Normal (memory_buffer r),
              set_cachedU8 (Some (memory_buffer r)) r)
    | None =>
        (Normal (memory_buffer r), set_cachedU8 (Some (memory_buffer r)) r)
    end.

(** [private getDataView()] *)
Definition getDataView : M BufferId :=
  fun r =>
    match cachedView r with
    | Some b =>
        if Nat.eqb b (memory_buffer r) then (Normal b, r)
        else (Normal (memory_buffer r),
              set_cachedView (Some (memory_buffer r)) r)
    | None =>
        (Normal (memory_buffer r), set_cachedView (Some (memory_buffer r)) r)
    end.

(** *** The slice codec *)

(** [private writeInput(bytes)] *)
Definition writeInput (bytes : option Uint8Array) : M OrbitSlice :=
  match bytes with
  | None => ret (mkSlice 0 0 0)
  | Some b =>
      if byte_length (u8_bytes b) =? 0 then ret (mkSlice 0 0 0)
      else
        p <- exports_orbit_alloc (byte_length (u8_bytes b)) ;;
        if p =? 0 then
          throw (Error "orbit wasm could not allocate input buffer")
        else
          view <- getUint8Memory ;;
          Uint8Array_set view (u8_bytes b) p ;;
          ret (mkSlice p (byte_length (u8_bytes b))
                       (byte_length (u8_bytes b)))
  end.

(** [private freeInput(slice)] *)
Definition freeInput (slice : OrbitSlice) : M unit :=
  if negb (ptr slice =? 0) then
    exports_orbit_dealloc (ptr slice) (len slice) (cap slice)
  else ret tt.

(** [private readSlice(ptr)] *)
Definition readSlice (p : Z) : M OrbitSlice :=
  view <- getDataView ;;
  p0 <- DataView_getUint32 view p ;;
  l0 <- DataView_getUint32 view (p + 4) ;;
  c0 <- DataView_getUint32 view (p + 8) ;;
  ret (mkSlice p0 l0 c0).

(** [private copySlice(slice)] *)
Definition copySlice (slice : OrbitSlice) : M Uint8Array :=
  if len slice =? 0 then fresh_Uint8Array []
  else
    view <- getUint8Memory ;;
    Uint8Array_slice view (ptr slice) (ptr slice + len slice).

(** [private freeBuffer(slice)] *)
Definition freeBuffer (slice : OrbitSlice) : M unit :=
  if negb (ptr slice =? 0) then
    exports_orbit_dealloc (ptr slice) (len slice) (cap slice)
  else ret tt.

(** *** Decoding payloads *)

(** [private bytesToString(bytes)] *)
Definition bytesToString (bytes : Uint8Array) : string :=
  if byte_length (u8_bytes bytes) =? 0 then EmptyString
  else textDecoder_decode P (u8_bytes bytes).

(** [private bytesToJson(bytes)] *)
Definition bytesToJson (bytes : Uint8Array) : Completion JsonValue :=
  match JSON_parse P (bytesToString bytes) with
  | Some v => Normal v
  | None => Throw (SyntaxError "JSON.parse: invalid JSON text")
  end.

(** [private encodeString(value)] *)
Definition encodeString (value : string) : M (option Uint8Array) :=
  if (String.length value =? 0)%nat then ret None
  else
    b <- fresh_Uint8Array (textEncoder_encode P value) ;;
    ret (Some b).

(** *** The call dispatcher *)

(** [private invoke(input, call, onOk)], lines 189-210: the exchange
    with the module up to the end of the [finally] block.  It completes
    with the [status] and [payload] the rest of [invoke] reads. *)
Definition invoke_exchange (input : option Uint8Array)
  (call : Z -> Z -> Z -> M Z) : M (Z * Uint8Array) :=
  inputSlice <- writeInput input ;;
  resultSlicePtr <- exports_orbit_alloc SLICE_STRUCT_SIZE ;;
  if resultSlicePtr =? 0 then
    freeInput inputSlice ;;
    throw (Error "orbit wasm could not allocate result slice")
  else
    try_finally
      (status <- call (ptr inputSlice) (len inputSlice) resultSlicePtr ;;
       resultSlice <- readSlice resultSlicePtr ;;
       payload <- copySlice resultSlice ;;
       freeBuffer resultSlice ;;
       ret (status, payload))
      (exports_orbit_dealloc resultSlicePtr SLICE_STRUCT_SIZE
                             SLICE_STRUCT_SIZE ;;
       freeInput inputSlice).

(** [invoke], lines 212-215: what is done with the status and the
    payload. *)
Definition invoke_result {T} (onOk : Uint8Array -> M T)
  (status : Z) (payload : Uint8Array) : M T :=
  if status =? STATUS_OK then onOk payload
  else
    detail <- of_completion (bytesToJson payload) ;;
    e <- of_completion (new_OrbitError P detail) ;;
    throw e.

(** [private invoke<T>(input, call, onOk): T] *)
Definition invoke {T} (input : option Uint8Array)
  (call : Z -> Z -> Z -> M Z) (onOk : Uint8Array -> M T) : M T :=
  sp <- invoke_exchange input call ;;
  invoke_result onOk (fst sp) (snd sp).

(** *** The input resolver of [evaluate] *)

(** [interface OrbitEvaluateOptions]; an absent field is [None]. *)
Record OrbitEvaluateOptions : Type := mkOptions {
  filePath : option string;
  source : option string;
  encoding : option string
}.

(** [type OrbitEvaluateInput = string | OrbitEvaluateOptions] *)
Inductive OrbitEvaluateInput : Type :=
| InputString (s : string)
| InputOptions (o : OrbitEvaluateOptions).

Definition fs_existsSync (fs : NodeFs) (target : FsTarget) : M bool :=
  fun r => (Normal (existsSync fs target), log (EvExistsSync target) r).

Definition fs_readFileSync (fs : NodeFs) (target : FsTarget)
  (enc : string) : M string :=
  fun r => (readFileSync fs target enc, log (EvReadFileSync target enc) r).

(** [try { body } catch { return null }] around a computation that
    yields a string or [null]. *)
Definition catch_null (body : M (option string)) : M (option string) :=
  fun r =>
    match body r with
    | (Normal v, r') => (Normal v, r')
    | (Throw _, r') => (Normal None, r')
    end.

(** [private tryLoadFileInput(filePath, encoding = "utf8")]; [None] is
    [null]. *)
Definition tryLoadFileInput (path : string) (enc : option string)
  : M (option string) :=
  match nodeFs P with
  | None => ret None
  | Some fs =>
      let trimmed := String_trim P path in
      if (String.length trimmed =? 0)%nat then ret None
      else
        catch_null
          (target <-
             (if String.prefix "file:" trimmed then
                match URL_new P trimmed with
                | Some u => ret (UrlTarget u)
                | None => throw (TypeError "Invalid URL")
                end
              else ret (PathTarget trimmed)) ;;
           found <- fs_existsSync fs target ;;
           if negb found then ret None
           else
             contents <- fs_readFileSync fs target (default "utf8" enc) ;;
             ret (Some contents))
  end.

(** Truthiness of an optional string: present and not empty. *)
Definition truthy (s : option string) : bool :=
  match s with
  | Some (String _ _) => true
  | _ => false
  end.

(** [private resolveEvaluateInput(input)] *)
Definition resolveEvaluateInput (input : OrbitEvaluateInput) : M string :=
  match input with
  | InputString s =>
      loaded <- tryLoadFileInput s None ;;
      ret (default s loaded)
  | InputOptions o =>
      match source o with
      | Some src => ret src
      | None =>
          if truthy (filePath o) then
            contents <- tryLoadFileInput (default EmptyString (filePath o))
                                         (encoding o) ;;
            match contents with
            | Some text => ret text
            | None =>
                match nodeFs P with
                | None =>
                    throw (Error
                      "orbit.evaluate cannot read file paths in this environment")
                | Some _ =>
                    throw (Error
                      ("orbit.evaluate could not read from file path: "
                         +:+ default EmptyString (filePath o)))
                end
            end
          else
            throw (TypeError
              "orbit.evaluate requires a source string or options with filePath.")
      end
  end.

(** *** The public operations *)

Definition decode_string (bytes : Uint8Array) : M string :=
  ret (bytesToString bytes).
Definition decode_json (bytes : Uint8Array) : M JsonValue :=
  of_completion (bytesToJson bytes).

(** [version()] *)
Definition version : M string :=
  invoke None
    (fun _ _ resultPtr =>
       exports_entry "orbit_version" [resultPtr] (orbit_version X resultPtr))
    decode_string.

(** [parse(source)] *)
Definition parse (src : string) : M JsonValue :=
  input <- encodeString src ;;
  invoke input
    (fun p l resultPtr =>
       exports_entry "orbit_parse" [p; l; resultPtr]
         (orbit_parse X p l resultPtr))
    decode_json.

(** [parseWithRecovery(source)] *)
Definition parseWithRecovery (src : string) : M JsonValue :=
  input <- encodeString src ;;
  invoke input
    (fun p l resultPtr =>
       exports_entry "orbit_parse_with_recovery" [p; l; resultPtr]
         (orbit_parse_with_recovery X p l resultPtr))
    decode_json.

(** [evaluate(input)] *)
Definition evaluate (input : OrbitEvaluateInput) : M JsonValue :=
  src <- resolveEvaluateInput input ;;
  bytes <- encodeString src ;;
  invoke bytes
    (fun p l resultPtr =>
       exports_entry "orbit_evaluate" [p; l; resultPtr]
         (orbit_evaluate X p l resultPtr))
    decode_json.

(** [evaluateAst(ast)] *)
Definition evaluateAst (ast : JsonValue) : M JsonValue :=
  input <- encodeString (JSON_stringify P ast) ;;
  invoke input
    (fun p l resultPtr =>
       exports_entry "orbit_evaluate_ast" [p; l; resultPtr]
         (orbit_evaluate_ast X p l resultPtr))
    decode_json.

(** [valueToJson(value, options)]; [pretty] is [options?.pretty]. *)
Definition valueToJson (value : JsonValue) (pretty : bool) : M string :=
  input <- encodeString (JSON_stringify P value) ;;
  invoke input
    (fun p l resultPtr =>
       exports_entry "orbit_value_to_json"
         [p; l; if pretty then 1 else 0; resultPtr]
         (orbit_value_to_json X p l (if pretty then 1 else 0) resultPtr))
    decode_string.

(** [valueToYaml(value)] *)
Definition valueToYaml (value : JsonValue) : M string :=
  input <- encodeString (JSON_stringify P value) ;;
  invoke input
    (fun p l resultPtr =>
       exports_entry "orbit_value_to_yaml" [p; l; resultPtr]
         (orbit_value_to_yaml X p l resultPtr))
    decode_string.

(** [valueToMsgpack(value)] *)
Definition valueToMsgpack (value : JsonValue) : M Uint8Array :=
  input <- encodeString (JSON_stringify P value) ;;
  invoke input
    (fun p l resultPtr =>
       exports_entry "orbit_value_to_msgpack" [p; l; resultPtr]
         (orbit_value_to_msgpack X p l resultPtr))
    ret.

End OrbitCore.

(** ** Instantiation: [createOrbit] and its helpers *)

(** What an export of an instance can be. *)
Inductive ExportValue : Type :=
| ExportFunction
| ExportMemory
| ExportTable
| ExportGlobal.

(** [WebAssembly.Instance], as far as the bridge inspects it: the
    [exports] object, a map from export names to exports. *)
Record Instance : Type := mkWasmInstance {
  exports : gmap string ExportValue
}.

(** What the promise of [WebAssembly.instantiate] resolves to: an object
    with an [instance] property, or an instance itself. *)
Inductive InstantiateResult : Type :=
| InstantiatedSource (inst : Instance)
| BareInstance (inst : Instance).

(** [BufferSource]: an [ArrayBuffer], a view over one, or (for untyped
    callers) anything else. *)
Inductive BufferSource : Type :=
| SourceArrayBuffer (content : list byte)
| SourceView (content : list byte) (byteOffset byteLength : nat)
| SourceOther.

(** [string | URL] *)
Inductive UrlInput : Type :=
| UrlString (s : string)
| UrlObject (u : URL).

(** [Response] of [fetch], as far as the source reads it. *)
Record Response : Type := mkResponse {
  ok : bool;
  status : Z;
  statusText : string;
  arrayBuffer : Completion (list byte)
}.

(** The object [new OrbitCore(exports)] creates. *)
Record OrbitCore : Type := mkOrbitCore {
  core_exports : gmap string ExportValue;
  core_cachedView : option BufferId;
  core_cachedU8 : option BufferId
}.

Section Instantiation.

Context {Imports WasmModule : Type}.

(** The built-ins instantiation relies on.  A rejected promise is a
    [Throw]. *)
Record Loader : Type := mkLoader {
  empty_imports : Imports;                           (* {} *)
  WebAssembly_instantiate_module :
    WasmModule -> Imports -> Completion Instance;
  WebAssembly_instantiate_bytes :
    list byte -> Imports -> Completion InstantiateResult;
  DEFAULT_WASM_URL : URL;
  (* new URL(input, base): None stands for a thrown TypeError *)
  URL_new_base : string -> URL -> option URL;
  (* readFile of node:fs/promises *)
  readFile : URL -> Completion (list byte);
  (* the global fetch, when it is a function *)
  fetch : option (URL -> Completion Response)
}.

(** [interface OrbitInitOptions]; the hook is represented by the
    [instance] of the object its promise resolves to. *)
Record OrbitInitOptions : Type := mkInitOptions {
  binary : option BufferSource;
  module : option WasmModule;
  url : option UrlInput;
  instantiate : option (Imports -> Completion Instance);
  imports : option Imports
}.

Context (P : Platform) (L : Loader).

Definition cbind {A B} (c : Completion A) (k : A -> Completion B)
  : Completion B :=
  match c with
  | Normal a => k a
  | Throw e => Throw e
  end.

(** [function bufferSourceToUint8Array(source)] *)
Definition bufferSourceToUint8Array (src : BufferSource)
  : Completion (list byte) :=
  match src with
  | SourceArrayBuffer content => Normal content
  | SourceView content byteOffset byteLength =>
      (* source.buffer.slice(byteOffset, byteOffset + byteLength) *)
      Normal (take (Nat.min (byteOffset + byteLength) (length content)
                    - Nat.min byteOffset (length content))%nat
                (drop (Nat.min byteOffset (length content)) content))
  | SourceOther => Throw (TypeError "Unsupported BufferSource value")
  end.

(** [function normalizeUrl(input)] *)
Definition normalizeUrl (input : UrlInput) : Completion URL :=
  match input with
  | UrlObject u => Normal u
  | UrlString s =>
      match URL_new P s with
      | Some u => Normal u
      | None =>
          match URL_new_base L s (DEFAULT_WASM_URL L) with
          | Some u => Normal u
          | None => Throw (TypeError "Invalid URL")
          end
      end
  end.

(** Truthiness of [urlOverride]: a [URL] object, or a non-empty
    string. *)
Definition url_truthy (u : option UrlInput) : bool :=
  match u with
  | Some (UrlObject _) => true
  | Some (UrlString (String _ _)) => true
  | _ => false
  end.

(** [async function loadWasmBytes(urlOverride)] *)
Definition loadWasmBytes (urlOverride : option UrlInput)
  : Completion (list byte) :=
  cbind (match urlOverride with
         | Some u => if url_truthy urlOverride then normalizeUrl u
                     else Normal (DEFAULT_WASM_URL L)
         | None => Normal (DEFAULT_WASM_URL L)
         end)
    (fun targetUrl =>
       if String.eqb (protocol targetUrl) "file:" then
         if isNodeLike P then readFile L targetUrl
         else Throw (Error
           "File URLs are not supported in this environment. Provide wasm bytes via options.binary instead.")
       else
         match fetch L with
         | None => Throw (Error
             "Global fetch is unavailable. Provide wasm bytes via options.binary.")
         | Some do_fetch =>
             cbind (do_fetch targetUrl)
               (fun response =>
                  if negb (ok response) then
                    Throw (Error
                      ("Failed to fetch wasm from " +:+ href targetUrl
                         +:+ ": " +:+ pretty (status response) +:+ " "
                         +:+ statusText response))
                  else arrayBuffer response)
         end).

(** ["instance" in result ? result.instance : result] *)
Definition instance_of (r : InstantiateResult) : Instance :=
  match r with
  | InstantiatedSource i => i
  | BareInstance i => i
  end.

(** [async function instantiateOrbit(options)] *)
Definition instantiateOrbit (options : option OrbitInitOptions)
  : Completion Instance :=
  let imports0 :=
    default (empty_imports L) (o ← options; imports o) in
  match o ← options; instantiate o with
  | Some hook => hook imports0
  | None =>
      match o ← options; module o with
      | Some m => WebAssembly_instantiate_module L m imports0
      | None =>
          match o ← options; binary o with
          | Some b =>
              cbind (bufferSourceToUint8Array b)
                (fun bytes =>
                   cbind (WebAssembly_instantiate_bytes L bytes imports0)
                     (fun result => Normal (instance_of result)))
          | None =>
              cbind (loadWasmBytes (o ← options; url o))
                (fun bytes =>
                   cbind (WebAssembly_instantiate_bytes L bytes imports0)
                     (fun result => Normal (instance_of result)))
          end
      end
  end.

Definition required : list string :=
  [ "memory"; "orbit_alloc"; "orbit_dealloc"; "orbit_version";
    "orbit_parse"; "orbit_parse_with_recovery"; "orbit_evaluate";
    "orbit_evaluate_ast"; "orbit_value_to_json"; "orbit_value_to_yaml";
    "orbit_value_to_msgpack" ].

(** The [for (const key of required)] loop of [validateExports]. *)
Fixpoint check_required (keys : list string)
  (e : gmap string ExportValue) : Completion unit :=
  match keys with
  | [] => Normal tt
  | key :: rest =>
      match e !! key with
      | None =>
          Throw (Error ("orbit wasm is missing required export: " +:+ key))
      | Some _ => check_required rest e
      end
  end.

(** [function validateExports(exports)] *)
Definition validateExports (e : gmap string ExportValue) : Completion unit :=
  cbind (check_required required e)
    (fun _ =>
       match e !! "memory" with
       | Some ExportMemory => Normal tt
       | _ => Throw (Error "orbit wasm did not export a WebAssembly.Memory")
       end).

(** [export async function createOrbit(options)] *)
Definition createOrbit (options : option OrbitInitOptions)
  : Completion OrbitCore :=
  cbind (instantiateOrbit options)
    (fun inst =>
       cbind (validateExports (exports inst))
         (fun _ => Normal (mkOrbitCore (exports inst) None None))).

End Instantiation.

Arguments Loader : clear implicits.
Arguments OrbitInitOptions : clear implicits.

(** [interface OrbitSpan] and [interface OrbitJsError]: the structured
    error shape.  Numbers are kept as their literals. *)
Record OrbitSpan : Type := mkSpan {
  start : string;
  end_ : string
}.

Record OrbitJsError : Type := mkJsError {
  kind : string;
  message : string;
  span : OrbitSpan
}.

(** The typed reading of a parsed payload, when it has the structured
    error shape [{kind, message, span: {start, end}}]. *)
Definition as_OrbitJsError (v : JsonValue) : option OrbitJsError :=
  match v with
  | JObject members =>
      match own_property members "kind", own_property members "message",
            own_property members "span" with
      | Some (JString k), Some (JString m), Some (JObject sp) =>
          match own_property sp "start", own_property sp "end" with
          | Some (JNumber s), Some (JNumber e) =>
              Some (mkJsError k m (mkSpan s e))
          | _, _ => None
          end
      | _, _, _ => None
      end
  | _ => None
  end.

(** ** A concrete platform and a concrete core

    Used to run the bridge on explicit inputs.  [Json] reads and prints
    JSON text over 8-bit strings; it agrees with [JSON.parse] and
    [JSON.stringify] on ASCII text whose objects have distinct,
    non-numeric keys. *)

Module Json.

Definition is_ws (c : ascii) : bool :=
  match c with
  | " "%char | "009"%char | "010"%char | "013"%char => true
  | _ => false
  end.

Fixpoint skip_ws (s : string) : string :=
  match s with
  | String c rest => if is_ws c then skip_ws rest else s
  | EmptyString => s
  end.

Definition is_digit (c : ascii) : bool :=
  let n := nat_of_ascii c in (48 <=? n)%nat && (n <=? 57)%nat.

(** The longest prefix of digits, and what follows it. *)
Fixpoint digits (s : string) : string * string :=
  match s with
  | String c rest =>
      if is_digit c then
        let '(d, r) := digits rest in (String c d, r)
      else (EmptyString, s)
  | EmptyString => (EmptyString, s)
  end.

(** [int frac? exp?] after an optional minus sign. *)
Definition parse_number (s : string) : option (string * string) :=
  let '(sign, s1) :=
    match s with
    | String "-"%char rest => ("-", rest)
    | _ => (EmptyString, s)
    end in
  let '(int, s2) := digits s1 in
  match int with
  | EmptyString => None
  | String "0"%char (String _ _) => None
  | _ =>
      let frac :=
        match s2 with
        | String "."%char rest =>
            let '(f, r) := digits rest in
            match f with
            | EmptyString => None
            | _ => Some ("." +:+ f, r)
            end
        | _ => Some (EmptyString, s2)
        end in
      match frac with
      | None => None
      | Some (f, s3) =>
          let with_exp (e : ascii) (rest : string) :=
            let '(esign, r1) :=
              match rest with
              | String "+"%char r => ("+", r)
              | String "-"%char r => ("-", r)
              | _ => (EmptyString, rest)
              end in
            let '(d, r2) := digits r1 in
            match d with
            | EmptyString => None
            | _ => Some (sign +:+ int +:+ f +:+ String e esign +:+ d, r2)
            end in
          match s3 with
          | String "e"%char rest => with_exp "e"%char rest
          | String "E"%char rest => with_exp "E"%char rest
          | _ => Some (sign +:+ int +:+ f, s3)
          end
      end
  end.

Definition hex_value (c : ascii) : option nat :=
  let n := nat_of_ascii c in
  if (48 <=? n)%nat && (n <=? 57)%nat then Some (n - 48)%nat
  else if (65 <=? n)%nat && (n <=? 70)%nat then Some (n - 55)%nat
  else if (97 <=? n)%nat && (n <=? 102)%nat then Some (n - 87)%nat
  else None.

(** UTF-8 bytes of a code unit below 0x10000. *)
Definition utf8 (u : nat) : string :=
  if (u <? 128)%nat then String (ascii_of_nat u) EmptyString
  else if (u <? 2048)%nat then
    String (ascii_of_nat (192 + u / 64))
      (String (ascii_of_nat (128 + u mod 64)) EmptyString)
  else
    String (ascii_of_nat (224 + u / 4096))
      (String (ascii_of_nat (128 + (u / 64) mod 64))
         (String (ascii_of_nat (128 + u mod 64)) EmptyString)).

(** The characters of a string literal after its opening quote, up to
    the closing quote. *)
Fixpoint parse_chars (s : string) : option (string * string) :=
  match s with
  | EmptyString => None
  | String c rest =>
      if Ascii.eqb c "034"%char then Some (EmptyString, rest)
      else if Ascii.eqb c "\"%char then
        match rest with
        | String e rest' =>
            let simple (x : ascii) :=
              match parse_chars rest' with
              | Some (t, r) => Some (String x t, r)
              | None => None
              end in
            match e with
            | "034"%char => simple "034"%char
            | "\"%char => simple "\"%char
            | "/"%char => simple "/"%char
            | "b"%char => simple "008"%char
            | "f"%char => simple "012"%char
            | "n"%char => simple "010"%char
            | "r"%char => simple "013"%char
            | "t"%char => simple "009"%char
            | "u"%char =>
                match rest' with
                | String h1 (String h2 (String h3 (String h4 rest''))) =>
                    match hex_value h1, hex_value h2, hex_value h3,
                          hex_value h4, parse_chars rest'' with
                    | Some a, Some b, Some c', Some d, Some (t, r) =>
                        Some (utf8 (a * 4096 + b * 256 + c' * 16 + d)
                                +:+ t, r)
                    | _, _, _, _, _ => None
                    end
                | _ => None
                end
            | _ => None
            end
        | EmptyString => None
        end
      else if (nat_of_ascii c <? 32)%nat then None
      else
        match parse_chars rest with
        | Some (t, r) => Some (String c t, r)
        | None => None
        end
  end.

(** [s] without the prefix [p], when it starts with it. *)
Fixpoint strip_prefix (p s : string) : option string :=
  match p, s with
  | EmptyString, _ => Some s
  | String a p', String b s' =>
      if Ascii.eqb a b then strip_prefix p' s' else None
  | _, _ => None
  end.

(** Adds a member to an object under construction: a repeated key keeps
    its place and takes the new value. *)
Fixpoint define_member (k : string) (v : JsonValue)
  (ms : list (string * JsonValue)) : list (string * JsonValue) :=
  match ms with
  | [] => [(k, v)]
  | (k', v') :: rest =>
      if String.eqb k k' then (k, v) :: rest
      else (k', v') :: define_member k v rest
  end.

Fixpoint parse_value (fuel : nat) (s : string)
  : option (JsonValue * string) :=
  match fuel with
  | O => None
  | S f =>
      match skip_ws s with
      | EmptyString => None
      | String c rest as s0 =>
          if Ascii.eqb c "{"%char then
            match skip_ws rest with
            | String "}"%char r => Some (JObject [], r)
            | r =>
                match parse_members f [] r with
                | Some (ms, r') => Some (JObject ms, r')
                | None => None
                end
            end
          else if Ascii.eqb c "["%char then
            match skip_ws rest with
            | String "]"%char r => Some (JArray [], r)
            | r =>
                match parse_elements f r with
                | Some (vs, r') => Some (JArray vs, r')
                | None => None
                end
            end
          else if Ascii.eqb c "034"%char then
            match parse_chars rest with
            | Some (t, r) => Some (JString t, r)
            | None => None
            end
          else
            match strip_prefix "null" s0, strip_prefix "true" s0,
                  strip_prefix "false" s0 with
            | Some r, _, _ => Some (JNull, r)
            | _, Some r, _ => Some (JBool true, r)
            | _, _, Some r => Some (JBool false, r)
            | None, None, None =>
                match parse_number s0 with
                | Some (lexeme, r) => Some (JNumber lexeme, r)
                | None => None
                end
            end
      end
  end
with parse_elements (fuel : nat) (s : string)
  : option (list JsonValue * string) :=
  match fuel with
  | O => None
  | S f =>
      match parse_value f s with
      | None => None
      | Some (v, r) =>
          match skip_ws r with
          | String ","%char r' =>
              match parse_elements f r' with
              | Some (vs, r'') => Some (v :: vs, r'')
              | None => None
              end
          | String "]"%char r' => Some ([v], r')
          | _ => None
          end
      end
  end
with parse_members (fuel : nat) (acc : list (string * JsonValue))
  (s : string) : option (list (string * JsonValue) * string) :=
  match fuel with
  | O => None
  | S f =>
      match skip_ws s with
      | String "034"%char r0 =>
          match parse_chars r0 with
          | None => None
          | Some (k, r1) =>
              match skip_ws r1 with
              | String ":"%char r2 =>
                  match parse_value f r2 with
                  | None => None
                  | Some (v, r3) =>
                      let acc' := define_member k v acc in
                      match skip_ws r3 with
                      | String ","%char r4 => parse_members f acc' r4
                      | String "}"%char r4 => Some (acc', r4)
                      | _ => None
                      end
                  end
              | _ => None
              end
          end
      | _ => None
      end
  end.

(** [JSON.parse(text)]; the fuel covers two steps per character. *)
Definition parse (text : string) : option JsonValue :=
  match parse_value (2 * String.length text + 2) text with
  | Some (v, rest) =>
      match skip_ws rest with
      | EmptyString => Some v
      | _ => None
      end
  | None => None
  end.

End Json.

(** The realm right after [new OrbitCore(exports)]: both cached views
    are [null]. *)
Definition new_realm {G : Type} (w : WasmInstance G) : Realm G :=
  mkRealm w 0%nat 1%nat None None [].

Module Demo.

(** *** Text *)

Definition quote : string := String "034"%char EmptyString.

(** JSON text written with apostrophes in place of double quotes. *)
Fixpoint json_text (s : string) : string :=
  match s with
  | EmptyString => EmptyString
  | String c rest =>
      String (if Ascii.eqb c "'"%char then "034"%char else c)
             (json_text rest)
  end.

Definition hex_digit (n : nat) : ascii :=
  ascii_of_nat (if (n <? 10)%nat then 48 + n else 87 + n).

Fixpoint escape (s : string) : string :=
  match s with
  | EmptyString => EmptyString
  | String c rest =>
      let n := nat_of_ascii c in
      (if Ascii.eqb c "034"%char then "\" +:+ quote
       else if Ascii.eqb c "\"%char then "\\"
       else if (n =? 8)%nat then "\b"
       else if (n =? 9)%nat then "\t"
       else if (n =? 10)%nat then "\n"
       else if (n =? 12)%nat then "\f"
       else if (n =? 13)%nat then "\r"
       else if (n <? 32)%nat then
         "\u00" +:+ String (hex_digit (n / 16))
                      (String (hex_digit (n mod 16)) EmptyString)
       else String c EmptyString) +:+ escape rest
  end.

(** [JSON.stringify(value)] *)
Fixpoint stringify (v : JsonValue) : string :=
  match v with
  | JNull => "null"
  | JBool true => "true"
  | JBool false => "false"
  | JNumber lexeme => lexeme
  | JString s => quote +:+ escape s +:+ quote
  | JArray items =>
      "[" +:+
      (fix elements (first : bool) (l : list JsonValue) : string :=
         match l with
         | [] => EmptyString
         | x :: rest =>
             (if first then EmptyString else ",") +:+ stringify x
               +:+ elements false rest
         end) true items +:+ "]"
  | JObject members =>
      "{" +:+
      (fix fields (first : bool) (l : list (string * JsonValue)) : string :=
         match l with
         | [] => EmptyString
         | (k, x) :: rest =>
             (if first then EmptyString else ",") +:+ quote +:+ escape k
               +:+ quote +:+ ":" +:+ stringify x +:+ fields false rest
         end) true members +:+ "}"
  end.

Definition is_space (c : ascii) : bool :=
  let n := nat_of_ascii c in
  ((9 <=? n)%nat && (n <=? 13)%nat) || (n =? 32)%nat.

Fixpoint trim_start (s : string) : string :=
  match s with
  | String c rest => if is_space c then trim_start rest else s
  | EmptyString => s
  end.

Fixpoint trim_end (s : string) : string :=
  match s with
  | EmptyString => EmptyString
  | String c rest =>
      match trim_end rest with
      | EmptyString => if is_space c then EmptyString else String c EmptyString
      | t => String c t
      end
  end.

(** [String.prototype.trim] on ASCII text. *)
Definition trim (s : string) : string := trim_end (trim_start s).

(** [new URL(input)] for the two schemes the demos use. *)
Definition url_new (s : string) : option URL :=
  if String.prefix "file:///" s then Some (mkURL "file:" s)
  else if String.prefix "https://" s then Some (mkURL "https:" s)
  else None.

(** *** A file system with the given files *)

Definition lookup_file (files : list (string * string)) (p : string)
  : option string :=
  snd <$> List.find (fun f => String.eqb (fst f) p) files.

Definition target_path (t : FsTarget) : string :=
  match t with
  | PathTarget p => p
  | UrlTarget u => String.substring 7 (String.length (href u) - 7) (href u)
  end.

Definition fs_of (files : list (string * string)) : NodeFs :=
  mkNodeFs
    (fun t => bool_decide (is_Some (lookup_file files (target_path t))))
    (fun t enc =>
       match lookup_file files (target_path t) with
       | Some text =>
           if String.eqb enc "utf8" then Normal text
           else Throw (TypeError "Unknown encoding")
       | None => Throw (Error "ENOENT: no such file or directory")
       end).

(** A platform: with or without Node's file system. *)
Definition platform (node : bool) (files : list (string * string))
  : Platform :=
  mkPlatform list_byte_of_string string_of_list_byte Json.parse stringify
             (fun lexeme => lexeme) node (fs_of files) url_new trim.

(** *** A small core: a bump allocator and scripted entry points *)

(** Module-private state: the next free address and the live
    allocations (pointer and size). *)
Record Heap : Type := mkHeap {
  brk : Z;
  live : list (Z * Z)
}.

(** What the entry points do when called. *)
Record Script : Type := mkScript {
  reply_status : Z;
  reply_payload : list byte;
  reply_traps : bool;        (* trap after the result has been written *)
  grows : bool               (* grow the memory on every allocation *)
}.

Definition byte_of_Z (z : Z) : byte :=
  default x00 (Byte.of_N (Z.to_N (z mod 256))).

Definition word_bytes (x : Z) : list byte :=
  [byte_of_Z x; byte_of_Z (x / 256); byte_of_Z (x / 65536);
   byte_of_Z (x / 16777216)].

Definition toy_alloc (sc : Script) (size : Z) (w : WasmInstance Heap)
  : Z * WasmInstance Heap :=
  let h := globals w in
  let w1 :=
    if grows sc then
      mkInstance (linear_memory w ++ repeat x00 (Z.to_nat size))
                 (S (grow_count w)) h
    else w in
  if byte_length (linear_memory w1) <? brk h + size then (0, w)
  else
    (brk h,
     mkInstance (linear_memory w1) (grow_count w1)
                (mkHeap (brk h + size) (live h ++ [(brk h, size)]))).

Definition toy_dealloc (p l c : Z) (w : WasmInstance Heap)
  : WasmInstance Heap :=
  mkInstance (linear_memory w) (grow_count w)
    (mkHeap (brk (globals w))
            (List.filter (fun a => negb (fst a =? p)) (live (globals w)))).

(** Every entry point: allocate the payload, write it, write its
    descriptor into the result slot, then return the status or trap. *)
Definition toy_entry (sc : Script) (resultPtr : Z) (w : WasmInstance Heap)
  : Completion Z * WasmInstance Heap :=
  let n := byte_length (reply_payload sc) in
  let '(p, w1) := if n =? 0 then (0, w) else toy_alloc sc n w in
  let mem1 := store_bytes (linear_memory w1) (reply_payload sc) p in
  let mem2 :=
    store_bytes mem1 (word_bytes p ++ word_bytes n ++ word_bytes n)
                resultPtr in
  let w2 := mkInstance mem2 (grow_count w1) (globals w1) in
  (if reply_traps sc then Throw (RuntimeError "unreachable")
   else Normal (reply_status sc), w2).

Definition core (sc : Script) : OrbitExports Heap :=
  mkExports (toy_alloc sc) toy_dealloc
    (fun r => toy_entry sc r)
    (fun _ _ r => toy_entry sc r)
    (fun _ _ r => toy_entry sc r)
    (fun _ _ r => toy_entry sc r)
    (fun _ _ r => toy_entry sc r)
    (fun _ _ _ r => toy_entry sc r)
    (fun _ _ r => toy_entry sc r)
    (fun _ _ r => toy_entry sc r).

(** A fresh instance with [size] bytes of zeroed memory; address 0 is
    never handed out. *)
Definition boot (size : nat) : Realm Heap :=
  new_realm (mkInstance (repeat x00 size) 0 (mkHeap 8 [])).

(** *** Scenarios *)

(** Node with one file on disk. *)
Definition node : Platform :=
  platform true [("/etc/app.orbit", "app { name: 1 }")].

(** A browser: no file system. *)
Definition browser : Platform := platform false [].

Definition error_payload : list byte :=
  list_byte_of_string
    (json_text
       "{'kind':'Parse','message':'unexpected end of input','span':{'start':5,'end':5}}").

(** The core reports a structured error. *)
Definition rejecting : OrbitExports Heap :=
  core (mkScript 1 error_payload false false).

(** The core succeeds with the text [1.2.3]. *)
Definition answering : OrbitExports Heap :=
  core (mkScript 0 (list_byte_of_string "1.2.3") false false).

(** The same, with a memory that grows at every allocation. *)
Definition growing : OrbitExports Heap :=
  core (mkScript 0 (list_byte_of_string "1.2.3") false true).

(** The core fails with a payload that is JSON but not an error
    object. *)
Definition shapeless : OrbitExports Heap :=
  core (mkScript 1 (list_byte_of_string "{}") false false).

(** The core fails with a payload that is not JSON. *)
Definition garbled : OrbitExports Heap :=
  core (mkScript 1 (list_byte_of_string "oops") false false).

(** The entry point writes its result and then traps. *)
Definition trapping : OrbitExports Heap :=
  core (mkScript 0 (list_byte_of_string "1.2.3") true false).

(** The input of the demos: the bytes of [app {] in a host buffer. *)
Definition app_source : Uint8Array :=
  mkUint8Array 1%nat (list_byte_of_string "app {").

(** A realm with [size] bytes of memory in which [app_source] exists. *)
Definition ready (size : nat) : Realm Heap :=
  set_next_buffer 2%nat (boot size).

Definition call_parse (X : OrbitExports Heap) (p l resultPtr : Z)
  : M Heap Z :=
  exports_entry "orbit_parse" [p; l; resultPtr] (orbit_parse X p l resultPtr).

(** A parse of [app_source], step by step: the realm after
    [writeInput], after the allocation of the result slot, after the
    entry point, after [readSlice] and after [copySlice]. *)
Definition after_write (X : OrbitExports Heap) (size : nat) : Realm Heap :=
  snd (writeInput X (Some app_source) (ready size)).
Definition after_slot (X : OrbitExports Heap) (size : nat) : Realm Heap :=
  snd (exports_orbit_alloc X SLICE_STRUCT_SIZE (after_write X size)).
Definition after_call (X : OrbitExports Heap) (size : nat) : Realm Heap :=
  snd (call_parse X 8 5 13 (after_slot X size)).
Definition after_read (X : OrbitExports Heap) (size : nat) : Realm Heap :=
  snd (readSlice 13 (after_call X size)).
Definition after_copy (X : OrbitExports Heap) (size : nat) (n : Z)
  : Realm Heap :=
  snd (copySlice (mkSlice 25 n n) (after_read X size)).

(** The whole parse. *)
Definition parse_run (X : OrbitExports Heap) (size : nat)
  : Completion JsonValue * Realm Heap :=
  invoke node X (Some app_source) (call_parse X) (decode_json node)
         (ready size).

(** *** Instances to validate *)

Definition full_exports : gmap string ExportValue :=
  list_to_map
    [ ("memory", ExportMemory); ("orbit_alloc", ExportFunction);
      ("orbit_dealloc", ExportFunction); ("orbit_version", ExportFunction);
      ("orbit_parse", ExportFunction);
      ("orbit_parse_with_recovery", ExportFunction);
      ("orbit_evaluate", ExportFunction);
      ("orbit_evaluate_ast", ExportFunction);
      ("orbit_value_to_json", ExportFunction);
      ("orbit_value_to_yaml", ExportFunction);
      ("orbit_value_to_msgpack", ExportFunction) ].

(** A module without the [evaluate] entry point. *)
Definition without_evaluate : gmap string ExportValue :=
  delete "orbit_evaluate" full_exports.

(** A module whose [memory] export is a function. *)
Definition memory_is_function : gmap string ExportValue :=
  <["memory" := ExportFunction]> full_exports.

(** A loader with no network and no module compiler: only the hook can
    produce an instance. *)
Definition offline : Loader unit unit :=
  mkLoader tt
    (fun _ _ => Throw (Error "compile error"))
    (fun _ _ => Throw (Error "compile error"))
    (mkURL "file:" "file:///pkg/wasm/orbit_core.wasm")
    (fun _ _ => None)
    (fun _ => Throw (Error "ENOENT: no such file or directory"))
    None.

(** Options whose hook resolves to an instance with the given exports. *)
Definition hooked (e : gmap string ExportValue)
  : OrbitInitOptions unit unit :=
  mkInitOptions None None None
    (Some (fun _ => Normal (mkWasmInstance e))) None.

(** What [error_payload] parses to, and its typed reading. *)
Definition error_value : JsonValue :=
  JObject
    [ ("kind", JString "Parse");
      ("message", JString "unexpected end of input");
      ("span", JObject [("start", JNumber "5"); ("end", JNumber "5")]) ].

Definition error_detail : OrbitJsError :=
  mkJsError "Parse" "unexpected end of input" (mkSpan "5" "5").

(** The payload [copySlice] hands back in a parse of [app_source]. *)
Definition copied (content : list byte) : Uint8Array :=
  mkUint8Array 2%nat content.

(** Options for [evaluate]. *)
Definition both_given : OrbitEvaluateOptions :=
  mkOptions (Some "/etc/app.orbit") (Some "app { }") None.
Definition on_disk : OrbitEvaluateOptions :=
  mkOptions (Some "/etc/app.orbit") None None.
Definition missing_file : OrbitEvaluateOptions :=
  mkOptions (Some "missing.orbit") None None.
Definition empty_path : OrbitEvaluateOptions :=
  mkOptions (Some EmptyString) None None.
Definition nothing_given : OrbitEvaluateOptions :=
  mkOptions None None None.

End Demo.
(** ** Reading the trace *)

(** The releases a trace records, in order. *)
Definition deallocs (t : list Event) : list (Z * Z * Z) :=
  flat_map (fun e => match e with
                     | EvDealloc p l c => [(p, l, c)]
                     | _ => []
                     end) t.

(** An access is sound when the view it went through was built over the
    buffer that is the memory's buffer at the time of the access. *)
Definition sound_access (e : Event) : Prop :=
  match e with
  | EvAccess _ view current => view = current
  | _ => True
  end.

(** The release [freeInput] and [freeBuffer] perform for a descriptor. *)
Definition release_of (s : OrbitSlice) : list Event :=
  if ptr s =? 0 then [] else [EvDealloc (ptr s) (len s) (cap s)].

(** What the [try] block of [invoke] releases, given how the entry-point
    call and the read of the result descriptor completed. *)
Definition result_release (called : Completion Z)
  (read : Completion OrbitSlice) : list Event :=
  match called, read with
  | Normal _, Normal resultSlice => release_of resultSlice
  | _, _ => []
  end.

Section Vocabulary.

Context {G : Type}.

(** [quiet_step r r']: from [r] to [r'] the host logged only sound
    accesses to memory, released nothing, and the memory kept its
    buffer. *)
Definition quiet_step (r r' : Realm G) : Prop :=
  exists ev,
    trace r' = trace r ++ ev
    /\ deallocs ev = []
    /\ Forall sound_access ev
    /\ memory_buffer r' = memory_buffer r.

(** Buffer identities are handed out in increasing order, so the
    memory's buffer has an identity below the next unused one. *)
Definition buffers_known (r : Realm G) : Prop :=
  (memory_buffer r < next_buffer r)%nat.

(** [keeps I m]: running [m] preserves the invariant [I]. *)
Definition keeps {A} (I : Realm G -> Prop) (m : M G A) : Prop :=
  forall r, I r -> I (snd (m r)).

(** [sound m]: whatever the state, [m] only appends sound accesses. *)
Definition sound {A} (m : M G A) : Prop :=
  forall r, exists ev,
    trace (snd (m r)) = trace r ++ ev /\ Forall sound_access ev.

End Vocabulary.

(** The spec's reading of the instantiation strategy: a tagged variant
    over the configuration ... *)
Inductive InstantiationSource {Imports WasmModule : Type} : Type :=
| FromHook (hook : Imports -> Completion Instance)
| FromModule (m : WasmModule)
| FromBytes (b : BufferSource)
| FromLocation (location : option UrlInput).
Arguments InstantiationSource : clear implicits.

Section Resolution.

Context {Imports WasmModule : Type}.
Context (P : Platform) (L : Loader Imports WasmModule).

(** ... resolved by one ordered decision: hook, then module, then raw
    bytes, then the configured (or default) location. *)
Definition resolve_source (options : option (OrbitInitOptions Imports WasmModule))
  : InstantiationSource Imports WasmModule :=
  match options with
  | None => FromLocation None
  | Some o =>
      match instantiate o, module o, binary o with
      | Some hook, _, _ => FromHook hook
      | None, Some m, _ => FromModule m
      | None, None, Some b => FromBytes b
      | None, None, None => FromLocation (url o)
      end
  end.

(** Obtaining the instance from the resolved source. *)
Definition instantiate_from (src : InstantiationSource Imports WasmModule)
  (imports0 : Imports) : Completion Instance :=
  match src with
  | FromHook hook => hook imports0
  | FromModule m => WebAssembly_instantiate_module L m imports0
  | FromBytes b =>
      cbind (bufferSourceToUint8Array b)
        (fun bytes =>
           cbind (WebAssembly_instantiate_bytes L bytes imports0)
             (fun result => Normal (instance_of result)))
  | FromLocation location =>
      cbind (loadWasmBytes P L location)
        (fun bytes =>
           cbind (WebAssembly_instantiate_bytes L bytes imports0)
             (fun result => Normal (instance_of result)))
  end.

(** The imports handed to the instantiation: [options?.imports ?? {}]. *)
Definition imports_of (options : option (OrbitInitOptions Imports WasmModule))
  : Imports :=
  default (empty_imports L) (o ← options; imports o).

End Resolution.

(** ** More readings of the trace *)

(** The allocations a trace records: the size asked for and the pointer
    returned, in order. *)
Definition allocs (t : list Event) : list (Z * Z) :=
  flat_map (fun e => match e with
                     | EvAlloc size p => [(size, p)]
                     | _ => []
                     end) t.

(** The entry-point calls a trace records. *)
Definition entries (t : list Event) : list (string * list Z) :=
  flat_map (fun e => match e with
                     | EvEntry name args => [(name, args)]
                     | _ => []
                     end) t.

(** The event is a raw access to memory. *)
Definition is_access (e : Event) : Prop :=
  match e with
  | EvAccess _ _ _ => True
  | _ => False
  end.

(** The event is not a release of the null pointer. *)
Definition releases_nonnull (e : Event) : Prop :=
  match e with
  | EvDealloc p _ _ => p <> 0
  | _ => True
  end.


(** The release that gives back an allocation of [size] bytes at [p]:
    [orbit_dealloc(p, size, size)]. *)
Definition release_for (a : Z * Z) : Z * Z * Z := (snd a, fst a, fst a).

(** The number four bytes denote when read least significant first. *)
Definition little_endian (b0 b1 b2 b3 : byte) : Z :=
  byte_value b0 + 256 * byte_value b1 + 65536 * byte_value b2
  + 16777216 * byte_value b3.

Section MoreVocabulary.

Context {G : Type}.

(** [emits Q m]: whatever the state, every event [m] appends satisfies
    [Q]. *)
Definition emits {A} (Q : Event -> Prop) (m : M G A) : Prop :=
  forall r, exists ev,
    trace (snd (m r)) = trace r ++ ev /\ Forall Q ev.

End MoreVocabulary.

(** * The packaging script [scripts/download-wasm.mjs]

    The script fetches the module from the release page and stores it in
    [src] and [dist].  Paths are written relative to the package root.
    The handler installed on [main()] at the end of the script, which
    prints the stack of the error and exits with status 1, and the
    [cause] attached to the final error are left out. *)

Module DownloadWasm.

(** What a run does to the world, in order.  A call that throws is
    recorded as well: it was attempted. *)
Inductive Effect : Type :=
| ConsoleLog (line : string)
| ConsoleWarn (line : string)
| Fetch (url : string)
| Mkdir (dir : string)
| WriteFile (file : string) (bytes : list byte).

(** The world of the script.  The network and the file system may answer
    differently as the run proceeds, so they are given what was done so
    far. *)
Record Host : Type := mkHost {
  (* process.env.ORBIT_WASM_TAG *)
  ORBIT_WASM_TAG : option string;
  (* fs.readFile(packageJsonPath, "utf8") *)
  package_json : Completion string;
  fetch : list Effect -> string -> Completion Response;
  (* fs.mkdir(dir, { recursive: true }) *)
  fs_mkdir : list Effect -> string -> Completion unit;
  fs_writeFile : list Effect -> string -> list byte -> Completion unit
}.

(** The monad of the script: the effects so far, and exceptions. *)
Definition Script (A : Type) : Type :=
  list Effect -> Completion A * list Effect.

Definition pure {A} (a : A) : Script A := fun h => (Normal a, h).
Definition raise {A} (e : JsError) : Script A := fun h => (Throw e, h).
Definition lift {A} (c : Completion A) : Script A := fun h => (c, h).
Definition andThen {A B} (m : Script A) (k : A -> Script B) : Script B :=
  fun h =>
    match m h with
    | (Normal a, h') => k a h'
    | (Throw e, h') => (Throw e, h')
    end.

(** A call to the world: its answer may depend on the effects so far,
    and the call is recorded. *)
Definition perform {A} (eff : Effect) (answer : list Effect -> Completion A)
  : Script A :=
  fun h => (answer h, h ++ [eff]).

Definition console_log (line : string) : Script unit :=
  perform (ConsoleLog line) (fun _ => Normal tt).
Definition console_warn (line : string) : Script unit :=
  perform (ConsoleWarn line) (fun _ => Normal tt).

(** [error.message] *)
Definition message_of (e : JsError) : string :=
  match e with
  | Error m | TypeError m | RangeError m | SyntaxError m | RuntimeError m
  | OrbitError _ m _ => m
  end.

(** The release asset of a tag and where it is downloaded from. *)
Definition assetName (tag : string) : string :=
  "orbit-core-" +:+ tag +:+ ".wasm".
Definition release_url (tag : string) : string :=
  "https://github.com/orbit-format/orbit/releases/download/" +:+ tag
    +:+ "/" +:+ assetName tag.

Definition wasmOut : string := "src/orbit_core.wasm".
Definition distWasmOut : string := "dist/orbit_core.wasm".

(** The message of the error [main] ends with when no tag worked. *)
Definition tried_message (tagCandidates : list string) : string :=
  "[orbit-js]: Failed to download orbit_core.wasm. Tried tags: "
    +:+ String.concat ", " tagCandidates
    +:+ ". Set ORBIT_WASM_TAG to override the release tag.".

Section Script.

Context (P : Platform) (H : Host).

(** Truthiness of the value of a property of parsed JSON; [None] is
    [undefined].  A number is falsy when it is zero, which prints as
    [0]. *)
Definition js_truthy (v : option JsonValue) : bool :=
  match v with
  | None => false
  | Some JNull => false
  | Some (JBool b) => b
  | Some (JNumber lexeme) => negb (String.eqb (Number_toString P lexeme) "0")
  | Some (JString s) => negb (String.eqb s EmptyString)
  | Some (JArray _) => true
  | Some (JObject _) => true
  end.

(** [async function readPackageVersion()] *)
Definition readPackageVersion : Completion JsonValue :=
  match package_json H with
  | Throw e => Throw e
  | Normal raw =>
      match JSON_parse P raw with
      | None => Throw (SyntaxError "JSON.parse: invalid JSON text")
      | Some pkg =>
          match get_property pkg "version" with
          | Throw e => Throw e
          | Normal version =>
              if js_truthy version then
                Normal (default JNull version)
              else
                Throw (Error
                  "[orbit-js]: Missing version field in package.json")
          end
      end
  end.

(** [function buildTagCandidates(version)].  A version that is not a
    string is first converted by the template literal and then has no
    [startsWith] method to call. *)
Definition buildTagCandidates (version : JsonValue)
  : Completion (list string) :=
  if truthy (ORBIT_WASM_TAG H) then
    Normal [default EmptyString (ORBIT_WASM_TAG H)]
  else
    match version with
    | JString v =>
        Normal (("v" +:+ v) :: (if String.prefix "v" v then [] else [v]))
    | other =>
        match ToString P other with
        | Throw e => Throw e
        | Normal _ =>
            Throw (TypeError "version.startsWith is not a function")
        end
    end.

(** [async function downloadWasmForTag(tag)] *)
Definition downloadWasmForTag (tag : string) : Script unit :=
  andThen (console_log ("[orbit-js]: Fetching " +:+ assetName tag
                          +:+ " for tag " +:+ tag +:+ "..."))
  (fun _ =>
  andThen (perform (Fetch (release_url tag))
             (fun h => fetch H h (release_url tag)))
  (fun response =>
  if negb (ok response) then
    raise (Error ("[orbit-js]: Failed to download " +:+ assetName tag
                    +:+ " (HTTP " +:+ pretty (status response) +:+ " "
                    +:+ statusText response +:+ ")"))
  else
    andThen (lift (arrayBuffer response))
    (fun bytes =>
    andThen (perform (Mkdir "src") (fun h => fs_mkdir H h "src"))
    (fun _ =>
    andThen (perform (WriteFile wasmOut bytes)
               (fun h => fs_writeFile H h wasmOut bytes))
    (fun _ =>
    andThen (console_log ("[orbit-js]: Saved wasm artifact to " +:+ wasmOut))
    (fun _ =>
    andThen (perform (Mkdir "dist") (fun h => fs_mkdir H h "dist"))
    (fun _ =>
    andThen (perform (WriteFile distWasmOut bytes)
               (fun h => fs_writeFile H h distWasmOut bytes))
    (fun _ =>
    console_log ("[orbit-js]: Saved wasm artifact to " +:+ distWasmOut))))))))).

(** The [for (const tag of tagCandidates)] loop of [main] and the
    [throw] after it; [rest] is what is left to try. *)
Fixpoint try_tags (tagCandidates rest : list string) : Script unit :=
  match rest with
  | [] => raise (Error (tried_message tagCandidates))
  | tag :: rest' =>
      fun h =>
        match downloadWasmForTag tag h with
        | (Normal _, h') => (Normal tt, h')
        | (Throw error, h') =>
            andThen
              (console_warn ("[orbit-js]: Unable to download wasm for tag "
                               +:+ tag +:+ ": " +:+ message_of error))
              (fun _ => try_tags tagCandidates rest') h'
        end
  end.

(** [async function main()] *)
Definition main : Script unit :=
  andThen (lift readPackageVersion)
  (fun version =>
  andThen (lift (buildTagCandidates version))
  (fun tagCandidates => try_tags tagCandidates tagCandidates)).

End Script.

(** The requests and the writes a run attempted, in order. *)
Definition fetches (h : list Effect) : list string :=
  flat_map (fun e => match e with Fetch url => [url] | _ => [] end) h.
Definition writes (h : list Effect) : list (string * list byte) :=
  flat_map (fun e => match e with
                     | WriteFile file bytes => [(file, bytes)]
                     | _ => []
                     end) h.

(** *** A release page with one asset

    The manifest says version 0.1.0; the release page has an asset for
    the tag [0.1.0] only, so the first candidate is answered with 404. *)
Definition asset : list byte := [x00; x61; x73; x6d].

Definition page (h : list Effect) (url : string) : Completion Response :=
  if String.eqb url (release_url "0.1.0") then
    Normal (mkResponse true 200 "OK" (Normal asset))
  else
    Normal (mkResponse false 404 "Not Found" (Normal [])).

Definition host : Host :=
  mkHost None (Normal (Demo.json_text "{'name':'orbit','version':'0.1.0'}"))
    page (fun _ _ => Normal tt) (fun _ _ _ => Normal tt).

(** A manifest without a version. *)
Definition unversioned : Host :=
  mkHost None (Normal (Demo.json_text "{'name':'orbit'}"))
    page (fun _ _ => Normal tt) (fun _ _ _ => Normal tt).

End DownloadWasm.

(** ** More scenarios *)

Module Scenes.

Import Demo.

(** A core whose allocator hands out an address past the end of the
    memory. *)
Definition careless : OrbitExports Heap :=
  mkExports (fun _ w => (4096, w)) toy_dealloc
    (orbit_version answering) (orbit_parse answering)
    (orbit_parse_with_recovery answering) (orbit_evaluate answering)
    (orbit_evaluate_ast answering) (orbit_value_to_json answering)
    (orbit_value_to_yaml answering) (orbit_value_to_msgpack answering).

(** The bytes a page is served for the packaged module. *)
Definition served : list byte := [x00; x61; x73; x6d; x01; x00; x00; x00].

(** A loader in a page: the packaged module is fetched over https, and
    compiling the served bytes gives a complete instance. *)
Definition cdn : Loader unit unit :=
  mkLoader tt
    (fun _ _ => Throw (Error "compile error"))
    (fun _ _ => Normal (BareInstance (mkWasmInstance full_exports)))
    (mkURL "https:" "https://cdn.example/orbit_core.wasm")
    (fun _ _ => None)
    (fun _ => Throw (Error "ENOENT: no such file or directory"))
    (Some (fun u =>
             if String.eqb (href u) "https://cdn.example/orbit_core.wasm"
             then Normal (mkResponse true 200 "OK" (Normal served))
             else Normal (mkResponse false 404 "Not Found" (Normal [])))).

(** The exchange of a parse of [app_source] with a core. *)
Definition exchange (X : OrbitExports Heap) (size : nat)
  : Completion (Z * Uint8Array) * Realm Heap :=
  invoke_exchange X (Some app_source) (call_parse X) (ready size).

End Scenes.

(** * Properties *)

Section Facts.

Context {G : Type} (P : Platform) (X : OrbitExports G).

Abbreviation Realm := (Realm G).

Lemma deallocs_app (a b : list Event) :
  deallocs (a ++ b) = deallocs a ++ deallocs b.
Proof. unfold deallocs. apply flat_map_app. Qed.

Lemma deallocs_release_of (s : OrbitSlice) :
  deallocs (release_of s)
  = if ptr s =? 0 then [] else [(ptr s, len s, cap s)].
Proof. unfold release_of. destruct (ptr s =? 0); reflexivity. Qed.

Lemma run_export_trace {A} (f : WasmInstance G -> A * WasmInstance G)
  (r : Realm) :
  trace (snd (run_export f r)) = trace r.
Proof.
  unfold run_export. destruct (f (instance r)) as [a w'].
  destruct (Nat.eqb _ _); reflexivity.
Qed.

Lemma exports_orbit_alloc_spec (size : Z) (r : Realm) :
  exists p r',
    exports_orbit_alloc X size r = (Normal p, r')
    /\ trace r' = trace r ++ [EvAlloc size p].
Proof.
  unfold exports_orbit_alloc.
  pose proof (run_export_trace (orbit_alloc X size) r) as Ht.
  destruct (run_export (orbit_alloc X size) r) as [p r1]. simpl in Ht.
  exists p, (log (EvAlloc size p) r1). split; [reflexivity|].
  simpl. now rewrite Ht.
Qed.

Lemma exports_orbit_dealloc_spec (p l c : Z) (r : Realm) :
  exists r',
    exports_orbit_dealloc X p l c r = (Normal tt, r')
    /\ trace r' = trace r ++ [EvDealloc p l c].
Proof.
  unfold exports_orbit_dealloc.
  pose proof (run_export_trace (fun w => (tt, orbit_dealloc X p l c w)) r) as Ht.
  destruct (run_export _ r) as [u r1]. simpl in Ht.
  exists (log (EvDealloc p l c) r1). split; [reflexivity|].
  simpl. now rewrite Ht.
Qed.

Lemma freeInput_spec (s : OrbitSlice) (r : Realm) :
  exists r',
    freeInput X s r = (Normal tt, r')
    /\ trace r' = trace r ++ release_of s.
Proof.
  unfold freeInput, release_of. destruct (ptr s =? 0); simpl.
  - exists r. split; [reflexivity|]. now rewrite app_nil_r.
  - apply exports_orbit_dealloc_spec.
Qed.

Lemma freeBuffer_spec (s : OrbitSlice) (r : Realm) :
  exists r',
    freeBuffer X s r = (Normal tt, r')
    /\ trace r' = trace r ++ release_of s.
Proof.
  unfold freeBuffer, release_of. destruct (ptr s =? 0); simpl.
  - exists r. split; [reflexivity|]. now rewrite app_nil_r.
  - apply exports_orbit_dealloc_spec.
Qed.

Lemma getUint8Memory_eq (r : Realm) :
  getUint8Memory r
  = (Normal (memory_buffer r), set_cachedU8 (Some (memory_buffer r)) r).
Proof.
  unfold getUint8Memory. destruct r as [w m n cv cu t]; simpl.
  destruct cu as [b|]; [|reflexivity].
  destruct (Nat.eqb b m) eqn:E; [|reflexivity].
  apply Nat.eqb_eq in E. subst b. reflexivity.
Qed.

Lemma getDataView_eq (r : Realm) :
  getDataView r
  = (Normal (memory_buffer r), set_cachedView (Some (memory_buffer r)) r).
Proof.
  unfold getDataView. destruct r as [w m n cv cu t]; simpl.
  destruct cv as [b|]; [|reflexivity].
  destruct (Nat.eqb b m) eqn:E; [|reflexivity].
  apply Nat.eqb_eq in E. subst b. reflexivity.
Qed.

(** A read through a view over the current buffer: one sound access is
    logged and nothing else changes. *)
Lemma DataView_getUint32_current (view : BufferId) (off : Z) (r : Realm) :
  view = memory_buffer r ->
  exists c,
    DataView_getUint32 view off r
    = (c, log (EvAccess DvGetUint32 view view) r).
Proof.
  intros ->. unfold DataView_getUint32. simpl.
  destruct (off <? 0); [eexists; reflexivity|].
  rewrite Nat.eqb_refl. simpl.
  destruct (drop (Z.to_nat off) (linear_memory (instance r)))
    as [|b0 [|b1 [|b2 [|b3 rest]]]]; eexists; reflexivity.
Qed.

Lemma quiet_step_refl (r : Realm) : quiet_step r r.
Proof.
  exists []. rewrite app_nil_r. repeat split; constructor.
Qed.

Lemma quiet_step_trans (r1 r2 r3 : Realm) :
  quiet_step r1 r2 -> quiet_step r2 r3 -> quiet_step r1 r3.
Proof.
  intros (e1 & T1 & D1 & S1 & M1) (e2 & T2 & D2 & S2 & M2).
  exists (e1 ++ e2). repeat split.
  - rewrite T2, T1. now rewrite app_assoc.
  - rewrite deallocs_app, D1, D2. reflexivity.
  - apply Forall_app; split; assumption.
  - congruence.
Qed.

Lemma quiet_step_access (op : AccessOp) (r : Realm) :
  quiet_step r (log (EvAccess op (memory_buffer r) (memory_buffer r)) r).
Proof.
  eexists. repeat split; simpl; try reflexivity.
  repeat constructor.
Qed.

Lemma readSlice_quiet (p : Z) (r : Realm) :
  quiet_step r (snd (readSlice p r)).
Proof.
  unfold readSlice, bind. rewrite getDataView_eq.
  set (r1 := set_cachedView (Some (memory_buffer r)) r).
  assert (Q1 : quiet_step r r1) by (exists []; rewrite app_nil_r;
    repeat split; constructor).
  destruct (DataView_getUint32_current (memory_buffer r) p r1 eq_refl)
    as [c0 E0]. rewrite E0.
  set (r2 := log _ r1) in *.
  assert (Q2 : quiet_step r r2)
    by (eapply quiet_step_trans; [exact Q1| apply (quiet_step_access _ r1)]).
  destruct c0 as [p0|e]; [|exact Q2].
  destruct (DataView_getUint32_current (memory_buffer r) (p + 4) r2 eq_refl)
    as [c1 E1]. rewrite E1.
  set (r3 := log _ r2) in *.
  assert (Q3 : quiet_step r r3)
    by (eapply quiet_step_trans; [exact Q2| apply (quiet_step_access _ r2)]).
  destruct c1 as [l0|e]; [|exact Q3].
  destruct (DataView_getUint32_current (memory_buffer r) (p + 8) r3 eq_refl)
    as [c2 E2]. rewrite E2.
  set (r4 := log _ r3) in *.
  assert (Q4 : quiet_step r r4)
    by (eapply quiet_step_trans; [exact Q3| apply (quiet_step_access _ r3)]).
  destruct c2 as [c0|e]; exact Q4.
Qed.

(** [copySlice] never throws: the view it reads through is current and
    [slice] clamps its bounds. *)
Lemma copySlice_quiet (s : OrbitSlice) (r : Realm) :
  exists payload r',
    copySlice s r = (Normal payload, r') /\ quiet_step r r'.
Proof.
  unfold copySlice. destruct (len s =? 0).
  - eexists _, _. split; [reflexivity|].
    exists []. rewrite app_nil_r. repeat split; constructor.
  - unfold bind. rewrite getUint8Memory_eq.
    unfold Uint8Array_slice. simpl. rewrite Nat.eqb_refl. simpl.
    eexists _, _. split; [reflexivity|].
    eexists. simpl. repeat split; try reflexivity. repeat constructor.
Qed.

(** The [finally] block of [invoke]: it never throws and releases the
    slot, then the input buffer. *)
Lemma finally_block_spec (slot : Z) (inputSlice : OrbitSlice) (r : Realm) :
  exists r',
    (exports_orbit_dealloc X slot SLICE_STRUCT_SIZE SLICE_STRUCT_SIZE ;;
     freeInput X inputSlice) r = (Normal tt, r')
    /\ trace r'
       = trace r ++ [EvDealloc slot SLICE_STRUCT_SIZE SLICE_STRUCT_SIZE]
           ++ release_of inputSlice.
Proof.
  unfold bind.
  destruct (exports_orbit_dealloc_spec slot SLICE_STRUCT_SIZE
              SLICE_STRUCT_SIZE r) as (r1 & E1 & T1).
  rewrite E1.
  destruct (freeInput_spec inputSlice r1) as (r2 & E2 & T2).
  exists r2. split; [exact E2|]. rewrite T2, T1. now rewrite <- app_assoc.
Qed.

(** The [try] block of [invoke], from the state [rc] in which the
    entry-point call completed with [called]. *)
Lemma try_block_spec (call : Z -> Z -> Z -> M G Z)
  (inputSlice : OrbitSlice) (slot : Z) (r2 rc : Realm) (called : Completion Z) :
  call (ptr inputSlice) (len inputSlice) slot r2 = (called, rc) ->
  exists out r3 ev,
    (status <- call (ptr inputSlice) (len inputSlice) slot ;;
     resultSlice <- readSlice slot ;;
     payload <- copySlice resultSlice ;;
     freeBuffer X resultSlice ;;
     ret (status, payload)) r2 = (out, r3)
    /\ trace r3
       = trace rc ++ ev ++ result_release called (fst (readSlice slot rc))
    /\ deallocs ev = []
    /\ Forall sound_access ev
    /\ match called, fst (readSlice slot rc) with
       | Throw e, _ => out = Throw e
       | Normal _, Throw e => out = Throw e
       | Normal st, Normal resultSlice =>
           exists payload,
             out = Normal (st, payload)
             /\ fst (copySlice resultSlice (snd (readSlice slot rc)))
                = Normal payload
       end.
Proof.
  intros Hcall. unfold bind at 1. rewrite Hcall.
  destruct called as [st|e].
  2:{ exists (Throw e), rc, []. simpl. rewrite app_nil_r.
      repeat split; constructor. }
  unfold bind at 1.
  pose proof (readSlice_quiet slot rc) as (e1 & T1 & D1 & S1 & M1).
  destruct (readSlice slot rc) as [[rs|e] rr]; simpl in *.
  2:{ exists (Throw e), rr, e1. rewrite app_nil_r. repeat split; assumption. }
  unfold bind at 1.
  destruct (copySlice_quiet rs rr) as (payload & rp & Ec & e2 & T2 & D2 & S2 & M2).
  rewrite Ec. unfold bind at 1.
  destruct (freeBuffer_spec rs rp) as (rf & Ef & Tf). rewrite Ef.
  exists (Normal (st, payload)), rf, (e1 ++ e2). repeat split.
  - rewrite Tf, T2, T1. now rewrite !app_assoc.
  - rewrite deallocs_app, D1, D2. reflexivity.
  - apply Forall_app; split; assumption.
  - exists payload. split; reflexivity.
Qed.

(** The whole exchange once the result slot has been obtained. *)
Lemma invoke_exchange_entered (input : option Uint8Array)
  (call : Z -> Z -> Z -> M G Z) (r r1 r2 rc : Realm)
  (inputSlice : OrbitSlice) (slot : Z) (called : Completion Z) :
  writeInput X input r = (Normal inputSlice, r1) ->
  exports_orbit_alloc X SLICE_STRUCT_SIZE r1 = (Normal slot, r2) ->
  slot <> 0 ->
  call (ptr inputSlice) (len inputSlice) slot r2 = (called, rc) ->
  exists out r' ev,
    invoke_exchange X input call r = (out, r')
    /\ trace r'
       = trace rc ++ ev ++ result_release called (fst (readSlice slot rc))
           ++ [EvDealloc slot SLICE_STRUCT_SIZE SLICE_STRUCT_SIZE]
           ++ release_of inputSlice
    /\ deallocs ev = []
    /\ Forall sound_access ev
    /\ match called, fst (readSlice slot rc) with
       | Throw e, _ => out = Throw e
       | Normal _, Throw e => out = Throw e
       | Normal st, Normal resultSlice =>
           exists payload,
             out = Normal (st, payload)
             /\ fst (copySlice resultSlice (snd (readSlice slot rc)))
                = Normal payload
       end.
Proof.
  intros Hw Ha Hslot Hcall.
  unfold invoke_exchange. unfold bind at 1. rewrite Hw.
  unfold bind at 1. rewrite Ha.
  apply Z.eqb_neq in Hslot. rewrite Hslot.
  unfold try_finally.
  destruct (try_block_spec call inputSlice slot r2 rc called Hcall)
    as (out & r3 & ev & Eb & Tb & Db & Sb & Ob).
  rewrite Eb.
  destruct (finally_block_spec slot inputSlice r3) as (r4 & Ef & Tf).
  rewrite Ef.
  exists out, r4, ev. repeat split; try assumption.
  rewrite Tf, Tb. now rewrite <- !app_assoc.
Qed.

(** *** Soundness of accesses, compositionally *)

Lemma sound_ret {A} (a : A) : sound (@ret G A a).
Proof. intros r. exists []. simpl. rewrite app_nil_r. split; constructor. Qed.

Lemma sound_throw {A} (e : JsError) : sound (@throw G A e).
Proof. intros r. exists []. simpl. rewrite app_nil_r. split; constructor. Qed.

Lemma sound_of_completion {A} (c : Completion A) : sound (@of_completion G A c).
Proof. intros r. exists []. simpl. rewrite app_nil_r. split; constructor. Qed.

Lemma sound_bind {A B} (m : M G A) (k : A -> M G B) :
  sound m -> (forall a, sound (k a)) -> sound (bind m k).
Proof.
  intros Hm Hk r. unfold bind.
  destruct (Hm r) as (e1 & T1 & S1).
  destruct (m r) as [[a|e] r1]; simpl in *.
  - destruct (Hk a r1) as (e2 & T2 & S2).
    exists (e1 ++ e2). split.
    + rewrite T2, T1. now rewrite app_assoc.
    + apply Forall_app; split; assumption.
  - exists e1. split; assumption.
Qed.

Lemma sound_try_finally {A} (body : M G A) (fin : M G unit) :
  sound body -> sound fin -> sound (try_finally body fin).
Proof.
  intros Hb Hf r. unfold try_finally.
  destruct (Hb r) as (e1 & T1 & S1).
  destruct (body r) as [c r1]; simpl in *.
  destruct (Hf r1) as (e2 & T2 & S2).
  exists (e1 ++ e2). split.
  - destruct (fin r1) as [[u|e] r2]; simpl in *;
      rewrite T2, T1; now rewrite app_assoc.
  - apply Forall_app; split; assumption.
Qed.

Lemma sound_of_quiet {A} (m : M G A) :
  (forall r, quiet_step r (snd (m r))) -> sound m.
Proof.
  intros H r. destruct (H r) as (ev & T & _ & S & _). exists ev. now split.
Qed.

Lemma sound_alloc (size : Z) : sound (exports_orbit_alloc X size).
Proof.
  intros r. destruct (exports_orbit_alloc_spec size r) as (p & r' & E & T).
  rewrite E. simpl. eexists. split; [exact T|]. repeat constructor.
Qed.

Lemma sound_dealloc (p l c : Z) : sound (exports_orbit_dealloc X p l c).
Proof.
  intros r. destruct (exports_orbit_dealloc_spec p l c r) as (r' & E & T).
  rewrite E. simpl. eexists. split; [exact T|]. repeat constructor.
Qed.

Lemma sound_entry (name : string) (args : list Z)
  (f : WasmInstance G -> Completion Z * WasmInstance G) :
  sound (exports_entry name args f).
Proof.
  intros r. unfold exports_entry. rewrite run_export_trace. simpl.
  eexists. split; [reflexivity|]. repeat constructor.
Qed.

Lemma sound_if {A} (c : bool) (a b : M G A) :
  sound a -> sound b -> sound (if c then a else b).
Proof. destruct c; auto. Qed.

Lemma sound_readSlice (p : Z) : sound (@readSlice G p).
Proof. apply sound_of_quiet, readSlice_quiet. Qed.

Lemma sound_copySlice (s : OrbitSlice) : sound (@copySlice G s).
Proof.
  apply sound_of_quiet. intros r.
  destruct (copySlice_quiet s r) as (payload & r' & E & Q). now rewrite E.
Qed.

(** The write of [writeInput]: the view comes from [getUint8Memory]
    right before it is used. *)
Lemma sound_write {A} (content : list byte) (p : Z) (k : M G A) :
  sound k ->
  sound (view <- @getUint8Memory G ;; Uint8Array_set view content p ;; k).
Proof.
  intros Hk r. unfold bind at 1. rewrite getUint8Memory_eq.
  unfold bind, Uint8Array_set. simpl.
  destruct (p <? 0); simpl.
  - eexists. split; [reflexivity|]. repeat constructor.
  - rewrite Nat.eqb_refl. simpl.
    destruct (_ <? _); simpl.
    + eexists. split; [reflexivity|]. repeat constructor.
    + match goal with |- context [k ?r0] => destruct (Hk r0) as (ev & T & S) end.
      exists (EvAccess U8Set (memory_buffer r) (memory_buffer r) :: ev).
      split.
      * rewrite T. simpl. now rewrite <- app_assoc.
      * constructor; [reflexivity | exact S].
Qed.

Create HintDb sound discriminated.

#[local] Hint Resolve sound_ret sound_throw sound_of_completion sound_bind
  sound_try_finally sound_if sound_alloc sound_dealloc sound_entry
  sound_readSlice sound_copySlice sound_write : sound.

Lemma sound_freeInput (s : OrbitSlice) : sound (freeInput X s).
Proof. unfold freeInput. auto with sound. Qed.

Lemma sound_freeBuffer (s : OrbitSlice) : sound (freeBuffer X s).
Proof. unfold freeBuffer. auto with sound. Qed.

#[local] Hint Resolve sound_freeInput sound_freeBuffer : sound.

Lemma sound_writeInput (input : option Uint8Array) :
  sound (writeInput X input).
Proof.
  unfold writeInput. destruct input as [b|]; auto 10 with sound.
Qed.

#[local] Hint Resolve sound_writeInput : sound.

Lemma sound_invoke_exchange (input : option Uint8Array)
  (call : Z -> Z -> Z -> M G Z) :
  (forall a b c, sound (call a b c)) ->
  sound (invoke_exchange X input call).
Proof. intros Hcall. unfold invoke_exchange. auto 20 with sound. Qed.

Lemma sound_invoke {T} (input : option Uint8Array)
  (call : Z -> Z -> Z -> M G Z) (onOk : Uint8Array -> M G T) :
  (forall a b c, sound (call a b c)) ->
  (forall b, sound (onOk b)) ->
  sound (invoke P X input call onOk).
Proof.
  intros Hcall Hok. unfold invoke, invoke_result.
  pose proof (sound_invoke_exchange input call Hcall).
  auto 20 with sound.
Qed.

Lemma invoke_after_exchange {T} (input : option Uint8Array)
  (call : Z -> Z -> Z -> M G Z) (onOk : Uint8Array -> M G T)
  (r r' : Realm) (out : Completion (Z * Uint8Array)) :
  invoke_exchange X input call r = (out, r') ->
  invoke P X input call onOk r
  = match out with
    | Normal sp => invoke_result P onOk (fst sp) (snd sp) r'
    | Throw e => (Throw e, r')
    end.
Proof.
  intros E. unfold invoke, bind. rewrite E. destruct out; reflexivity.
Qed.

(** C1 (as amended).  Once the result slot has been obtained, [invoke]
    releases the result buffer exactly once, before the slot and the
    input buffer, when the entry-point call, the read of the result
    descriptor and the copy of the payload all complete (the copy always
    does here: [copySlice_quiet]) and the descriptor's pointer is not
    null.  When the call or the read raises, or the pointer is null, no
    release of a result buffer is performed: the only releases are those
    of the slot and of the input buffer. *)
Theorem invoke_releases_result_buffer {T} (input : option Uint8Array)
  (call : Z -> Z -> Z -> M G Z) (onOk : Uint8Array -> M G T)
  (r r1 r2 rc : Realm) (inputSlice : OrbitSlice) (slot : Z)
  (called : Completion Z) :
  writeInput X input r = (Normal inputSlice, r1) ->
  exports_orbit_alloc X SLICE_STRUCT_SIZE r1 = (Normal slot, r2) ->
  slot <> 0 ->
  call (ptr inputSlice) (len inputSlice) slot r2 = (called, rc) ->
  exists out r' suffix,
    invoke_exchange X input call r = (out, r')
    /\ invoke P X input call onOk r
       = match out with
         | Normal sp => invoke_result P onOk (fst sp) (snd sp) r'
         | Throw e => (Throw e, r')
         end
    /\ trace r' = trace rc ++ suffix
    /\ deallocs suffix
       = match called, fst (readSlice slot rc) with
         | Normal _, Normal resultSlice =>
             if ptr resultSlice =? 0 then []
             else [(ptr resultSlice, len resultSlice, cap resultSlice)]
         | _, _ => []
         end
         ++ [(slot, SLICE_STRUCT_SIZE, SLICE_STRUCT_SIZE)]
         ++ (if ptr inputSlice =? 0 then []
             else [(ptr inputSlice, len inputSlice, cap inputSlice)]).
Proof.
  intros Hw Ha Hslot Hcall.
  destruct (invoke_exchange_entered input call r r1 r2 rc inputSlice slot
              called Hw Ha Hslot Hcall)
    as (out & r' & ev & E & Tr & D & _ & _).
  exists out, r', (ev ++ result_release called (fst (readSlice slot rc))
                    ++ [EvDealloc slot SLICE_STRUCT_SIZE SLICE_STRUCT_SIZE]
                    ++ release_of inputSlice).
  split; [exact E|]. split; [now apply invoke_after_exchange|].
  split; [exact Tr|].
  rewrite !deallocs_app, D, deallocs_release_of. simpl.
  f_equal. unfold result_release.
  destruct called as [st|e]; [|reflexivity].
  destruct (fst (readSlice slot rc)) as [rs|e]; [|reflexivity].
  apply deallocs_release_of.
Qed.

(** What [writeInput] returns for a buffer that has bytes. *)
Lemma writeInput_normal (b : Uint8Array) (r r1 : Realm) (s : OrbitSlice) :
  u8_bytes b <> [] ->
  writeInput X (Some b) r = (Normal s, r1) ->
  ptr s <> 0
  /\ len s = byte_length (u8_bytes b) /\ cap s = byte_length (u8_bytes b).
Proof.
  intros Hne. unfold writeInput.
  destruct (byte_length (u8_bytes b) =? 0) eqn:E0.
  { apply Z.eqb_eq in E0. unfold byte_length in E0.
    destruct (u8_bytes b); [congruence | simpl in E0; lia]. }
  unfold bind at 1.
  destruct (exports_orbit_alloc_spec (byte_length (u8_bytes b)) r)
    as (p & ra & Ea & _). rewrite Ea.
  destruct (p =? 0) eqn:Ep; [discriminate|].
  unfold bind.
  destruct (getUint8Memory ra) as [[view|e] rb]; [|discriminate].
  destruct (Uint8Array_set view (u8_bytes b) p rb) as [[u|e] rc];
    [|discriminate].
  unfold ret. intros [= <- <-]. simpl.
  apply Z.eqb_neq in Ep. auto.
Qed.

(** What [writeInput] did when it threw: the allocator was asked for a
    block for the bytes, and either it returned the null pointer, or the
    block it returned does not lie inside the memory and the write into
    it failed.  Nothing is released in either case. *)
Lemma writeInput_throws (input : option Uint8Array) (r r1 : Realm)
  (e : JsError) :
  writeInput X input r = (Throw e, r1) ->
  exists b p ra,
    input = Some b
    /\ u8_bytes b <> []
    /\ exports_orbit_alloc X (byte_length (u8_bytes b)) r = (Normal p, ra)
    /\ ((p = 0
         /\ e = Error "orbit wasm could not allocate input buffer"
         /\ trace r1 = trace r ++ [EvAlloc (byte_length (u8_bytes b)) 0])
        \/ (p <> 0
            /\ (p < 0
                \/ byte_length (linear_memory (instance ra))
                   < p + byte_length (u8_bytes b))
            /\ e = RangeError "offset is out of bounds"
            /\ trace r1
               = trace r
                   ++ [EvAlloc (byte_length (u8_bytes b)) p;
                       EvAccess U8Set (memory_buffer ra) (memory_buffer ra)]
            /\ instance r1 = instance ra)).
Proof.
  unfold writeInput. destruct input as [b|]; [|discriminate].
  destruct (byte_length (u8_bytes b) =? 0) eqn:E0; [discriminate|].
  assert (Hne : u8_bytes b <> []).
  { intros Hb. rewrite Hb in E0. discriminate E0. }
  unfold bind at 1.
  destruct (exports_orbit_alloc_spec (byte_length (u8_bytes b)) r)
    as (p & ra & Ea & Ta). rewrite Ea.
  destruct (p =? 0) eqn:Ep.
  - apply Z.eqb_eq in Ep. subst p. intros [= <- <-].
    exists b, 0, ra. repeat (split; [assumption || reflexivity|]).
    left. auto.
  - apply Z.eqb_neq in Ep.
    unfold bind at 1. rewrite getUint8Memory_eq.
    unfold bind, Uint8Array_set. simpl.
    destruct (p <? 0) eqn:En.
    + intros [= <- <-]. exists b, p, ra.
      repeat (split; [assumption || reflexivity|]).
      right. split; [exact Ep|]. apply Z.ltb_lt in En.
      split; [left; exact En|]. split; [reflexivity|].
      simpl. split; [|reflexivity]. rewrite Ta. now rewrite <- app_assoc.
    + rewrite Nat.eqb_refl. simpl.
      destruct (byte_length (linear_memory (instance ra))
                <? p + byte_length (u8_bytes b)) eqn:Ef; [|discriminate].
      intros [= <- <-]. exists b, p, ra.
      repeat (split; [assumption || reflexivity|]).
      right. split; [exact Ep|]. apply Z.ltb_lt in Ef.
      split; [right; exact Ef|]. split; [reflexivity|].
      simpl. split; [|reflexivity]. rewrite Ta. now rewrite <- app_assoc.
Qed.

(** C2 (as amended).  Every call of [invoke] starts with [writeInput],
    and what is released depends on how that step completes.

    When [writeInput] returns the input descriptor: if the allocator
    returns 0 for the result slot, the input buffer is released and the
    fatal error is thrown; otherwise, however the entry-point call
    completes (status 0, another status, or an exception there or while
    reading the result), the exchange ends with the release of the
    12-byte slot followed by the release of the input buffer, before the
    result is decoded or the error propagates.

    When [writeInput] throws, [invoke] propagates that error and
    releases nothing: either the allocator returned the null pointer for
    the input, and there is nothing to release, or it returned a block
    that does not lie inside the memory, the write into it failed, and
    the block stays allocated. *)
Theorem invoke_releases_input_and_slot {T} (input : option Uint8Array)
  (call : Z -> Z -> Z -> M G Z) (onOk : Uint8Array -> M G T) (r : Realm) :
  exists written r1,
    writeInput X input r = (written, r1)
    /\ match written with
       | Normal inputSlice =>
           exists slot r2,
             exports_orbit_alloc X SLICE_STRUCT_SIZE r1 = (Normal slot, r2)
             /\ (forall b, input = Some b -> u8_bytes b <> [] ->
                   release_of inputSlice
                   = [EvDealloc (ptr inputSlice) (byte_length (u8_bytes b))
                                (byte_length (u8_bytes b))])
             /\ (slot = 0 ->
                 exists r',
                   invoke P X input call onOk r
                   = (Throw (Error "orbit wasm could not allocate result slice"),
                      r')
                   /\ trace r' = trace r2 ++ release_of inputSlice)
             /\ (slot <> 0 ->
                 forall called rc,
                   call (ptr inputSlice) (len inputSlice) slot r2
                   = (called, rc) ->
                   exists out r' before,
                     invoke_exchange X input call r = (out, r')
                     /\ invoke P X input call onOk r
                        = match out with
                          | Normal sp =>
                              invoke_result P onOk (fst sp) (snd sp) r'
                          | Throw e => (Throw e, r')
                          end
                     /\ trace r'
                        = trace rc ++ before
                            ++ [EvDealloc slot SLICE_STRUCT_SIZE
                                          SLICE_STRUCT_SIZE]
                            ++ release_of inputSlice)
       | Throw e =>
           invoke P X input call onOk r = (Throw e, r1)
           /\ exists b p ra,
                input = Some b
                /\ u8_bytes b <> []
                /\ exports_orbit_alloc X (byte_length (u8_bytes b)) r
                   = (Normal p, ra)
                /\ ((p = 0
                     /\ e = Error "orbit wasm could not allocate input buffer"
                     /\ trace r1
                        = trace r ++ [EvAlloc (byte_length (u8_bytes b)) 0])
                    \/ (p <> 0
                        /\ (p < 0
                            \/ byte_length (linear_memory (instance ra))
                               < p + byte_length (u8_bytes b))
                        /\ e = RangeError "offset is out of bounds"
                        /\ trace r1
                           = trace r
                               ++ [EvAlloc (byte_length (u8_bytes b)) p;
                                   EvAccess U8Set (memory_buffer ra)
                                            (memory_buffer ra)]
                        /\ instance r1 = instance ra))
       end.
Proof.
  destruct (writeInput X input r) as [written r1] eqn:Hw.
  exists written, r1. split; [reflexivity|].
  destruct written as [inputSlice|e].
  - destruct (exports_orbit_alloc_spec SLICE_STRUCT_SIZE r1)
      as (slot & r2 & Ha & _).
    exists slot, r2. split; [exact Ha|]. repeat split.
    + intros b -> Hne.
      destruct (writeInput_normal b r r1 inputSlice Hne Hw) as (Hp & Hl & Hc).
      unfold release_of. apply Z.eqb_neq in Hp. rewrite Hp, Hl, Hc.
      reflexivity.
    + intros ->.
      destruct (freeInput_spec inputSlice r2) as (r3 & Ef & Tf).
      exists r3. split; [|exact Tf].
      unfold invoke, invoke_exchange.
      unfold bind at 1. unfold bind at 1. rewrite Hw.
      unfold bind at 1. rewrite Ha. simpl.
      unfold bind at 1. rewrite Ef. reflexivity.
    + intros Hslot called rc Hcall.
      destruct (invoke_exchange_entered input call r r1 r2 rc inputSlice slot
                  called Hw Ha Hslot Hcall)
        as (out & r' & ev & E & Tr & _).
      exists out, r', (ev ++ result_release called (fst (readSlice slot rc))).
      split; [exact E|]. split; [now apply invoke_after_exchange|].
      rewrite Tr. now rewrite <- !app_assoc.
  - split; [|exact (writeInput_throws input r r1 e Hw)].
    unfold invoke, invoke_exchange.
    unfold bind at 1. unfold bind at 1. rewrite Hw. reflexivity.
Qed.

Lemma as_OrbitJsError_fields (v : JsonValue) (d : OrbitJsError) :
  as_OrbitJsError v = Some d ->
  get_property v "kind" = Normal (Some (JString (kind d)))
  /\ get_property v "message" = Normal (Some (JString (message d))).
Proof.
  destruct v as [| | | | |members]; try discriminate. simpl.
  destruct (own_property members "kind") as [[| | |k| |]|]; try discriminate.
  destruct (own_property members "message") as [[| | |m| |]|];
    try discriminate.
  destruct (own_property members "span") as [[| | | | |sp]|];
    try discriminate.
  destruct (own_property sp "start") as [[| |st| | |]|]; try discriminate.
  destruct (own_property sp "end") as [[| |en| | |]|]; try discriminate.
  intros [= <-]. simpl. split; reflexivity.
Qed.

(** The exchange of a call whose entry point returned [st] and whose
    result descriptor could be read. *)
Lemma invoke_exchange_completed (input : option Uint8Array)
  (call : Z -> Z -> Z -> M G Z) (r r1 r2 rc rr rp : Realm)
  (inputSlice resultSlice : OrbitSlice) (slot st : Z)
  (payload : Uint8Array) :
  writeInput X input r = (Normal inputSlice, r1) ->
  exports_orbit_alloc X SLICE_STRUCT_SIZE r1 = (Normal slot, r2) ->
  slot <> 0 ->
  call (ptr inputSlice) (len inputSlice) slot r2 = (Normal st, rc) ->
  readSlice slot rc = (Normal resultSlice, rr) ->
  copySlice resultSlice rr = (Normal payload, rp) ->
  exists r', invoke_exchange X input call r = (Normal (st, payload), r').
Proof.
  intros Hw Ha Hslot Hcall Hread Hcopy.
  destruct (invoke_exchange_entered input call r r1 r2 rc inputSlice slot
              (Normal st) Hw Ha Hslot Hcall)
    as (out & r' & ev & E & _ & _ & _ & O).
  rewrite Hread in O. simpl in O. rewrite Hcopy in O. simpl in O.
  destruct O as (payload' & -> & [= <-]).
  exists r'. exact E.
Qed.

(** C3.  For a call whose entry point returned [st] and whose result
    descriptor was read and copied into [payload]: when [st] is 0 the
    result of [invoke] is what the supplied decoder makes of the payload;
    when [st] is not 0 and the payload parses to a value of the
    structured error shape, [invoke] throws an [OrbitError] whose detail
    is that value (so its kind, message and span are the decoded ones)
    and whose message is the kind, a colon and a space, and the
    message. *)
Theorem invoke_maps_status {T} (input : option Uint8Array)
  (call : Z -> Z -> Z -> M G Z) (onOk : Uint8Array -> M G T)
  (r r1 r2 rc rr rp : Realm) (inputSlice resultSlice : OrbitSlice)
  (slot st : Z) (payload : Uint8Array) :
  writeInput X input r = (Normal inputSlice, r1) ->
  exports_orbit_alloc X SLICE_STRUCT_SIZE r1 = (Normal slot, r2) ->
  slot <> 0 ->
  call (ptr inputSlice) (len inputSlice) slot r2 = (Normal st, rc) ->
  readSlice slot rc = (Normal resultSlice, rr) ->
  copySlice resultSlice rr = (Normal payload, rp) ->
  exists r',
    invoke_exchange X input call r = (Normal (st, payload), r')
    /\ (st = 0 -> invoke P X input call onOk r = onOk payload r')
    /\ (st <> 0 ->
        forall v d,
          JSON_parse P (bytesToString P payload) = Some v ->
          as_OrbitJsError v = Some d ->
          invoke P X input call onOk r
          = (Throw (OrbitError v (kind d +:+ ": " +:+ message d)
                               ("Orbit" +:+ kind d +:+ "Error")), r')).
Proof.
  intros Hw Ha Hslot Hcall Hread Hcopy.
  destruct (invoke_exchange_completed input call r r1 r2 rc rr rp inputSlice
              resultSlice slot st payload Hw Ha Hslot Hcall Hread Hcopy)
    as (r' & E).
  exists r'. split; [exact E|].
  rewrite (invoke_after_exchange input call onOk r r' _ E). simpl.
  unfold invoke_result. split.
  - intros ->. reflexivity.
  - intros Hst v d Hparse Hshape. apply Z.eqb_neq in Hst.
    unfold STATUS_OK. rewrite Hst.
    destruct (as_OrbitJsError_fields v d Hshape) as (Hk & Hm).
    unfold bind, of_completion, bytesToJson, new_OrbitError, throw.
    rewrite Hparse, Hk, Hm. reflexivity.
Qed.

(** C4 (as amended).  For a call whose entry point returned a status
    other than 0: when the payload is not JSON text ([JSON.parse]
    throws, as it does on an empty payload), [invoke] propagates that
    [SyntaxError], which is not an [OrbitError]; when the payload is the
    JSON text [null], constructing the error throws a [TypeError].  In
    both cases the failure is not reported as a core error. *)
Theorem invoke_malformed_payload {T} (input : option Uint8Array)
  (call : Z -> Z -> Z -> M G Z) (onOk : Uint8Array -> M G T)
  (r r1 r2 rc rr rp : Realm) (inputSlice resultSlice : OrbitSlice)
  (slot st : Z) (payload : Uint8Array) :
  writeInput X input r = (Normal inputSlice, r1) ->
  exports_orbit_alloc X SLICE_STRUCT_SIZE r1 = (Normal slot, r2) ->
  slot <> 0 ->
  call (ptr inputSlice) (len inputSlice) slot r2 = (Normal st, rc) ->
  readSlice slot rc = (Normal resultSlice, rr) ->
  copySlice resultSlice rr = (Normal payload, rp) ->
  st <> 0 ->
  JSON_parse P (bytesToString P payload) = None
  \/ JSON_parse P (bytesToString P payload) = Some JNull ->
  exists e r',
    invoke P X input call onOk r = (Throw e, r')
    /\ is_OrbitError e = false.
Proof.
  intros Hw Ha Hslot Hcall Hread Hcopy Hst Hparse.
  destruct (invoke_exchange_completed input call r r1 r2 rc rr rp inputSlice
              resultSlice slot st payload Hw Ha Hslot Hcall Hread Hcopy)
    as (r' & E).
  rewrite (invoke_after_exchange input call onOk r r' _ E). simpl.
  unfold invoke_result. apply Z.eqb_neq in Hst. unfold STATUS_OK.
  rewrite Hst. unfold bind, of_completion, bytesToJson.
  destruct Hparse as [-> | ->]; simpl; eexists _, r'; split; reflexivity.
Qed.

(** *** The invariant on buffer identities *)

Lemma keeps_ret {A} (I : Realm -> Prop) (a : A) : keeps I (@ret G A a).
Proof. intros r H. exact H. Qed.

Lemma keeps_throw {A} (I : Realm -> Prop) (e : JsError) :
  keeps I (@throw G A e).
Proof. intros r H. exact H. Qed.

Lemma keeps_of_completion {A} (I : Realm -> Prop) (c : Completion A) :
  keeps I (@of_completion G A c).
Proof. intros r H. exact H. Qed.

Lemma keeps_bind {A B} (I : Realm -> Prop) (m : M G A) (k : A -> M G B) :
  keeps I m -> (forall a, keeps I (k a)) -> keeps I (bind m k).
Proof.
  intros Hm Hk r H. unfold bind. specialize (Hm r H).
  destruct (m r) as [[a|e] r1]; simpl in *; [now apply Hk | exact Hm].
Qed.

Lemma keeps_try_finally {A} (I : Realm -> Prop) (body : M G A)
  (fin : M G unit) :
  keeps I body -> keeps I fin -> keeps I (try_finally body fin).
Proof.
  intros Hb Hf r H. unfold try_finally. specialize (Hb r H).
  destruct (body r) as [c r1]; simpl in *. specialize (Hf r1 Hb).
  destruct (fin r1) as [[u|e] r2]; exact Hf.
Qed.

Lemma run_export_known {A} (f : WasmInstance G -> A * WasmInstance G)
  (r : Realm) :
  buffers_known r -> buffers_known (snd (run_export f r)).
Proof.
  unfold buffers_known, run_export. intros H.
  destruct (f (instance r)) as [a w']. destruct (Nat.eqb _ _); simpl; lia.
Qed.

Lemma known_alloc (size : Z) :
  keeps buffers_known (exports_orbit_alloc X size).
Proof.
  intros r H. unfold exports_orbit_alloc.
  pose proof (run_export_known (orbit_alloc X size) r H) as K.
  destruct (run_export _ r) as [p r1]. exact K.
Qed.

Lemma known_dealloc (p l c : Z) :
  keeps buffers_known (exports_orbit_dealloc X p l c).
Proof.
  intros r H. unfold exports_orbit_dealloc.
  pose proof (run_export_known (fun w => (tt, orbit_dealloc X p l c w)) r H)
    as K.
  destruct (run_export _ r) as [u r1]. exact K.
Qed.

Lemma known_entry (name : string) (args : list Z)
  (f : WasmInstance G -> Completion Z * WasmInstance G) :
  keeps buffers_known (exports_entry name args f).
Proof.
  intros r H. unfold exports_entry.
  apply (run_export_known f (log (EvEntry name args) r)). exact H.
Qed.

Lemma known_fresh (content : list byte) :
  keeps buffers_known (@fresh_Uint8Array G content).
Proof. intros r H. unfold buffers_known in *. simpl. lia. Qed.

Lemma keeps_if {A} (I : Realm -> Prop) (c : bool) (a b : M G A) :
  keeps I a -> keeps I b -> keeps I (if c then a else b).
Proof. destruct c; auto. Qed.

Lemma known_write {A} (content : list byte) (p : Z) (k : M G A) :
  keeps buffers_known k ->
  keeps buffers_known
    (view <- @getUint8Memory G ;; Uint8Array_set view content p ;; k).
Proof.
  intros Hk r H. unfold bind at 1. rewrite getUint8Memory_eq.
  unfold bind, Uint8Array_set. simpl.
  destruct (p <? 0); [exact H|].
  rewrite Nat.eqb_refl. simpl.
  destruct (_ <? _); [exact H|]. apply Hk. exact H.
Qed.

Lemma readSlice_next (p : Z) (r : Realm) :
  next_buffer (snd (readSlice p r)) = next_buffer r.
Proof.
  unfold readSlice, bind. rewrite getDataView_eq.
  set (r1 := set_cachedView (Some (memory_buffer r)) r).
  destruct (DataView_getUint32_current (memory_buffer r) p r1 eq_refl)
    as [c0 E0]. rewrite E0. destruct c0 as [p0|e]; [|reflexivity].
  set (r2 := log _ r1).
  destruct (DataView_getUint32_current (memory_buffer r) (p + 4) r2 eq_refl)
    as [c1 E1]. rewrite E1. destruct c1 as [l0|e]; [|reflexivity].
  set (r3 := log _ r2).
  destruct (DataView_getUint32_current (memory_buffer r) (p + 8) r3 eq_refl)
    as [c2 E2]. rewrite E2. destruct c2 as [c0|e]; reflexivity.
Qed.

Lemma known_readSlice (p : Z) : keeps buffers_known (@readSlice G p).
Proof.
  intros r H. destruct (readSlice_quiet p r) as (ev & _ & _ & _ & Hm).
  pose proof (readSlice_next p r). unfold buffers_known in *. lia.
Qed.

Lemma known_copySlice (s : OrbitSlice) : keeps buffers_known (@copySlice G s).
Proof.
  intros r H. unfold copySlice. destruct (len s =? 0).
  - now apply known_fresh.
  - unfold bind. rewrite getUint8Memory_eq.
    unfold Uint8Array_slice. simpl. rewrite Nat.eqb_refl. simpl.
    unfold buffers_known in *. simpl. lia.
Qed.

Create HintDb known discriminated.

#[local] Hint Resolve keeps_ret keeps_throw keeps_of_completion keeps_bind
  keeps_try_finally keeps_if known_alloc known_dealloc known_entry
  known_fresh known_write known_readSlice known_copySlice : known.

Lemma known_freeInput (s : OrbitSlice) : keeps buffers_known (freeInput X s).
Proof. unfold freeInput. auto with known. Qed.

Lemma known_freeBuffer (s : OrbitSlice) : keeps buffers_known (freeBuffer X s).
Proof. unfold freeBuffer. auto with known. Qed.

Lemma known_writeInput (input : option Uint8Array) :
  keeps buffers_known (writeInput X input).
Proof.
  unfold writeInput. destruct input as [b|]; auto 10 with known.
Qed.

#[local] Hint Resolve known_freeInput known_freeBuffer known_writeInput
  : known.

(** Every boundary call keeps the memory's buffer apart from the
    buffers the host will create. *)
Lemma known_invoke {T} (input : option Uint8Array)
  (call : Z -> Z -> Z -> M G Z) (onOk : Uint8Array -> M G T) :
  (forall a b c, keeps buffers_known (call a b c)) ->
  (forall b, keeps buffers_known (onOk b)) ->
  keeps buffers_known (invoke P X input call onOk).
Proof.
  intros Hcall Hok. unfold invoke, invoke_exchange, invoke_result.
  auto 30 with known.
Qed.

Lemma new_realm_known (w : WasmInstance G) : buffers_known (new_realm w).
Proof. unfold buffers_known. simpl. lia. Qed.

Lemma store_bytes_read (mem content : list byte) (off : Z) :
  (Z.to_nat off + length content <= length mem)%nat ->
  take (length content) (drop (Z.to_nat off) (store_bytes mem content off))
  = content.
Proof.
  intros H. unfold store_bytes.
  rewrite drop_app_length' by (rewrite length_take_le; lia).
  apply take_app_length.
Qed.

Lemma store_bytes_length (mem content : list byte) (off : Z) :
  (Z.to_nat off + length content <= length mem)%nat ->
  length (store_bytes mem content off) = length mem.
Proof.
  intros H. unfold store_bytes.
  rewrite !length_app, length_take_le, length_drop by lia. lia.
Qed.

(** C8.  [writeInput] yields the zero descriptor for an absent or empty
    buffer and leaves the realm as it is (no allocator call).  For a
    buffer of [n > 0] bytes for which the allocator returns a non-null
    pointer [p] with [p + n] inside the memory, it calls the allocator
    with [n], writes the bytes at [p] and yields the descriptor
    [(p, n, n)].  [copySlice] yields an empty array without touching the
    memory for a descriptor of length 0; for a descriptor inside the
    memory it yields an array holding the referenced bytes; in every
    case the array is backed by a new buffer, which is not the memory's
    buffer. *)
Theorem slice_codec (r : Realm) :
  writeInput X None r = (Normal (mkSlice 0 0 0), r)
  /\ (forall b, u8_bytes b = [] ->
      writeInput X (Some b) r = (Normal (mkSlice 0 0 0), r))
  /\ (forall b p r1,
      u8_bytes b <> [] ->
      exports_orbit_alloc X (byte_length (u8_bytes b)) r = (Normal p, r1) ->
      0 < p ->
      p + byte_length (u8_bytes b)
        <= byte_length (linear_memory (instance r1)) ->
      exists r',
        writeInput X (Some b) r
        = (Normal (mkSlice p (byte_length (u8_bytes b))
                           (byte_length (u8_bytes b))), r')
        /\ trace r'
           = trace r ++ [EvAlloc (byte_length (u8_bytes b)) p;
                         EvAccess U8Set (memory_buffer r1) (memory_buffer r1)]
        /\ take (length (u8_bytes b))
                (drop (Z.to_nat p) (linear_memory (instance r')))
           = u8_bytes b
        /\ length (linear_memory (instance r'))
           = length (linear_memory (instance r1)))
  /\ (forall s,
      len s = 0 ->
      exists a r',
        copySlice s r = (Normal a, r')
        /\ u8_bytes a = [] /\ trace r' = trace r
        /\ instance r' = instance r)
  /\ (forall s,
      len s <> 0 ->
      exists a r',
        copySlice s r = (Normal a, r')
        /\ (0 <= ptr s -> 0 <= len s ->
            ptr s + len s <= byte_length (linear_memory (instance r)) ->
            u8_bytes a
            = take (Z.to_nat (len s))
                   (drop (Z.to_nat (ptr s)) (linear_memory (instance r))))
        /\ u8_buffer a = next_buffer r
        /\ (buffers_known r -> u8_buffer a <> memory_buffer r')
        /\ instance r' = instance r
        /\ trace r'
           = trace r ++ [EvAccess U8Slice (memory_buffer r) (memory_buffer r)]).
Proof.
  split; [reflexivity|]. split.
  { intros b Hb. unfold writeInput. rewrite Hb. reflexivity. }
  split.
  { intros b p r1 Hne Ha Hp Hfit. unfold writeInput.
    assert (Hn : (byte_length (u8_bytes b) =? 0) = false).
    { apply Z.eqb_neq. unfold byte_length.
      destruct (u8_bytes b); [congruence | simpl; lia]. }
    rewrite Hn. unfold bind at 1. rewrite Ha.
    assert (Hp0 : (p =? 0) = false) by (apply Z.eqb_neq; lia). rewrite Hp0.
    unfold bind at 1. rewrite getUint8Memory_eq.
    unfold bind, Uint8Array_set. simpl.
    assert (Hneg : (p <? 0) = false) by (apply Z.ltb_ge; lia).
    assert (Hin : (byte_length (linear_memory (instance r1))
                   <? p + byte_length (u8_bytes b)) = false)
      by (apply Z.ltb_ge; lia).
    rewrite Hneg, Nat.eqb_refl. simpl. rewrite Hin. simpl.
    destruct (exports_orbit_alloc_spec (byte_length (u8_bytes b)) r)
      as (p' & r1' & Ea' & Ta). rewrite Ha in Ea'.
    injection Ea' as <- <-.
    unfold byte_length in Hfit.
    eexists. split; [reflexivity|]. simpl. repeat split.
    - rewrite Ta. now rewrite <- app_assoc.
    - apply store_bytes_read. lia.
    - apply store_bytes_length. lia. }
  split.
  { intros s Hl. unfold copySlice. rewrite Hl. simpl.
    eexists _, _. repeat split. }
  intros s Hl. unfold copySlice.
  apply Z.eqb_neq in Hl. rewrite Hl.
  unfold bind. rewrite getUint8Memory_eq.
  unfold Uint8Array_slice. simpl. rewrite Nat.eqb_refl. simpl.
  eexists _, _. split; [reflexivity|]. simpl.
  split; [|repeat split; unfold buffers_known; lia].
  intros Hp Hlen Hfit. unfold clamp_index.
  assert (H1 : (ptr s <? 0) = false) by (apply Z.ltb_ge; lia).
  assert (H2 : (ptr s + len s <? 0) = false) by (apply Z.ltb_ge; lia).
  rewrite H1, H2.
  rewrite !Z.min_l by lia.
  replace (Z.max (ptr s + len s - ptr s) 0) with (len s) by lia.
  reflexivity.
Qed.

Lemma sound_encodeString (value : string) : sound (@encodeString G P value).
Proof.
  unfold encodeString. apply sound_if; [auto with sound|].
  apply sound_bind; [|auto with sound].
  intros r. exists []. simpl. rewrite app_nil_r. split; constructor.
Qed.

Lemma sound_fs_existsSync (fs : NodeFs) (target : FsTarget) :
  sound (@fs_existsSync G fs target).
Proof.
  intros r. eexists. split; [reflexivity|]. repeat constructor.
Qed.

Lemma sound_fs_readFileSync (fs : NodeFs) (target : FsTarget)
  (enc : string) :
  sound (@fs_readFileSync G fs target enc).
Proof.
  intros r. eexists. split; [reflexivity|]. repeat constructor.
Qed.

Lemma sound_catch_null (body : M G (option string)) :
  sound body -> sound (catch_null body).
Proof.
  intros Hb r. unfold catch_null. destruct (Hb r) as (ev & T & S).
  destruct (body r) as [[v|e] r1]; exists ev; split; assumption.
Qed.

#[local] Hint Resolve sound_encodeString sound_fs_existsSync
  sound_fs_readFileSync sound_catch_null : sound.

Lemma sound_tryLoadFileInput (path : string) (enc : option string) :
  sound (@tryLoadFileInput G P path enc).
Proof.
  unfold tryLoadFileInput. destruct (nodeFs P) as [fs|]; [|auto with sound].
  apply sound_if; [auto with sound|].
  apply sound_catch_null, sound_bind; [|auto 10 with sound].
  apply sound_if; [destruct (URL_new P _)|]; auto with sound.
Qed.

#[local] Hint Resolve sound_tryLoadFileInput : sound.

Lemma sound_resolveEvaluateInput (input : OrbitEvaluateInput) :
  sound (@resolveEvaluateInput G P input).
Proof.
  unfold resolveEvaluateInput. destruct input as [s|o]; [auto with sound|].
  destruct (source o); [auto with sound|].
  apply sound_if; [|auto with sound].
  apply sound_bind; [auto with sound|]. intros [text|]; [auto with sound|].
  destruct (nodeFs P); auto with sound.
Qed.

#[local] Hint Resolve sound_resolveEvaluateInput sound_invoke : sound.

(** C9.  The two getters return a view over the memory's current buffer
    and leave it in the cache, whatever the cache held; and every access
    to memory made by a public operation goes through a view over the
    buffer that is current at the time of the access. *)
Theorem memory_views_are_current :
  (forall r : Realm,
     getUint8Memory r
     = (Normal (memory_buffer r), set_cachedU8 (Some (memory_buffer r)) r))
  /\ (forall r : Realm,
      getDataView r
      = (Normal (memory_buffer r),
         set_cachedView (Some (memory_buffer r)) r))
  /\ sound (version P X)
  /\ (forall src, sound (parse P X src))
  /\ (forall src, sound (parseWithRecovery P X src))
  /\ (forall input, sound (evaluate P X input))
  /\ (forall ast, sound (evaluateAst P X ast))
  /\ (forall value pretty, sound (valueToJson P X value pretty))
  /\ (forall value, sound (valueToYaml P X value))
  /\ (forall value, sound (valueToMsgpack P X value)).
Proof.
  split; [exact getUint8Memory_eq|]. split; [exact getDataView_eq|].
  unfold version, parse, parseWithRecovery, evaluate, evaluateAst,
    valueToJson, valueToYaml, valueToMsgpack, decode_string, decode_json.
  repeat split; intros; auto 10 with sound.
Qed.

(** [tryLoadFileInput] catches every error: it yields text or [null]. *)
Lemma tryLoadFileInput_total (path : string) (enc : option string)
  (r : Realm) :
  exists c r', tryLoadFileInput P path enc r = (Normal c, r').
Proof.
  unfold tryLoadFileInput.
  destruct (nodeFs P) as [fs|]; [|eexists _, _; reflexivity].
  destruct (_ =? _)%nat; [eexists _, _; reflexivity|].
  unfold catch_null.
  match goal with
  | |- context [match ?m r with _ => _ end] => destruct (m r) as [[c|e] r1]
  end; eexists _, _; reflexivity.
Qed.

(** It yields text only when the file system is there, the target
    exists and reading it succeeds. *)
Lemma tryLoadFileInput_some (path : string) (enc : option string)
  (r r' : Realm) (text : string) :
  tryLoadFileInput P path enc r = (Normal (Some text), r') ->
  exists fs target,
    nodeFs P = Some fs
    /\ existsSync fs target = true
    /\ readFileSync fs target (default "utf8" enc) = Normal text.
Proof.
  unfold tryLoadFileInput.
  destruct (nodeFs P) as [fs|]; [|discriminate].
  destruct (_ =? _)%nat; [discriminate|].
  unfold catch_null, bind.
  destruct (String.prefix "file:" (String_trim P path)).
  - destruct (URL_new P (String_trim P path)) as [u|];
      cbv [ret throw]; [|discriminate].
    unfold fs_existsSync.
    destruct (existsSync fs (UrlTarget u)) eqn:Ee; simpl; [|discriminate].
    unfold fs_readFileSync.
    destruct (readFileSync fs (UrlTarget u) (default "utf8" enc)) eqn:Er;
      simpl; [|discriminate].
    intros [= <- _]. exists fs, (UrlTarget u). auto.
  - cbv [ret]. unfold fs_existsSync.
    destruct (existsSync fs (PathTarget _)) eqn:Ee; simpl; [|discriminate].
    unfold fs_readFileSync.
    destruct (readFileSync fs (PathTarget _) (default "utf8" enc)) eqn:Er;
      simpl; [|discriminate].
    intros [= <- _]. eexists fs, _. eauto.
Qed.

(** C5 (as amended).  For [evaluate] called with an options object: a
    [source] string is the effective source and the file system is not
    probed, whatever [filePath] is; otherwise a non-empty [filePath]
    whose contents cannot be obtained (file missing, read error, or no
    file system) makes [evaluate] throw a host [Error] instead of
    falling back; and with neither [source] nor [filePath] it throws the
    argument-shape [TypeError]. *)
Theorem evaluate_options_resolution (o : OrbitEvaluateOptions) (r : Realm) :
  (forall src,
     source o = Some src ->
     resolveEvaluateInput P (InputOptions o) r = (Normal src, r)
     /\ evaluate P X (InputOptions o) r
        = evaluate P X (InputOptions (mkOptions None (Some src) None)) r)
  /\ (forall p r',
      source o = None ->
      filePath o = Some p ->
      p <> EmptyString ->
      tryLoadFileInput P p (encoding o) r = (Normal None, r') ->
      exists msg,
        evaluate P X (InputOptions o) r = (Throw (Error msg), r'))
  /\ (forall p,
      source o = None ->
      filePath o = Some p ->
      p <> EmptyString ->
      forall text r',
        tryLoadFileInput P p (encoding o) r = (Normal (Some text), r') ->
        exists fs target,
          nodeFs P = Some fs
          /\ existsSync fs target = true
          /\ readFileSync fs target (default "utf8" (encoding o))
             = Normal text)
  /\ (source o = None ->
      filePath o = None ->
      evaluate P X (InputOptions o) r
      = (Throw (TypeError
           "orbit.evaluate requires a source string or options with filePath."),
         r)).
Proof.
  split; [|split; [|split]].
  - intros src Hsrc. split.
    + unfold resolveEvaluateInput. rewrite Hsrc. reflexivity.
    + unfold evaluate, bind at 1, resolveEvaluateInput. rewrite Hsrc.
      reflexivity.
  - intros p r' Hs Hf Hp Hl.
    unfold evaluate, bind at 1, resolveEvaluateInput.
    rewrite Hs, Hf. destruct p as [|c p]; [congruence|]. simpl.
    unfold bind at 1. rewrite Hl.
    destruct (nodeFs P); eexists; reflexivity.
  - intros p _ _ _ text r' Hl. eapply tryLoadFileInput_some. exact Hl.
  - intros Hs Hf.
    unfold evaluate, bind at 1, resolveEvaluateInput.
    rewrite Hs, Hf. reflexivity.
Qed.

(** C10.  With an options object whose [filePath] is the empty string
    and which has no [source], [evaluate] throws the argument-shape
    [TypeError] without touching the file system or the module, exactly
    as it does when [filePath] is absent, on every platform. *)
Theorem evaluate_empty_filePath (enc : option string) (r : Realm) :
  evaluate P X (InputOptions (mkOptions (Some EmptyString) None enc)) r
  = (Throw (TypeError
       "orbit.evaluate requires a source string or options with filePath."),
     r)
  /\ evaluate P X (InputOptions (mkOptions (Some EmptyString) None enc)) r
     = evaluate P X (InputOptions (mkOptions None None enc)) r.
Proof. split; reflexivity. Qed.

End Facts.

(** ** Instantiation *)

Section InstantiationFacts.

Context {Imports WasmModule : Type}.
Context (P : Platform) (L : Loader Imports WasmModule).

(** C7.  [instantiateOrbit] obtains the instance from the one source the
    ordered decision selects: the hook if present; otherwise the
    precompiled module; otherwise the raw bytes; otherwise the bytes
    loaded from the configured or default location.  The fields that
    come later in this order do not influence the result. *)
Theorem instantiateOrbit_precedence
  (options : option (OrbitInitOptions Imports WasmModule)) :
  instantiateOrbit P L options
  = instantiate_from P L (resolve_source options) (imports_of L options)
  /\ (forall b m u hook i,
      instantiateOrbit P L (Some (mkInitOptions b m u (Some hook) i))
      = hook (default (empty_imports L) i))
  /\ (forall b m u i,
      instantiateOrbit P L (Some (mkInitOptions b (Some m) u None i))
      = WebAssembly_instantiate_module L m (default (empty_imports L) i))
  /\ (forall b u i,
      instantiateOrbit P L (Some (mkInitOptions (Some b) None u None i))
      = instantiateOrbit P L (Some (mkInitOptions (Some b) None None None i)))
  /\ (forall u i,
      instantiateOrbit P L (Some (mkInitOptions None None u None i))
      = cbind (loadWasmBytes P L u)
          (fun bytes =>
             cbind (WebAssembly_instantiate_bytes L bytes
                      (default (empty_imports L) i))
               (fun result => Normal (instance_of result)))).
Proof.
  split.
  - unfold instantiateOrbit, resolve_source, imports_of, instantiate_from.
    destruct options as [o|]; simpl; [|reflexivity].
    destruct (instantiate o); [reflexivity|].
    destruct (module o); [reflexivity|].
    destruct (binary o); reflexivity.
  - repeat split; reflexivity.
Qed.

Lemma check_required_missing (keys : list string)
  (e : gmap string ExportValue) (key : string) :
  In key keys -> e !! key = None ->
  exists msg, check_required keys e = Throw (Error msg).
Proof.
  induction keys as [|k rest IH]; intros Hin Hmiss; [destruct Hin|].
  simpl. destruct (e !! k) eqn:Ek.
  - destruct Hin as [-> | Hin]; [congruence|]. now apply IH.
  - eexists. reflexivity.
Qed.

Lemma validateExports_throws_Error (e : gmap string ExportValue) :
  forall err, validateExports e = Throw err -> exists msg, err = Error msg.
Proof.
  intros err. unfold validateExports, cbind.
  assert (Hc : forall keys err', check_required keys e = Throw err' ->
                                 exists msg, err' = Error msg).
  { induction keys as [|k rest IH]; simpl; intros err'; [discriminate|].
    destruct (e !! k); [apply IH|]. intros [= <-]. eexists. reflexivity. }
  destruct (check_required required e) as [[]|err0] eqn:E.
  - destruct (e !! "memory") as [[]|]; try discriminate;
      intros [= <-]; eexists; reflexivity.
  - intros [= <-]. eapply Hc. exact E.
Qed.

(** C6.  When the instance obtained by [instantiateOrbit] lacks one of
    the required exports, or its [memory] export is not a memory,
    [createOrbit] throws an [Error] and creates no [OrbitCore]; and
    whenever [createOrbit] does create an [OrbitCore], every required
    export is present and [memory] is a memory. *)
Theorem createOrbit_validates
  (options : option (OrbitInitOptions Imports WasmModule)) (inst : Instance) :
  instantiateOrbit P L options = Normal inst ->
  ((exists key, In key required /\ exports inst !! key = None)
   \/ exports inst !! "memory" <> Some ExportMemory ->
   exists msg, createOrbit P L options = Throw (Error msg))
  /\ (forall core,
      createOrbit P L options = Normal core ->
      (forall key, In key required -> is_Some (exports inst !! key))
      /\ exports inst !! "memory" = Some ExportMemory
      /\ core = mkOrbitCore (exports inst) None None).
Proof.
  intros Hi. unfold createOrbit. rewrite Hi. simpl. split.
  - intros Hbad.
    destruct (validateExports (exports inst)) as [[]|err] eqn:Ev.
    + exfalso. unfold validateExports, cbind in Ev.
      destruct (check_required required (exports inst)) as [[]|e0] eqn:Ec;
        [|discriminate].
      destruct Hbad as [(key & Hin & Hmiss) | Hmem].
      * destruct (check_required_missing required (exports inst) key Hin Hmiss)
          as (msg & Hm). congruence.
      * destruct (exports inst !! "memory") as [[]|]; try discriminate.
        now apply Hmem.
    + destruct (validateExports_throws_Error _ _ Ev) as (msg & ->).
      simpl. eexists. reflexivity.
  - intros core.
    destruct (validateExports (exports inst)) as [[]|err] eqn:Ev;
      simpl; [|discriminate].
    intros [= <-].
    unfold validateExports, cbind in Ev.
    destruct (check_required required (exports inst)) as [[]|e0] eqn:Ec;
      [|discriminate].
    repeat split.
    + intros key Hin.
      destruct (exports inst !! key) eqn:Ek; [eauto|].
      destruct (check_required_missing required (exports inst) key Hin Ek)
        as (msg & Hm). congruence.
    + destruct (exports inst !! "memory") as [[]|]; try discriminate.
      reflexivity.
Qed.

End InstantiationFacts.

(** ** The theorems on concrete runs *)

Section Runs.

Import Demo.

(** C1 fails as stated.  The entry point stores its result descriptor
    [(25, 5, 5)] in the slot and then traps: [invoke] propagates the
    trap having released the slot and the input buffer only, and the
    result buffer stays allocated in the core. *)
Lemma result_buffer_leaks_when_entry_traps :
  fst (parse_run trapping 64) = Throw (RuntimeError "unreachable")
  /\ fst (readSlice 13 (snd (parse_run trapping 64)))
     = Normal (mkSlice 25 5 5)
  /\ deallocs (trace (snd (parse_run trapping 64)))
     = [(13, 12, 12); (8, 5, 5)]
  /\ live (globals (instance (snd (parse_run trapping 64)))) = [(25, 5)].
Proof. vm_compute. repeat split; reflexivity. Qed.

(** A rejected parse: the releases after the entry point returned are
    those of the result buffer, the slot and the input buffer, each
    once. *)
Lemma invoke_releases_result_buffer_witness :
  writeInput rejecting (Some app_source) (ready 160)
  = (Normal (mkSlice 8 5 5), after_write rejecting 160)
  /\ exports_orbit_alloc rejecting SLICE_STRUCT_SIZE (after_write rejecting 160)
     = (Normal 13, after_slot rejecting 160)
  /\ call_parse rejecting 8 5 13 (after_slot rejecting 160)
     = (Normal 1, after_call rejecting 160)
  /\ exists out r' suffix,
       invoke_exchange rejecting (Some app_source) (call_parse rejecting)
                       (ready 160) = (out, r')
       /\ trace r' = trace (after_call rejecting 160) ++ suffix
       /\ deallocs suffix = [(25, 79, 79); (13, 12, 12); (8, 5, 5)].
Proof.
  assert (H1 : writeInput rejecting (Some app_source) (ready 160)
               = (Normal (mkSlice 8 5 5), after_write rejecting 160))
    by (vm_compute; reflexivity).
  assert (H2 : exports_orbit_alloc rejecting SLICE_STRUCT_SIZE
                 (after_write rejecting 160)
               = (Normal 13, after_slot rejecting 160))
    by (vm_compute; reflexivity).
  assert (H3 : call_parse rejecting (ptr (mkSlice 8 5 5)) (len (mkSlice 8 5 5))
                 13 (after_slot rejecting 160)
               = (Normal 1, after_call rejecting 160))
    by (vm_compute; reflexivity).
  repeat (split; [assumption|]).
  destruct (invoke_releases_result_buffer node rejecting (Some app_source)
              (call_parse rejecting) (decode_json node) _ _ _ _ _ _ _
              H1 H2 ltac:(discriminate) H3)
    as (out & r' & suffix & E & _ & T & D).
  exists out, r', suffix. repeat split; assumption.
Defined.

(** C2 fails as stated.  The allocator returns the address 4096 for the
    five bytes of the input in a memory of 64 bytes: the write into the
    block throws, [invoke] propagates the [RangeError] without having
    entered its [try] block, and the block that was allocated for the
    input is never released. *)
Lemma input_buffer_leaks_when_write_fails :
  fst (invoke node Scenes.careless (Some app_source)
         (call_parse Scenes.careless) (decode_json node) (ready 64))
  = Throw (RangeError "offset is out of bounds")
  /\ allocs (trace (snd (invoke node Scenes.careless (Some app_source)
                           (call_parse Scenes.careless) (decode_json node)
                           (ready 64))))
     = [(5, 4096)]
  /\ deallocs (trace (snd (invoke node Scenes.careless (Some app_source)
                             (call_parse Scenes.careless) (decode_json node)
                             (ready 64))))
     = [].
Proof. vm_compute. repeat split; reflexivity. Qed.

(** Two runs: one in a memory too small for the result slot, where the
    input buffer is released before the fatal error; and a rejected
    parse, which ends with the release of the slot and of the input
    buffer. *)
Lemma invoke_releases_input_and_slot_witness :
  writeInput answering (Some app_source) (ready 13)
  = (Normal (mkSlice 8 5 5), after_write answering 13)
  /\ exports_orbit_alloc answering SLICE_STRUCT_SIZE (after_write answering 13)
     = (Normal 0, after_slot answering 13)
  /\ (exists r',
        invoke node answering (Some app_source) (call_parse answering)
               (decode_json node) (ready 13)
        = (Throw (Error "orbit wasm could not allocate result slice"), r')
        /\ trace r' = trace (after_slot answering 13) ++ [EvDealloc 8 5 5])
  /\ (exists out r' before,
        invoke_exchange rejecting (Some app_source) (call_parse rejecting)
                        (ready 160) = (out, r')
        /\ trace r'
           = trace (after_call rejecting 160) ++ before
               ++ [EvDealloc 13 12 12; EvDealloc 8 5 5]).
Proof.
  assert (K0 : 13 <> 0) by lia.
  assert (H1 : writeInput answering (Some app_source) (ready 13)
               = (Normal (mkSlice 8 5 5), after_write answering 13))
    by (vm_compute; reflexivity).
  assert (H2 : exports_orbit_alloc answering SLICE_STRUCT_SIZE
                 (after_write answering 13)
               = (Normal 0, after_slot answering 13))
    by (vm_compute; reflexivity).
  assert (K1 : writeInput rejecting (Some app_source) (ready 160)
               = (Normal (mkSlice 8 5 5), after_write rejecting 160))
    by (vm_compute; reflexivity).
  assert (K2 : exports_orbit_alloc rejecting SLICE_STRUCT_SIZE
                 (after_write rejecting 160)
               = (Normal 13, after_slot rejecting 160))
    by (vm_compute; reflexivity).
  assert (K3 : call_parse rejecting (ptr (mkSlice 8 5 5)) (len (mkSlice 8 5 5))
                 13 (after_slot rejecting 160)
               = (Normal 1, after_call rejecting 160))
    by (vm_compute; reflexivity).
  split; [exact H1|]. split; [exact H2|]. split.
  - destruct (invoke_releases_input_and_slot node answering (Some app_source)
                (call_parse answering) (decode_json node) (ready 13))
      as (written & r1 & Ew & Hm).
    rewrite H1 in Ew. injection Ew as <- <-.
    destruct Hm as (slot & r2 & Ea & _ & Hfail & _).
    rewrite H2 in Ea. injection Ea as <- <-.
    exact (Hfail eq_refl).
  - destruct (invoke_releases_input_and_slot node rejecting (Some app_source)
                (call_parse rejecting) (decode_json node) (ready 160))
      as (written & r1 & Ew & Hm).
    rewrite K1 in Ew. injection Ew as <- <-.
    destruct Hm as (slot & r2 & Ea & _ & _ & Hrun).
    rewrite K2 in Ea. injection Ea as <- <-.
    destruct (Hrun K0 _ _ K3) as (out & r' & before & E & _ & T).
    exists out, r', before. split; assumption.
Defined.

(** The hypotheses shared by the runs below: a parse of [app_source]
    by the core [X] in [size] bytes of memory, whose entry point returns
    [st] and whose result is [content]. *)
Ltac run_facts X size st content :=
  let n := constr:(byte_length content) in
  assert (Hw : writeInput X (Some app_source) (ready size)
               = (Normal (mkSlice 8 5 5), after_write X size))
    by (vm_compute; reflexivity);
  assert (Ha : exports_orbit_alloc X SLICE_STRUCT_SIZE (after_write X size)
               = (Normal 13, after_slot X size))
    by (vm_compute; reflexivity);
  assert (Hs : 13 <> 0) by (intro; discriminate);
  assert (Hc : call_parse X (ptr (mkSlice 8 5 5)) (len (mkSlice 8 5 5)) 13
                 (after_slot X size)
               = (Normal st, after_call X size))
    by (vm_compute; reflexivity);
  assert (Hr : readSlice 13 (after_call X size)
               = (Normal (mkSlice 25 n n), after_read X size))
    by (vm_compute; reflexivity);
  assert (Hy : copySlice (mkSlice 25 n n) (after_read X size)
               = (Normal (copied content), after_copy X size n))
    by (vm_compute; reflexivity).

(** A rejected parse raises the typed error built from the payload; a
    successful call returns the decoded payload. *)
Lemma invoke_maps_status_witness :
  call_parse rejecting 8 5 13 (after_slot rejecting 160)
  = (Normal 1, after_call rejecting 160)
  /\ JSON_parse node (bytesToString node (copied error_payload))
     = Some error_value
  /\ as_OrbitJsError error_value = Some error_detail
  /\ (exists r',
        invoke node rejecting (Some app_source) (call_parse rejecting)
               (decode_json node) (ready 160)
        = (Throw (OrbitError error_value "Parse: unexpected end of input"
                             "OrbitParseError"), r'))
  /\ (exists r',
        invoke node answering (Some app_source) (call_parse answering)
               (decode_string node) (ready 64)
        = (Normal "1.2.3", r')).
Proof.
  assert (Hp : JSON_parse node (bytesToString node (copied error_payload))
               = Some error_value) by (vm_compute; reflexivity).
  assert (Hd : as_OrbitJsError error_value = Some error_detail)
    by reflexivity.
  split; [vm_compute; reflexivity|].
  split; [exact Hp|]. split; [exact Hd|]. split.
  - run_facts rejecting 160%nat 1 error_payload.
    destruct (invoke_maps_status node rejecting (Some app_source)
                (call_parse rejecting) (decode_json node)
                _ _ _ _ _ _ _ _ _ _ _ Hw Ha Hs Hc Hr Hy)
      as (r' & _ & _ & Herr).
    assert (Hst : 1 <> 0) by (intro; discriminate).
    exists r'. exact (Herr Hst _ _ Hp Hd).
  - run_facts answering 64%nat 0 (list_byte_of_string "1.2.3").
    destruct (invoke_maps_status node answering (Some app_source)
                (call_parse answering) (decode_string node)
                _ _ _ _ _ _ _ _ _ _ _ Hw Ha Hs Hc Hr Hy)
      as (r' & _ & Hok & _).
    exists r'. rewrite (Hok eq_refl). reflexivity.
Defined.

(** C4 fails as stated.  The entry point returns status 1 with the
    payload [{}]: it is JSON, but not of the structured error shape, and
    [invoke] raises it as an [OrbitError] all the same. *)
Lemma shapeless_payload_is_reported_as_core_error :
  fst (call_parse shapeless 8 5 13 (after_slot shapeless 64)) = Normal 1
  /\ fst (copySlice (mkSlice 25 2 2) (after_read shapeless 64))
     = Normal (copied (list_byte_of_string "{}"))
  /\ bytesToJson node (copied (list_byte_of_string "{}"))
     = Normal (JObject [])
  /\ as_OrbitJsError (JObject []) = None
  /\ fst (parse_run shapeless 64)
     = Throw (OrbitError (JObject []) "undefined: undefined"
                         "OrbitundefinedError")
  /\ (exists e, fst (parse_run shapeless 64) = Throw e
               /\ is_OrbitError e = true).
Proof.
  vm_compute. repeat split; try reflexivity.
  eexists. split; reflexivity.
Qed.

(** A payload that is not JSON surfaces as an error that is not an
    [OrbitError]. *)
Lemma invoke_malformed_payload_witness :
  call_parse garbled 8 5 13 (after_slot garbled 64)
  = (Normal 1, after_call garbled 64)
  /\ JSON_parse node
       (bytesToString node (copied (list_byte_of_string "oops"))) = None
  /\ exists e r',
       invoke node garbled (Some app_source) (call_parse garbled)
              (decode_json node) (ready 64) = (Throw e, r')
       /\ is_OrbitError e = false.
Proof.
  assert (Hp : JSON_parse node
                 (bytesToString node (copied (list_byte_of_string "oops")))
               = None) by (vm_compute; reflexivity).
  split; [vm_compute; reflexivity|]. split; [exact Hp|].
  run_facts garbled 64%nat 1 (list_byte_of_string "oops").
  assert (Hst : 1 <> 0) by (intro; discriminate).
  exact (invoke_malformed_payload node garbled (Some app_source)
           (call_parse garbled) (decode_json node)
           _ _ _ _ _ _ _ _ _ _ _ Hw Ha Hs Hc Hr Hy Hst (or_introl Hp)).
Defined.

(** C5 fails as stated.  On a platform with a file system, a
    [filePath] that is present but empty cannot be read, and [evaluate]
    throws the argument-shape [TypeError], not the host [Error] of the
    could-not-read path. *)
Lemma empty_filePath_is_an_argument_error :
  filePath empty_path = Some EmptyString
  /\ source empty_path = None
  /\ nodeFs node = Some (node_fs node)
  /\ tryLoadFileInput node EmptyString (encoding empty_path) (boot 64)
     = (Normal None, boot 64)
  /\ evaluate node answering (InputOptions empty_path) (boot 64)
     = (Throw (TypeError
          "orbit.evaluate requires a source string or options with filePath."),
        boot 64)
  /\ ~ (exists msg r',
          evaluate node answering (InputOptions empty_path) (boot 64)
          = (Throw (Error msg), r')).
Proof.
  repeat split; try reflexivity.
  intros (msg & r' & H). vm_compute in H. discriminate H.
Qed.

(** The four cases of the options form on concrete options: [source]
    wins without a probe; an unreadable path is fatal, on Node and in a
    browser; a readable path was read from the file system; nothing
    given is an argument error. *)
Lemma evaluate_options_resolution_witness :
  (resolveEvaluateInput node (InputOptions both_given) (boot 64)
   = (Normal "app { }", boot 64))
  /\ (exists msg,
        evaluate node answering (InputOptions missing_file) (boot 64)
        = (Throw (Error msg),
           log (EvExistsSync (PathTarget "missing.orbit")) (boot 64)))
  /\ (exists msg,
        evaluate browser answering (InputOptions on_disk) (boot 64)
        = (Throw (Error msg), boot 64))
  /\ (exists fs target,
        nodeFs node = Some fs
        /\ existsSync fs target = true
        /\ readFileSync fs target "utf8" = Normal "app { name: 1 }")
  /\ evaluate node answering (InputOptions nothing_given) (boot 64)
     = (Throw (TypeError
          "orbit.evaluate requires a source string or options with filePath."),
        boot 64).
Proof.
  split.
  { destruct (evaluate_options_resolution node answering both_given (boot 64))
      as (Hsrc & _).
    exact (proj1 (Hsrc "app { }" eq_refl)). }
  split.
  { destruct (evaluate_options_resolution node answering missing_file
                (boot 64)) as (_ & Hfail & _).
    apply (Hfail "missing.orbit"); try reflexivity. discriminate. }
  split.
  { destruct (evaluate_options_resolution browser answering on_disk
                (boot 64)) as (_ & Hfail & _).
    apply (Hfail "/etc/app.orbit"); try reflexivity. discriminate. }
  split.
  { destruct (evaluate_options_resolution node answering on_disk (boot 64))
      as (_ & _ & Hread & _).
    apply (Hread "/etc/app.orbit" eq_refl eq_refl ltac:(discriminate)
             "app { name: 1 }"
             (log (EvReadFileSync (PathTarget "/etc/app.orbit") "utf8")
                (log (EvExistsSync (PathTarget "/etc/app.orbit")) (boot 64)))).
    reflexivity. }
  destruct (evaluate_options_resolution node answering nothing_given
              (boot 64)) as (_ & _ & _ & Hnone).
  exact (Hnone eq_refl eq_refl).
Defined.

(** The memory grows while a call is made: both cached views, built
    over the first buffer, are rebuilt over the buffers that follow. *)
Example views_follow_the_memory :
  let r := snd (version node growing (boot 16)) in
  cachedU8 r = Some (memory_buffer r)
  /\ cachedView r = Some (memory_buffer r)
  /\ memory_buffer r = 2%nat
  /\ List.filter (fun e => match e with EvAccess _ _ _ => true | _ => false end)
       (trace (snd (version node growing
                      (snd (version node growing (boot 16))))))
     = [ EvAccess DvGetUint32 2 2; EvAccess DvGetUint32 2 2;
         EvAccess DvGetUint32 2 2; EvAccess U8Slice 2 2;
         EvAccess DvGetUint32 5 5; EvAccess DvGetUint32 5 5;
         EvAccess DvGetUint32 5 5; EvAccess U8Slice 5 5 ]%nat.
Proof. vm_compute. repeat split; reflexivity. Qed.

(** A module without [orbit_evaluate] and a module whose [memory] is a
    function are both refused; a complete module is accepted. *)
Lemma createOrbit_validates_witness :
  instantiateOrbit node offline (Some (hooked without_evaluate))
  = Normal (mkWasmInstance without_evaluate)
  /\ In "orbit_evaluate" required
  /\ without_evaluate !! "orbit_evaluate" = None
  /\ (exists msg,
        createOrbit node offline (Some (hooked without_evaluate))
        = Throw (Error msg))
  /\ memory_is_function !! "memory" <> Some ExportMemory
  /\ (exists msg,
        createOrbit node offline (Some (hooked memory_is_function))
        = Throw (Error msg))
  /\ createOrbit node offline (Some (hooked full_exports))
     = Normal (mkOrbitCore full_exports None None).
Proof.
  assert (Hin : In "orbit_evaluate" required) by (simpl; tauto).
  assert (Hmiss : without_evaluate !! "orbit_evaluate" = None)
    by (vm_compute; reflexivity).
  assert (Hmem : memory_is_function !! "memory" <> Some ExportMemory)
    by (vm_compute; discriminate).
  split; [reflexivity|]. split; [exact Hin|]. split; [exact Hmiss|].
  split.
  { destruct (createOrbit_validates node offline
                (Some (hooked without_evaluate))
                (mkWasmInstance without_evaluate) eq_refl) as (Hbad & _).
    apply Hbad. left. exists "orbit_evaluate". split; assumption. }
  split; [exact Hmem|]. split.
  { destruct (createOrbit_validates node offline
                (Some (hooked memory_is_function))
                (mkWasmInstance memory_is_function) eq_refl) as (Hbad & _).
    apply Hbad. right. exact Hmem. }
  assert (Hok : createOrbit node offline (Some (hooked full_exports))
                = Normal (mkOrbitCore full_exports None None))
    by (vm_compute; reflexivity).
  destruct (createOrbit_validates node offline (Some (hooked full_exports))
              (mkWasmInstance full_exports) eq_refl) as (_ & Hgood).
  destruct (Hgood _ Hok) as (_ & _ & ->). reflexivity.
Defined.

(** Writing [app_source] into a fresh core and copying a result out of
    it. *)
Lemma slice_codec_witness :
  exports_orbit_alloc answering (byte_length (u8_bytes app_source)) (ready 64)
  = (Normal 8,
     snd (exports_orbit_alloc answering 5 (ready 64)))
  /\ (exists r',
        writeInput answering (Some app_source) (ready 64)
        = (Normal (mkSlice 8 5 5), r')
        /\ take 5 (drop 8 (linear_memory (instance r')))
           = u8_bytes app_source)
  /\ (exists a r',
        copySlice (mkSlice 25 0 0) (after_read answering 64)
        = (Normal a, r') /\ u8_bytes a = [])
  /\ (exists a r',
        copySlice (mkSlice 25 5 5) (after_read answering 64)
        = (Normal a, r')
        /\ u8_bytes a = list_byte_of_string "1.2.3"
        /\ u8_buffer a <> memory_buffer r').
Proof.
  assert (Ha : exports_orbit_alloc answering
                 (byte_length (u8_bytes app_source)) (ready 64)
               = (Normal 8, snd (exports_orbit_alloc answering 5 (ready 64))))
    by (vm_compute; reflexivity).
  split; [exact Ha|]. split.
  { destruct (slice_codec answering (ready 64)) as (_ & _ & Hwrite & _).
    destruct (Hwrite app_source 8 _ ltac:(discriminate) Ha)
      as (r' & E & _ & Hb & _).
    - reflexivity.
    - vm_compute. discriminate.
    - exists r'. split; [exact E | exact Hb]. }
  split.
  { destruct (slice_codec answering (after_read answering 64))
      as (_ & _ & _ & Hempty & _).
    destruct (Hempty (mkSlice 25 0 0) eq_refl) as (a & r' & E & Hb & _).
    exists a, r'. split; assumption. }
  destruct (slice_codec answering (after_read answering 64))
    as (_ & _ & _ & _ & Hcopy).
  destruct (Hcopy (mkSlice 25 5 5)) as (a & r' & E & Hb & _ & Hfresh & _).
  - discriminate.
  - exists a, r'. split; [exact E|]. split.
    + rewrite Hb.
      * vm_compute. reflexivity.
      * discriminate.
      * discriminate.
      * vm_compute. discriminate.
    + apply Hfresh. unfold buffers_known. vm_compute. lia.
Defined.

(** *** Checks of the building blocks *)

Example word_le_reads_little_endian :
  word_le x78 x56 x34 x12 = 305419896.
Proof. reflexivity. Qed.

Example clamp_index_cases :
  clamp_index 10 (-3) = 7 /\ clamp_index 10 (-30) = 0
  /\ clamp_index 10 4 = 4 /\ clamp_index 10 20 = 10.
Proof. repeat split. Qed.

Example store_bytes_overwrites :
  store_bytes [x00; x00; x00; x00] [x61; x62] 1 = [x00; x61; x62; x00].
Proof. reflexivity. Qed.

Example readSlice_past_the_end_throws :
  fst (readSlice 60 (boot 64))
  = Throw (RangeError "Offset is outside the bounds of the DataView").
Proof. reflexivity. Qed.

Example stale_view_is_detached :
  fst (DataView_getUint32 0%nat 8 (snd (version node growing (boot 16))))
  = Throw (TypeError "Cannot perform getUint32 on a detached ArrayBuffer").
Proof. vm_compute. reflexivity. Qed.

Example new_OrbitError_of_null :
  new_OrbitError node JNull
  = Throw (TypeError "Cannot read properties of null").
Proof. reflexivity. Qed.

Example ToString_of_array :
  ToString node (JArray [JNumber "1"; JNull; JString "a"; JArray []])
  = Normal "1,,a,".
Proof. reflexivity. Qed.

Example parse_rejects :
  Json.parse EmptyString = None /\ Json.parse "[1,]" = None
  /\ Json.parse "01" = None /\ Json.parse "nul" = None
  /\ Json.parse "1 2" = None.
Proof. vm_compute. repeat split. Qed.

Example parse_accepts :
  Json.parse (json_text " {'a': [1, -2.5e+3, true, null], 'a': 'x\n'} ")
  = Some (JObject [("a", JString (String "x"%char
                                   (String "010"%char EmptyString)))]).
Proof. vm_compute. reflexivity. Qed.

Example stringify_then_parse :
  Json.parse (stringify error_value) = Some error_value.
Proof. vm_compute. reflexivity. Qed.

Example validateExports_names_the_missing_export :
  validateExports without_evaluate
  = Throw (Error "orbit wasm is missing required export: orbit_evaluate").
Proof. vm_compute. reflexivity. Qed.

Example view_source_is_copied :
  bufferSourceToUint8Array (SourceView [x01; x02; x03; x04] 1 2)
  = Normal [x02; x03].
Proof. reflexivity. Qed.

Example default_location_needs_a_capability :
  createOrbit browser offline None
  = Throw (Error
      "File URLs are not supported in this environment. Provide wasm bytes via options.binary instead.")
  /\ createOrbit browser offline
       (Some (mkInitOptions None None
                (Some (UrlString "https://cdn.example/orbit_core.wasm"))
                None None))
     = Throw (Error
         "Global fetch is unavailable. Provide wasm bytes via options.binary.").
Proof. split; reflexivity. Qed.

Example plain_string_falls_back_to_literal :
  fst (resolveEvaluateInput node (InputString "app { }") (boot 64))
  = Normal "app { }"
  /\ fst (resolveEvaluateInput node (InputString " /etc/app.orbit ")
                                (boot 64))
     = Normal "app { name: 1 }".
Proof. split; reflexivity. Qed.

End Runs.


(** * Further properties of the bridge *)

Section Words.

Lemma byte_value_range (b : byte) : 0 <= byte_value b < 256.
Proof.
  unfold byte_value. pose proof (Byte.to_N_bounded b). lia.
Qed.

Lemma lor_shiftl_low (a b n : Z) :
  0 <= n -> 0 <= a < 2 ^ n -> 0 <= b ->
  Z.lor a (Z.shiftl b n) = a + b * 2 ^ n.
Proof.
  intros Hn Ha Hb.
  rewrite <- (Z.shiftl_mul_pow2 b n Hn).
  rewrite <- (Z.add_lor_land a (Z.shiftl b n)).
  assert (Hz : Z.land a (Z.shiftl b n) = 0).
  { apply Z.bits_inj'. intros i Hi.
    rewrite Z.land_spec, Z.bits_0.
    destruct (Z.lt_ge_cases i n) as [Hlt|Hge].
    - rewrite (Z.shiftl_spec_low b n i Hlt). apply andb_false_r.
    - assert (Z.testbit a i = false) as ->; [|reflexivity].
      destruct (Z.eq_dec a 0) as [->|Hne]; [apply Z.bits_0|].
      apply Z.bits_above_log2; [lia|].
      apply Z.log2_lt_pow2; [lia|].
      apply Z.lt_le_trans with (2 ^ n); [lia|].
      apply Z.pow_le_mono_r; lia. }
  rewrite Hz. lia.
Qed.

(** The word [getUint32] assembles with shifts and ors is the
    little-endian number of its four bytes. *)
Lemma word_le_little_endian (b0 b1 b2 b3 : byte) :
  word_le b0 b1 b2 b3 = little_endian b0 b1 b2 b3.
Proof.
  unfold word_le, little_endian.
  pose proof (byte_value_range b0). pose proof (byte_value_range b1).
  pose proof (byte_value_range b2). pose proof (byte_value_range b3).
  rewrite (Z.shiftl_mul_pow2 (byte_value b1) 8) by lia.
  rewrite (Z.shiftl_mul_pow2 (byte_value b2) 16) by lia.
  rewrite (lor_shiftl_low (byte_value b2 * 2 ^ 16) (byte_value b3) 24)
    by lia.
  replace (byte_value b2 * 2 ^ 16 + byte_value b3 * 2 ^ 24)
    with (Z.shiftl (byte_value b2 + byte_value b3 * 2 ^ 8) 16)
    by (rewrite Z.shiftl_mul_pow2; lia).
  rewrite lor_shiftl_low by lia.
  replace (byte_value b1 * 2 ^ 8
           + (byte_value b2 + byte_value b3 * 2 ^ 8) * 2 ^ 16)
    with (Z.shiftl (byte_value b1 + byte_value b2 * 2 ^ 8
                    + byte_value b3 * 2 ^ 16) 8)
    by (rewrite Z.shiftl_mul_pow2; lia).
  rewrite lor_shiftl_low by lia. lia.
Qed.

Lemma word_le_range (b0 b1 b2 b3 : byte) :
  0 <= word_le b0 b1 b2 b3 < 4294967296.
Proof.
  rewrite word_le_little_endian. unfold little_endian.
  pose proof (byte_value_range b0). pose proof (byte_value_range b1).
  pose proof (byte_value_range b2). pose proof (byte_value_range b3).
  lia.
Qed.

End Words.

Section Codec.

Context {G : Type} (P : Platform) (X : OrbitExports G).

Abbreviation Realm := (Realm G).

Lemma DataView_getUint32_normal (view : BufferId) (off v : Z) (r r' : Realm) :
  DataView_getUint32 view off r = (Normal v, r') ->
  0 <= off
  /\ (exists b0 b1 b2 b3 rest,
        drop (Z.to_nat off) (linear_memory (instance r))
        = b0 :: b1 :: b2 :: b3 :: rest
        /\ v = word_le b0 b1 b2 b3)
  /\ r' = log (EvAccess DvGetUint32 view (memory_buffer r)) r.
Proof.
  unfold DataView_getUint32. simpl.
  destruct (off <? 0) eqn:Eo; [discriminate|].
  destruct (negb (Nat.eqb view (memory_buffer r))); [discriminate|].
  destruct (drop (Z.to_nat off) (linear_memory (instance r)))
    as [|b0 [|b1 [|b2 [|b3 rest]]]]; try discriminate.
  intros [= <- <-]. apply Z.ltb_ge in Eo.
  split; [exact Eo|]. split; [|reflexivity].
  exists b0, b1, b2, b3, rest. split; reflexivity.
Qed.

Lemma drop_four_more (mem : list byte) (p : Z) (b0 b1 b2 b3 : byte)
  (rest : list byte) :
  0 <= p ->
  drop (Z.to_nat p) mem = b0 :: b1 :: b2 :: b3 :: rest ->
  drop (Z.to_nat (p + 4)) mem = rest.
Proof.
  intros Hp Hd.
  replace (Z.to_nat (p + 4)) with (Z.to_nat p + 4)%nat by lia.
  rewrite <- drop_drop, Hd. reflexivity.
Qed.

(** X1.  A descriptor [readSlice] returns is the twelve bytes at the
    pointer read as three little-endian unsigned words: each field is
    the little-endian number of its four bytes, hence lies in
    [0, 2^32); the read lies inside the memory and leaves the instance
    untouched. *)
Theorem readSlice_decodes (p : Z) (r r' : Realm) (s : OrbitSlice) :
  readSlice p r = (Normal s, r') ->
  0 <= p
  /\ p + 12 <= byte_length (linear_memory (instance r))
  /\ (exists b0 b1 b2 b3 b4 b5 b6 b7 b8 b9 b10 b11,
        take 12 (drop (Z.to_nat p) (linear_memory (instance r)))
        = [b0; b1; b2; b3; b4; b5; b6; b7; b8; b9; b10; b11]
        /\ ptr s = little_endian b0 b1 b2 b3
        /\ len s = little_endian b4 b5 b6 b7
        /\ cap s = little_endian b8 b9 b10 b11)
  /\ 0 <= ptr s < 4294967296
  /\ 0 <= len s < 4294967296
  /\ 0 <= cap s < 4294967296
  /\ instance r' = instance r.
Proof.
  unfold readSlice. unfold bind at 1. rewrite getDataView_eq.
  set (r1 := set_cachedView (Some (memory_buffer r)) r).
  unfold bind at 1.
  destruct (DataView_getUint32 (memory_buffer r) p r1) as [[v0|e] r2] eqn:E0;
    [|discriminate].
  apply DataView_getUint32_normal in E0.
  destruct E0 as (Hp & (b0 & b1 & b2 & b3 & rest0 & D0 & ->) & ->).
  unfold bind at 1.
  match goal with
  | |- context [DataView_getUint32 _ (p + 4) ?st] =>
      destruct (DataView_getUint32 (memory_buffer r) (p + 4) st)
        as [[v1|e] r3] eqn:E1; [|discriminate]
  end.
  apply DataView_getUint32_normal in E1.
  destruct E1 as (_ & (b4 & b5 & b6 & b7 & rest1 & D1 & ->) & ->).
  unfold bind at 1.
  match goal with
  | |- context [DataView_getUint32 _ (p + 8) ?st] =>
      destruct (DataView_getUint32 (memory_buffer r) (p + 8) st)
        as [[v2|e] r4] eqn:E2; [|discriminate]
  end.
  apply DataView_getUint32_normal in E2.
  destruct E2 as (_ & (b8 & b9 & b10 & b11 & rest2 & D2 & ->) & ->).
  unfold ret. intros [= <- <-]. simpl in *.
  rewrite (drop_four_more _ p _ _ _ _ _ Hp D0) in D1. subst rest0.
  replace (p + 8) with (p + 4 + 4) in D2 by lia.
  assert (D1' : drop (Z.to_nat (p + 4)) (linear_memory (instance r))
                = b4 :: b5 :: b6 :: b7 :: rest1)
    by (rewrite (drop_four_more _ p _ _ _ _ _ Hp D0); reflexivity).
  rewrite (drop_four_more _ (p + 4) _ _ _ _ _ ltac:(lia) D1') in D2.
  subst rest1.
  split; [exact Hp|]. split.
  { assert (Hl : length (drop (Z.to_nat p) (linear_memory (instance r)))
                 = (12 + length rest2)%nat) by (rewrite D0; reflexivity).
    rewrite length_drop in Hl. unfold byte_length. lia. }
  split.
  { exists b0, b1, b2, b3, b4, b5, b6, b7, b8, b9, b10, b11.
    rewrite D0. rewrite !word_le_little_endian. repeat split. }
  repeat split; apply word_le_range.
Qed.

(** X2.  [readSlice] succeeds exactly when the twelve bytes at the
    pointer lie inside the memory; otherwise it throws a [RangeError]. *)
Theorem readSlice_bounds (p : Z) (r : Realm) :
  (0 <= p /\ p + 12 <= byte_length (linear_memory (instance r)) ->
   exists s r', readSlice p r = (Normal s, r'))
  /\ (p < 0 \/ byte_length (linear_memory (instance r)) < p + 12 ->
      exists r',
        readSlice p r
        = (Throw (RangeError "Offset is outside the bounds of the DataView"),
           r')).
Proof.
  assert (Hget : forall off (st : Realm),
            memory_buffer st = memory_buffer r ->
            linear_memory (instance st) = linear_memory (instance r) ->
            (0 <= off
             /\ off + 4 <= byte_length (linear_memory (instance r)) ->
             exists v, DataView_getUint32 (memory_buffer r) off st
                       = (Normal v,
                          log (EvAccess DvGetUint32 (memory_buffer r)
                                        (memory_buffer st)) st))
            /\ (off < 0
                \/ byte_length (linear_memory (instance r)) < off + 4 ->
                DataView_getUint32 (memory_buffer r) off st
                = (Throw (RangeError
                            "Offset is outside the bounds of the DataView"),
                   log (EvAccess DvGetUint32 (memory_buffer r)
                                 (memory_buffer st)) st))).
  { intros off st Hm Hmem. unfold DataView_getUint32. simpl.
    rewrite Hm, Hmem, Nat.eqb_refl. simpl. split.
    - intros (H0 & H4).
      assert (Eo : (off <? 0) = false) by (apply Z.ltb_ge; lia). rewrite Eo.
      assert (Hl : (4 <= length (drop (Z.to_nat off)
                                   (linear_memory (instance r))))%nat)
        by (rewrite length_drop; unfold byte_length in H4; lia).
      destruct (drop (Z.to_nat off) (linear_memory (instance r)))
        as [|b0 [|b1 [|b2 [|b3 rest]]]]; simpl in Hl; try lia.
      eexists. reflexivity.
    - intros Hbad. destruct (off <? 0) eqn:Eo; [reflexivity|].
      apply Z.ltb_ge in Eo.
      assert (Hl : (length (drop (Z.to_nat off)
                              (linear_memory (instance r))) < 4)%nat)
        by (rewrite length_drop; unfold byte_length in Hbad; lia).
      destruct (drop (Z.to_nat off) (linear_memory (instance r)))
        as [|b0 [|b1 [|b2 [|b3 rest]]]]; simpl in Hl; try lia;
        reflexivity. }
  unfold readSlice, bind. rewrite getDataView_eq.
  set (r1 := set_cachedView (Some (memory_buffer r)) r).
  pose proof (Hget p r1 eq_refl eq_refl) as [Hok0 Hbad0].
  set (r2 := log (EvAccess DvGetUint32 (memory_buffer r) (memory_buffer r1))
                 r1) in *.
  pose proof (Hget (p + 4) r2 eq_refl eq_refl) as [Hok1 Hbad1].
  set (r3 := log (EvAccess DvGetUint32 (memory_buffer r) (memory_buffer r2))
                 r2) in *.
  pose proof (Hget (p + 8) r3 eq_refl eq_refl) as [Hok2 Hbad2].
  clear Hget. split.
  - intros (H0 & H12).
    destruct Hok0 as (v0 & E0); [lia|].
    destruct Hok1 as (v1 & E1); [lia|].
    destruct Hok2 as (v2 & E2); [lia|].
    eexists _, _. rewrite E0, E1, E2. reflexivity.
  - intros Hbad.
    destruct (Z.lt_ge_cases p 0) as [Hneg|Hnn].
    { eexists. rewrite Hbad0 by lia. reflexivity. }
    destruct (Z.lt_ge_cases (byte_length (linear_memory (instance r)))
                (p + 4)) as [H4|H4].
    { eexists. rewrite Hbad0 by lia. reflexivity. }
    destruct Hok0 as (v0 & E0); [lia|].
    destruct (Z.lt_ge_cases (byte_length (linear_memory (instance r)))
                (p + 8)) as [H8|H8].
    { eexists. rewrite E0, Hbad1 by lia. reflexivity. }
    destruct Hok1 as (v1 & E1); [lia|].
    eexists. rewrite E0, E1, Hbad2 by lia. reflexivity.
Qed.

(** X3.  For a descriptor with non-negative fields (as [readSlice]
    returns them) [copySlice] never throws and copies exactly the bytes
    of the range [ptr, ptr + len) that lie inside the memory: it never
    reads past the end and never returns more than [len] bytes. *)
Theorem copySlice_segment (s : OrbitSlice) (r : Realm) :
  0 <= ptr s -> 0 <= len s ->
  exists a r',
    copySlice s r = (Normal a, r')
    /\ u8_bytes a
       = take (Z.to_nat (len s))
              (drop (Z.to_nat (ptr s)) (linear_memory (instance r)))
    /\ byte_length (u8_bytes a)
       = Z.min (len s)
               (Z.max (byte_length (linear_memory (instance r)) - ptr s) 0)
    /\ instance r' = instance r.
Proof.
  intros Hp Hl.
  assert (Hlen : forall l : list byte,
            l = take (Z.to_nat (len s))
                     (drop (Z.to_nat (ptr s)) (linear_memory (instance r))) ->
            byte_length l
            = Z.min (len s)
                (Z.max (byte_length (linear_memory (instance r)) - ptr s) 0)).
  { intros l ->. unfold byte_length. rewrite length_take, length_drop. lia. }
  unfold copySlice. destruct (len s =? 0) eqn:E0.
  - apply Z.eqb_eq in E0. eexists _, _. split; [reflexivity|]. simpl.
    assert (Hnil : [] = take (Z.to_nat (len s))
                          (drop (Z.to_nat (ptr s))
                                (linear_memory (instance r))))
      by (rewrite E0; reflexivity).
    split; [exact Hnil|]. split; [apply Hlen; exact Hnil | reflexivity].
  - unfold bind. rewrite getUint8Memory_eq.
    unfold Uint8Array_slice. simpl. rewrite Nat.eqb_refl. simpl.
    eexists _, _. split; [reflexivity|]. simpl.
    set (mem := linear_memory (instance r)) in *.
    assert (Hseg : take (Z.to_nat (Z.max (clamp_index (byte_length mem)
                                            (ptr s + len s)
                                          - clamp_index (byte_length mem)
                                              (ptr s)) 0))
                     (drop (Z.to_nat (clamp_index (byte_length mem) (ptr s)))
                           mem)
                   = take (Z.to_nat (len s)) (drop (Z.to_nat (ptr s)) mem)).
    { unfold clamp_index, byte_length.
      assert (H1 : (ptr s <? 0) = false) by (apply Z.ltb_ge; lia).
      assert (H2 : (ptr s + len s <? 0) = false) by (apply Z.ltb_ge; lia).
      rewrite H1, H2.
      destruct (Z.le_gt_cases (ptr s) (Z.of_nat (length mem))) as [Hin|Hout].
      - rewrite (Z.min_l (ptr s)) by lia.
        destruct (Z.le_gt_cases (ptr s + len s) (Z.of_nat (length mem)))
          as [Hfit|Hover].
        + rewrite Z.min_l by lia. f_equal. lia.
        + rewrite Z.min_r by lia.
          rewrite !take_ge; [reflexivity | |]; rewrite length_drop; lia.
      - rewrite !Z.min_r by lia.
        rewrite (drop_ge mem (Z.to_nat (ptr s))) by lia.
        replace (Z.to_nat (Z.max (Z.of_nat (length mem)
                                  - Z.of_nat (length mem)) 0)) with 0%nat
          by lia.
        rewrite take_0, take_nil. reflexivity. }
    split; [exact Hseg|]. split; [apply Hlen; exact Hseg | reflexivity].
Qed.

(** What a successful [writeInput] of a buffer that has bytes did. *)
Lemma writeInput_inv (b : Uint8Array) (r r1 : Realm) (s : OrbitSlice) :
  u8_bytes b <> [] ->
  writeInput X (Some b) r = (Normal s, r1) ->
  exists ra,
    exports_orbit_alloc X (byte_length (u8_bytes b)) r = (Normal (ptr s), ra)
    /\ ptr s <> 0 /\ 0 <= ptr s
    /\ ptr s + byte_length (u8_bytes b)
       <= byte_length (linear_memory (instance ra))
    /\ linear_memory (instance r1)
       = store_bytes (linear_memory (instance ra)) (u8_bytes b) (ptr s)
    /\ len s = byte_length (u8_bytes b)
    /\ cap s = byte_length (u8_bytes b)
    /\ trace r1
       = trace ra ++ [EvAccess U8Set (memory_buffer ra) (memory_buffer ra)].
Proof.
  intros Hne. unfold writeInput.
  destruct (byte_length (u8_bytes b) =? 0) eqn:E0.
  { apply Z.eqb_eq in E0. unfold byte_length in E0.
    destruct (u8_bytes b); [congruence | simpl in E0; lia]. }
  unfold bind at 1.
  destruct (exports_orbit_alloc X (byte_length (u8_bytes b)) r)
    as [[p|e] ra] eqn:Ea.
  2:{ destruct (exports_orbit_alloc_spec X (byte_length (u8_bytes b)) r)
        as (p' & r' & E' & _). congruence. }
  destruct (p =? 0) eqn:Ep; [discriminate|].
  unfold bind at 1. rewrite getUint8Memory_eq.
  unfold bind, Uint8Array_set. simpl.
  destruct (p <? 0) eqn:En; [discriminate|].
  rewrite Nat.eqb_refl. simpl.
  destruct (byte_length (linear_memory (instance ra))
            <? p + byte_length (u8_bytes b)) eqn:Ef; [discriminate|].
  unfold ret. intros [= <- <-]. simpl.
  apply Z.eqb_neq in Ep. apply Z.ltb_ge in En. apply Z.ltb_ge in Ef.
  exists ra. repeat split; auto.
Qed.

(** X4.  Round trip through the memory: what [copySlice] returns for
    the descriptor [writeInput] produced is the buffer that was
    written. *)
Theorem write_then_copy (b : Uint8Array) (r r1 : Realm) (s : OrbitSlice) :
  writeInput X (Some b) r = (Normal s, r1) ->
  exists a r2,
    copySlice s r1 = (Normal a, r2) /\ u8_bytes a = u8_bytes b.
Proof.
  intros Hw.
  destruct (u8_bytes b) as [|c rest] eqn:Eb.
  - unfold writeInput in Hw. rewrite Eb in Hw. simpl in Hw.
    injection Hw as <- <-. eexists _, _. split; reflexivity.
  - assert (Hne : u8_bytes b <> []) by (rewrite Eb; discriminate).
    destruct (writeInput_inv b r r1 s Hne Hw)
      as (ra & _ & _ & Hp & Hfit & Hmem & Hl & _).
    destruct (copySlice_segment s r1 Hp ltac:(rewrite Hl; unfold byte_length; lia))
      as (a & r2 & Ec & Hb & _).
    exists a, r2. split; [exact Ec|].
    rewrite Hb, Hmem, Hl, <- Eb. unfold byte_length.
    rewrite Nat2Z.id. apply store_bytes_read.
    unfold byte_length in Hfit. lia.
Qed.

Lemma store_bytes_outside (mem content : list byte) (off : Z) (i : nat) :
  0 <= off ->
  (Z.to_nat off + length content <= length mem)%nat ->
  (i < Z.to_nat off \/ Z.to_nat off + length content <= i)%nat ->
  store_bytes mem content off !! i = mem !! i.
Proof.
  intros Hoff Hfit Hi. unfold store_bytes.
  destruct Hi as [Hlow|Hhigh].
  - rewrite lookup_app_l by (rewrite length_take; lia).
    apply lookup_take_lt. exact Hlow.
  - rewrite lookup_app_r by (rewrite length_take; lia).
    rewrite length_take_le by lia.
    rewrite lookup_app_r by lia.
    rewrite lookup_drop. f_equal. lia.
Qed.

(** X5.  A successful [writeInput] changes the memory only inside the
    buffer the allocator returned: every byte outside
    [ptr, ptr + length) is what it was after the allocation, and the
    memory keeps its size. *)
Theorem writeInput_frame (b : Uint8Array) (r r1 : Realm) (s : OrbitSlice) :
  u8_bytes b <> [] ->
  writeInput X (Some b) r = (Normal s, r1) ->
  exists ra,
    exports_orbit_alloc X (byte_length (u8_bytes b)) r = (Normal (ptr s), ra)
    /\ length (linear_memory (instance r1))
       = length (linear_memory (instance ra))
    /\ forall i : nat,
         Z.of_nat i < ptr s \/ ptr s + len s <= Z.of_nat i ->
         linear_memory (instance r1) !! i = linear_memory (instance ra) !! i.
Proof.
  intros Hne Hw.
  destruct (writeInput_inv b r r1 s Hne Hw)
    as (ra & Ea & _ & Hp & Hfit & Hmem & Hl & _).
  unfold byte_length in Hfit.
  exists ra. split; [exact Ea|]. rewrite Hmem. split.
  - apply store_bytes_length. lia.
  - intros i Hi. apply store_bytes_outside; [exact Hp | lia |].
    rewrite Hl in Hi. unfold byte_length in Hi. lia.
Qed.

(** X6.  When the allocator returns the null pointer for the input
    buffer, [invoke] throws the allocation error at once: the result
    slot is not allocated, the entry point is not called and nothing is
    released. *)
Theorem invoke_input_allocation_failure {T} (b : Uint8Array)
  (call : Z -> Z -> Z -> M G Z) (onOk : Uint8Array -> M G T)
  (r r1 : Realm) :
  u8_bytes b <> [] ->
  exports_orbit_alloc X (byte_length (u8_bytes b)) r = (Normal 0, r1) ->
  invoke P X (Some b) call onOk r
  = (Throw (Error "orbit wasm could not allocate input buffer"), r1)
  /\ trace r1 = trace r ++ [EvAlloc (byte_length (u8_bytes b)) 0].
Proof.
  intros Hne Ha. split.
  - unfold invoke, invoke_exchange, writeInput.
    assert (Hn : (byte_length (u8_bytes b) =? 0) = false).
    { apply Z.eqb_neq. unfold byte_length.
      destruct (u8_bytes b); [congruence | simpl; lia]. }
    rewrite Hn. unfold bind. rewrite Ha. reflexivity.
  - destruct (exports_orbit_alloc_spec X (byte_length (u8_bytes b)) r)
      as (p & r' & E & Tr). rewrite Ha in E. injection E as <- <-.
    exact Tr.
Qed.

(** X7.  When the pointer the allocator returned for the input does not
    leave room for the bytes inside the memory, the write throws a
    [RangeError] and [invoke] propagates it: no slot is allocated, the
    entry point is not called, and the input buffer that was just
    allocated is not released. *)
Theorem invoke_input_write_failure {T} (b : Uint8Array)
  (call : Z -> Z -> Z -> M G Z) (onOk : Uint8Array -> M G T)
  (r r1 : Realm) (p : Z) :
  u8_bytes b <> [] ->
  exports_orbit_alloc X (byte_length (u8_bytes b)) r = (Normal p, r1) ->
  p <> 0 ->
  p < 0
  \/ byte_length (linear_memory (instance r1))
     < p + byte_length (u8_bytes b) ->
  exists r',
    invoke P X (Some b) call onOk r
    = (Throw (RangeError "offset is out of bounds"), r')
    /\ trace r'
       = trace r ++ [EvAlloc (byte_length (u8_bytes b)) p;
                     EvAccess U8Set (memory_buffer r1) (memory_buffer r1)]
    /\ instance r' = instance r1.
Proof.
  intros Hne Ha Hp Hbad.
  destruct (exports_orbit_alloc_spec X (byte_length (u8_bytes b)) r)
    as (p' & r'' & E & Tr). rewrite Ha in E. injection E as <- <-.
  unfold invoke, invoke_exchange, writeInput.
  assert (Hn : (byte_length (u8_bytes b) =? 0) = false).
  { apply Z.eqb_neq. unfold byte_length.
    destruct (u8_bytes b); [congruence | simpl; lia]. }
  rewrite Hn. unfold bind at 1. unfold bind at 1. unfold bind at 1.
  rewrite Ha. apply Z.eqb_neq in Hp. rewrite Hp.
  unfold bind at 1. rewrite getUint8Memory_eq.
  unfold bind, Uint8Array_set. simpl.
  destruct (p <? 0) eqn:En.
  - eexists. split; [reflexivity|]. simpl. split; [|reflexivity].
    rewrite Tr. now rewrite <- app_assoc.
  - rewrite Nat.eqb_refl. simpl. apply Z.ltb_ge in En.
    assert (Ef : (byte_length (linear_memory (instance r1))
                  <? p + byte_length (u8_bytes b)) = true)
      by (apply Z.ltb_lt; lia).
    rewrite Ef. eexists. split; [reflexivity|]. simpl.
    split; [|reflexivity]. rewrite Tr. now rewrite <- app_assoc.
Qed.

End Codec.


Section Dispatch.

Context {G : Type} (P : Platform) (X : OrbitExports G).

Abbreviation Realm := (Realm G).

(** X8.  A status other than 0 never yields a value: [invoke] throws,
    the decoder is not consulted (the same error results whatever the
    decoder), and conversely a value can only come from the decoder
    applied to the payload of a call that returned status 0. *)
Theorem invoke_failure_status_throws {T} (input : option Uint8Array)
  (call : Z -> Z -> Z -> M G Z) (onOk : Uint8Array -> M G T)
  (r : Realm) :
  (forall st payload r',
     invoke_exchange X input call r = (Normal (st, payload), r') ->
     st <> 0 ->
     exists e,
       invoke P X input call onOk r = (Throw e, r')
       /\ forall T' (onOk' : Uint8Array -> M G T'),
            invoke P X input call onOk' r = (Throw e, r'))
  /\ (forall v r'',
        invoke P X input call onOk r = (Normal v, r'') ->
        exists payload r',
          invoke_exchange X input call r = (Normal (0, payload), r')
          /\ onOk payload r' = (Normal v, r'')).
Proof.
  split.
  - intros st payload r' E Hst.
    assert (Hinv : forall T' (onOk' : Uint8Array -> M G T'),
              invoke P X input call onOk' r
              = invoke_result P onOk' st payload r').
    { intros T' onOk'.
      rewrite (invoke_after_exchange P X input call onOk' r r' _ E).
      reflexivity. }
    apply Z.eqb_neq in Hst.
    assert (Hres : exists e, forall T' (onOk' : Uint8Array -> M G T'),
              invoke_result P onOk' st payload r' = (Throw e, r')).
    { unfold invoke_result, STATUS_OK. rewrite Hst.
      unfold bind, of_completion, throw.
      destruct (bytesToJson P payload) as [detail|e];
        [|exists e; reflexivity].
      destruct (new_OrbitError P detail) as [e|e]; exists e; reflexivity. }
    destruct Hres as (e & He). exists e. split.
    + rewrite Hinv. apply He.
    + intros T' onOk'. rewrite Hinv. apply He.
  - intros v r'' Hv.
    destruct (invoke_exchange X input call r) as [[[st payload]|e] r'] eqn:E.
    2:{ rewrite (invoke_after_exchange P X input call onOk r r' _ E) in Hv.
        discriminate. }
    rewrite (invoke_after_exchange P X input call onOk r r' _ E) in Hv.
    simpl in Hv. unfold invoke_result, STATUS_OK in Hv.
    destruct (st =? 0) eqn:Hst.
    + apply Z.eqb_eq in Hst. subst st. exists payload, r'. split;
        [reflexivity | exact Hv].
    + exfalso. revert Hv. unfold bind, of_completion, throw.
      destruct (bytesToJson P payload) as [detail|e]; [|discriminate].
      destruct (new_OrbitError P detail) as [e|e]; discriminate.
Qed.

(** X9.  An exception raised by the entry point, or by the read of the
    result descriptor after it, is rethrown by [invoke] as it is, once
    the slot and the input buffer have been released; the decoder is
    not called and no [OrbitError] is made of it. *)
Theorem invoke_rethrows {T} (input : option Uint8Array)
  (call : Z -> Z -> Z -> M G Z) (onOk : Uint8Array -> M G T)
  (r r1 r2 rc : Realm) (inputSlice : OrbitSlice) (slot : Z)
  (called : Completion Z) (e : JsError) :
  writeInput X input r = (Normal inputSlice, r1) ->
  exports_orbit_alloc X SLICE_STRUCT_SIZE r1 = (Normal slot, r2) ->
  slot <> 0 ->
  call (ptr inputSlice) (len inputSlice) slot r2 = (called, rc) ->
  called = Throw e
  \/ ((exists st, called = Normal st)
      /\ fst (readSlice slot rc) = Throw e) ->
  exists r' before,
    invoke P X input call onOk r = (Throw e, r')
    /\ trace r'
       = trace rc ++ before
           ++ [EvDealloc slot SLICE_STRUCT_SIZE SLICE_STRUCT_SIZE]
           ++ release_of inputSlice
    /\ deallocs before = [].
Proof.
  intros Hw Ha Hslot Hcall Hthrow.
  destruct (invoke_exchange_entered X input call r r1 r2 rc inputSlice slot
              called Hw Ha Hslot Hcall)
    as (out & r' & ev & E & Tr & D & _ & O).
  assert (Hout : out = Throw e
                 /\ result_release called (fst (readSlice slot rc)) = []).
  { destruct Hthrow as [-> | ((st & ->) & Hr)].
    - split; [exact O | reflexivity].
    - rewrite Hr in O. rewrite Hr. split; [exact O | reflexivity]. }
  destruct Hout as (-> & Hnil). rewrite Hnil in Tr.
  exists r', ev. split; [|split; [exact Tr | exact D]].
  rewrite (invoke_after_exchange P X input call onOk r r' _ E). reflexivity.
Qed.

(** *** The full trace of an exchange *)

Lemma allocs_app (a b : list Event) : allocs (a ++ b) = allocs a ++ allocs b.
Proof. unfold allocs. apply flat_map_app. Qed.

Lemma entries_app (a b : list Event) :
  entries (a ++ b) = entries a ++ entries b.
Proof. unfold entries. apply flat_map_app. Qed.

Lemma accesses_are_silent (ev : list Event) :
  Forall is_access ev ->
  allocs ev = [] /\ entries ev = [] /\ deallocs ev = [].
Proof.
  induction 1 as [|e ev He _ (IHa & IHe & IHd)]; [repeat split|].
  destruct e; try destruct He. simpl. auto.
Qed.

Lemma release_of_silent (s : OrbitSlice) :
  allocs (release_of s) = [] /\ entries (release_of s) = [].
Proof. unfold release_of. destruct (ptr s =? 0); split; reflexivity. Qed.

Lemma readSlice_accesses (p : Z) (r : Realm) :
  exists ev,
    trace (snd (readSlice p r)) = trace r ++ ev /\ Forall is_access ev.
Proof.
  unfold readSlice, bind. rewrite getDataView_eq.
  set (r1 := set_cachedView (Some (memory_buffer r)) r).
  destruct (DataView_getUint32_current (memory_buffer r) p r1 eq_refl)
    as [c0 E0]. rewrite E0.
  destruct c0 as [p0|e];
    [|eexists; simpl; split; [reflexivity | repeat constructor]].
  match goal with |- context [DataView_getUint32 _ (p + 4) ?st] =>
    destruct (DataView_getUint32_current (memory_buffer r) (p + 4) st eq_refl)
      as [c1 E1]; rewrite E1 end.
  destruct c1 as [l0|e];
    [|eexists; simpl; split;
      [rewrite <- app_assoc; reflexivity | repeat constructor]].
  match goal with |- context [DataView_getUint32 _ (p + 8) ?st] =>
    destruct (DataView_getUint32_current (memory_buffer r) (p + 8) st eq_refl)
      as [c2 E2]; rewrite E2 end.
  destruct c2 as [c0|e]; eexists; simpl;
    (split; [rewrite <- !app_assoc; reflexivity | repeat constructor]).
Qed.

Lemma copySlice_accesses (s : OrbitSlice) (r : Realm) :
  exists ev,
    trace (snd (copySlice s r)) = trace r ++ ev /\ Forall is_access ev.
Proof.
  unfold copySlice. destruct (len s =? 0).
  - exists []. simpl. rewrite app_nil_r. split; constructor.
  - unfold bind. rewrite getUint8Memory_eq.
    unfold Uint8Array_slice. simpl. rewrite Nat.eqb_refl. simpl.
    eexists. split; [reflexivity|]. repeat constructor.
Qed.

(** What [writeInput] logged when it returned: at most the allocation
    of the input buffer and the write into it. *)
Lemma writeInput_trace (input : option Uint8Array) (r r1 : Realm)
  (s : OrbitSlice) :
  writeInput X input r = (Normal s, r1) ->
  exists wev,
    trace r1 = trace r ++ wev
    /\ allocs wev = (if ptr s =? 0 then [] else [(len s, ptr s)])
    /\ entries wev = [] /\ deallocs wev = []
    /\ (ptr s <> 0 -> cap s = len s).
Proof.
  intros Hw.
  assert (Hzero : (Normal (mkSlice 0 0 0), r) = (Normal s, r1) ->
                  exists wev,
                    trace r1 = trace r ++ wev
                    /\ allocs wev = (if ptr s =? 0 then []
                                     else [(len s, ptr s)])
                    /\ entries wev = [] /\ deallocs wev = []
                    /\ (ptr s <> 0 -> cap s = len s)).
  { intros [= <- <-]. exists []. rewrite app_nil_r. simpl.
    repeat split. }
  destruct input as [b|]; [|exact (Hzero Hw)].
  destruct (u8_bytes b) as [|c rest] eqn:Eb.
  { unfold writeInput in Hw. rewrite Eb in Hw. exact (Hzero Hw). }
  assert (Hne : u8_bytes b <> []) by (rewrite Eb; discriminate).
  destruct (writeInput_inv X b r r1 s Hne Hw)
    as (ra & Ea & Hp & _ & _ & _ & Hl & Hc & Tr).
  destruct (exports_orbit_alloc_spec X (byte_length (u8_bytes b)) r)
    as (p' & r' & E' & Ta). rewrite Ea in E'. injection E' as <- <-.
  eexists. split; [rewrite Tr, Ta, <- app_assoc; reflexivity|].
  simpl. apply Z.eqb_neq in Hp. rewrite Hp, Hl.
  repeat split. intros _. congruence.
Qed.

(** X10.  The whole trace of an exchange that obtained its slot: the
    entry point is called exactly once; the host allocates the input
    buffer (if there is input) and then the slot; and, after at most one
    release of a result buffer, it releases exactly what it allocated,
    in reverse order, each block with the size it was allocated with. *)
Theorem invoke_exchange_balanced (input : option Uint8Array)
  (name : string) (args : Z -> Z -> Z -> list Z)
  (f : Z -> Z -> Z -> WasmInstance G -> Completion Z * WasmInstance G)
  (r r1 r2 : Realm) (inputSlice : OrbitSlice) (slot : Z) :
  writeInput X input r = (Normal inputSlice, r1) ->
  exports_orbit_alloc X SLICE_STRUCT_SIZE r1 = (Normal slot, r2) ->
  slot <> 0 ->
  exists out r' ev result,
    invoke_exchange X input
      (fun p l q => exports_entry name (args p l q) (f p l q)) r
    = (out, r')
    /\ trace r' = trace r ++ ev
    /\ entries ev = [(name, args (ptr inputSlice) (len inputSlice) slot)]
    /\ allocs ev
       = (if ptr inputSlice =? 0 then []
          else [(len inputSlice, ptr inputSlice)])
         ++ [(SLICE_STRUCT_SIZE, slot)]
    /\ deallocs ev = result ++ rev (map release_for (allocs ev))
    /\ (length result <= 1)%nat.
Proof.
  intros Hw Ha Hslot.
  destruct (writeInput_trace input r r1 inputSlice Hw)
    as (wev & Tw & Aw & Ew & Dw & Hcap).
  destruct (exports_orbit_alloc_spec X SLICE_STRUCT_SIZE r1)
    as (p' & r' & E' & Ta). rewrite Ha in E'. injection E' as <- <-.
  set (call := fun p l q => exports_entry name (args p l q) (f p l q)).
  destruct (call (ptr inputSlice) (len inputSlice) slot r2)
    as [called rc] eqn:Hcall.
  assert (Tc : trace rc
               = trace r2
                   ++ [EvEntry name
                         (args (ptr inputSlice) (len inputSlice) slot)]).
  { pose proof (run_export_trace
                  (f (ptr inputSlice) (len inputSlice) slot)
                  (log (EvEntry name
                          (args (ptr inputSlice) (len inputSlice) slot)) r2))
      as Ht.
    unfold call, exports_entry in Hcall. rewrite Hcall in Ht. exact Ht. }
  unfold invoke_exchange. unfold bind at 1. rewrite Hw.
  unfold bind at 1. rewrite Ha.
  apply Z.eqb_neq in Hslot. rewrite Hslot. unfold try_finally.
  (* the try block *)
  unfold bind at 1. rewrite Hcall.
  assert (Hbody :
    exists out r3 ev0,
      match called with
      | Normal a =>
          (resultSlice <- readSlice slot ;;
           payload <- copySlice resultSlice ;;
           freeBuffer X resultSlice ;; ret (a, payload)) rc
      | Throw e => (Throw e, rc)
      end = (out, r3)
      /\ trace r3 = trace rc ++ ev0
      /\ allocs ev0 = [] /\ entries ev0 = []
      /\ (length (deallocs ev0) <= 1)%nat).
  { destruct called as [st|e].
    2:{ exists (Throw e), rc, []. rewrite app_nil_r. repeat split.
        simpl. lia. }
    unfold bind at 1.
    destruct (readSlice_accesses slot rc) as (e1 & T1 & S1).
    destruct (readSlice slot rc) as [[rs|e] rr]; simpl in T1.
    2:{ destruct (accesses_are_silent e1 S1) as (A1 & E1 & D1).
        exists (Throw e), rr, e1. rewrite D1. repeat split; auto. }
    unfold bind at 1.
    destruct (copySlice_accesses rs rr) as (e2 & T2 & S2).
    destruct (copySlice_quiet rs rr) as (payload & rp & Ec & _).
    rewrite Ec in *. simpl in T2. unfold bind at 1.
    destruct (freeBuffer_spec X rs rp) as (rf & Ef & Tf). rewrite Ef.
    destruct (accesses_are_silent e1 S1) as (A1 & E1 & D1).
    destruct (accesses_are_silent e2 S2) as (A2 & E2 & D2).
    destruct (release_of_silent rs) as (A3 & E3).
    exists (Normal (st, payload)), rf, (e1 ++ e2 ++ release_of rs).
    split; [reflexivity|]. split.
    { rewrite Tf, T2, T1. now rewrite !app_assoc. }
    rewrite !allocs_app, !entries_app, !deallocs_app.
    rewrite A1, A2, A3, E1, E2, E3, D1, D2. simpl.
    repeat split. unfold release_of. destruct (ptr rs =? 0); simpl; lia. }
  destruct Hbody as (out & r3 & ev0 & Eb & Tb & Ab & Eeb & Db).
  rewrite Eb.
  destruct (finally_block_spec X slot inputSlice r3) as (r4 & Ef & Tf).
  rewrite Ef.
  destruct (release_of_silent inputSlice) as (Ai & Ei).
  exists out, r4,
    (wev ++ [EvAlloc SLICE_STRUCT_SIZE slot]
         ++ [EvEntry name (args (ptr inputSlice) (len inputSlice) slot)]
         ++ ev0
         ++ [EvDealloc slot SLICE_STRUCT_SIZE SLICE_STRUCT_SIZE]
         ++ release_of inputSlice),
    (deallocs ev0).
  split; [reflexivity|]. split.
  { rewrite Tf, Tb, Tc, Ta, Tw. now rewrite <- !app_assoc. }
  rewrite !allocs_app, !entries_app, !deallocs_app.
  rewrite Aw, Ew, Dw, Ab, Eeb, Ai, Ei. simpl.
  rewrite ?app_nil_r.
  split; [reflexivity|]. split; [reflexivity|]. split; [|exact Db].
  f_equal. rewrite deallocs_release_of.
  destruct (ptr inputSlice =? 0) eqn:Ep; [reflexivity|].
  apply Z.eqb_neq in Ep. simpl. unfold release_for. simpl.
  rewrite (Hcap Ep). reflexivity.
Qed.

(** *** What a call never does *)

Lemma emits_ret {A} (Q : Event -> Prop) (a : A) : emits Q (@ret G A a).
Proof. intros r. exists []. simpl. rewrite app_nil_r. split; constructor. Qed.

Lemma emits_throw {A} (Q : Event -> Prop) (e : JsError) :
  emits Q (@throw G A e).
Proof. intros r. exists []. simpl. rewrite app_nil_r. split; constructor. Qed.

Lemma emits_of_completion {A} (Q : Event -> Prop) (c : Completion A) :
  emits Q (@of_completion G A c).
Proof. intros r. exists []. simpl. rewrite app_nil_r. split; constructor. Qed.

Lemma emits_bind {A B} (Q : Event -> Prop) (m : M G A) (k : A -> M G B) :
  emits Q m -> (forall a, emits Q (k a)) -> emits Q (bind m k).
Proof.
  intros Hm Hk r. unfold bind.
  destruct (Hm r) as (e1 & T1 & S1).
  destruct (m r) as [[a|e] r1]; simpl in *.
  - destruct (Hk a r1) as (e2 & T2 & S2).
    exists (e1 ++ e2). split.
    + rewrite T2, T1. now rewrite app_assoc.
    + apply Forall_app; split; assumption.
  - exists e1. split; assumption.
Qed.

Lemma emits_try_finally {A} (Q : Event -> Prop) (body : M G A)
  (fin : M G unit) :
  emits Q body -> emits Q fin -> emits Q (try_finally body fin).
Proof.
  intros Hb Hf r. unfold try_finally.
  destruct (Hb r) as (e1 & T1 & S1).
  destruct (body r) as [c r1]; simpl in *.
  destruct (Hf r1) as (e2 & T2 & S2).
  exists (e1 ++ e2). split.
  - destruct (fin r1) as [[u|e] r2]; simpl in *;
      rewrite T2, T1; now rewrite app_assoc.
  - apply Forall_app; split; assumption.
Qed.

Lemma emits_if {A} (Q : Event -> Prop) (c : bool) (a b : M G A) :
  emits Q a -> emits Q b -> emits Q (if c then a else b).
Proof. destruct c; auto. Qed.

Lemma emits_entry (Q : Event -> Prop) (name : string) (args : list Z)
  (f : WasmInstance G -> Completion Z * WasmInstance G) :
  Q (EvEntry name args) -> emits Q (exports_entry name args f).
Proof.
  intros HQ r. unfold exports_entry. rewrite run_export_trace. simpl.
  eexists. split; [reflexivity|]. repeat constructor. exact HQ.
Qed.

(** The events of the bridge's own steps: a property of events that
    holds of every allocation, of every access to memory, of every probe
    of the file system and of every release of a pointer other than
    null holds of whatever the steps around the entry point log. *)
Section HostSteps.

Variable Q : Event -> Prop.
Hypothesis Q_alloc : forall size p, Q (EvAlloc size p).
Hypothesis Q_access : forall op view current, Q (EvAccess op view current).
Hypothesis Q_exists : forall target, Q (EvExistsSync target).
Hypothesis Q_read : forall target enc, Q (EvReadFileSync target enc).
Hypothesis Q_release : forall p l c, p <> 0 -> Q (EvDealloc p l c).

Lemma emits_accesses {A} (m : M G A) :
  (forall r, exists ev,
     trace (snd (m r)) = trace r ++ ev /\ Forall is_access ev) ->
  emits Q m.
Proof.
  intros H r. destruct (H r) as (ev & T & Hacc). exists ev.
  split; [exact T|]. clear T.
  induction Hacc as [|e ev He _ IH]; constructor; [|exact IH].
  destruct e; try destruct He. apply Q_access.
Qed.

Lemma step_alloc (size : Z) : emits Q (exports_orbit_alloc X size).
Proof.
  intros r. destruct (exports_orbit_alloc_spec X size r) as (p & r' & E & T).
  rewrite E. simpl. eexists. split; [exact T|]. repeat constructor.
  apply Q_alloc.
Qed.

Lemma step_dealloc (p l c : Z) :
  p <> 0 -> emits Q (exports_orbit_dealloc X p l c).
Proof.
  intros Hp r.
  destruct (exports_orbit_dealloc_spec X p l c r) as (r' & E & T).
  rewrite E. simpl. eexists. split; [exact T|]. repeat constructor.
  now apply Q_release.
Qed.

Lemma step_freeInput (s : OrbitSlice) : emits Q (freeInput X s).
Proof.
  unfold freeInput. destruct (ptr s =? 0) eqn:E; simpl.
  - apply emits_ret.
  - apply step_dealloc. now apply Z.eqb_neq.
Qed.

Lemma step_freeBuffer (s : OrbitSlice) : emits Q (freeBuffer X s).
Proof.
  unfold freeBuffer. destruct (ptr s =? 0) eqn:E; simpl.
  - apply emits_ret.
  - apply step_dealloc. now apply Z.eqb_neq.
Qed.

Lemma step_readSlice (p : Z) : emits Q (@readSlice G p).
Proof. apply emits_accesses. apply readSlice_accesses. Qed.

Lemma step_copySlice (s : OrbitSlice) : emits Q (@copySlice G s).
Proof. apply emits_accesses. apply copySlice_accesses. Qed.

Lemma step_writeInput (input : option Uint8Array) :
  emits Q (writeInput X input).
Proof.
  intros r. unfold writeInput.
  destruct input as [b|];
    [|exists []; simpl; rewrite app_nil_r; split; constructor].
  destruct (_ =? 0);
    [exists []; simpl; rewrite app_nil_r; split; constructor|].
  unfold bind at 1.
  destruct (exports_orbit_alloc_spec X (byte_length (u8_bytes b)) r)
    as (p & ra & Ea & Ta). rewrite Ea.
  destruct (p =? 0).
  - simpl. eexists. split; [exact Ta|]. repeat constructor. apply Q_alloc.
  - unfold bind at 1. rewrite getUint8Memory_eq.
    unfold bind, Uint8Array_set. simpl.
    destruct (p <? 0).
    + eexists. simpl. split; [rewrite Ta, <- app_assoc; reflexivity|].
      repeat constructor; [apply Q_alloc | apply Q_access].
    + rewrite Nat.eqb_refl. simpl. destruct (_ <? _); simpl;
        (eexists; split; [rewrite Ta, <- app_assoc; reflexivity|]);
        repeat constructor; solve [apply Q_alloc | apply Q_access].
Qed.

Lemma step_invoke {T} (input : option Uint8Array)
  (call : Z -> Z -> Z -> M G Z) (onOk : Uint8Array -> M G T) :
  (forall a b c, emits Q (call a b c)) ->
  (forall b, emits Q (onOk b)) ->
  emits Q (invoke P X input call onOk).
Proof.
  intros Hcall Hok. unfold invoke. apply emits_bind.
  - unfold invoke_exchange.
    apply emits_bind; [apply step_writeInput|]. intros inputSlice.
    apply emits_bind; [apply step_alloc|]. intros slot.
    destruct (slot =? 0) eqn:Es.
    + apply emits_bind; [apply step_freeInput|]. intros _.
      apply emits_throw.
    + apply emits_try_finally.
      * apply emits_bind; [apply Hcall|]. intros st.
        apply emits_bind; [apply step_readSlice|]. intros rs.
        apply emits_bind; [apply step_copySlice|]. intros payload.
        apply emits_bind; [apply step_freeBuffer|]. intros _.
        apply emits_ret.
      * apply emits_bind; [|intros _; apply step_freeInput].
        apply step_dealloc. now apply Z.eqb_neq.
  - intros [st payload]. unfold invoke_result. simpl.
    apply emits_if; [apply Hok|].
    apply emits_bind; [apply emits_of_completion|]. intros detail.
    apply emits_bind; [apply emits_of_completion|]. intros e.
    apply emits_throw.
Qed.

Lemma step_encodeString (value : string) :
  emits Q (@encodeString G P value).
Proof.
  unfold encodeString. apply emits_if; [apply emits_ret|].
  apply emits_bind; [|intros b; apply emits_ret].
  intros r. exists []. simpl. rewrite app_nil_r. split; constructor.
Qed.

Lemma step_tryLoadFileInput (path : string) (enc : option string) :
  emits Q (@tryLoadFileInput G P path enc).
Proof.
  intros r. unfold tryLoadFileInput.
  destruct (nodeFs P) as [fs|];
    [|exists []; simpl; rewrite app_nil_r; split; constructor].
  destruct (_ =? _)%nat;
    [exists []; simpl; rewrite app_nil_r; split; constructor|].
  unfold catch_null, bind.
  destruct (String.prefix "file:" (String_trim P path));
    [destruct (URL_new P (String_trim P path))|]; cbv [ret throw];
    try (exists []; simpl; rewrite app_nil_r; split; constructor);
    unfold fs_existsSync;
    match goal with
    | |- context [existsSync fs ?t] =>
        destruct (existsSync fs t); simpl;
        [unfold fs_readFileSync;
         destruct (readFileSync fs t (default "utf8" enc)); simpl;
         eexists; (split; [rewrite <- app_assoc; reflexivity|]);
         repeat constructor; solve [apply Q_exists | apply Q_read]
        | eexists; split; [reflexivity|]; repeat constructor;
          apply Q_exists]
    end.
Qed.

Lemma step_resolveEvaluateInput (input : OrbitEvaluateInput) :
  emits Q (@resolveEvaluateInput G P input).
Proof.
  unfold resolveEvaluateInput. destruct input as [s|o].
  - apply emits_bind; [apply step_tryLoadFileInput|]. intros l.
    apply emits_ret.
  - destruct (source o); [apply emits_ret|].
    apply emits_if; [|apply emits_throw].
    apply emits_bind; [apply step_tryLoadFileInput|].
    intros [text|]; [apply emits_ret|].
    destruct (nodeFs P); apply emits_throw.
Qed.

(** An operation that encodes a string and hands it to one entry
    point. *)
Lemma step_operation {T} (value : string) (name : string)
  (args : Z -> Z -> Z -> list Z)
  (f : Z -> Z -> Z -> WasmInstance G -> Completion Z * WasmInstance G)
  (onOk : Uint8Array -> M G T) :
  (forall a, Q (EvEntry name a)) ->
  (forall b, emits Q (onOk b)) ->
  emits Q
    (bind (encodeString P value)
       (fun input =>
          invoke P X input
            (fun p l q => exports_entry name (args p l q) (f p l q)) onOk)).
Proof.
  intros Hname Hok. apply emits_bind; [apply step_encodeString|].
  intros input. apply step_invoke; [|exact Hok].
  intros a b c. apply emits_entry. apply Hname.
Qed.

End HostSteps.

Ltac host_steps :=
  first [ apply step_operation | apply step_invoke ];
  try (intros; exact I);
  try (intros; simpl; solve [ reflexivity | assumption
                            | apply emits_ret | apply emits_of_completion ]).

(** X11.  No public operation ever hands the null pointer to
    [orbit_dealloc]: every release in the trace of every operation has a
    pointer other than 0. *)
Theorem no_null_release :
  emits releases_nonnull (version P X)
  /\ (forall src, emits releases_nonnull (parse P X src))
  /\ (forall src, emits releases_nonnull (parseWithRecovery P X src))
  /\ (forall input, emits releases_nonnull (evaluate P X input))
  /\ (forall ast, emits releases_nonnull (evaluateAst P X ast))
  /\ (forall value pretty,
        emits releases_nonnull (valueToJson P X value pretty))
  /\ (forall value, emits releases_nonnull (valueToYaml P X value))
  /\ (forall value, emits releases_nonnull (valueToMsgpack P X value)).
Proof.
  unfold version, parse, parseWithRecovery, evaluate, evaluateAst,
    valueToJson, valueToYaml, valueToMsgpack, decode_string, decode_json.
  repeat split; intros;
    try (apply emits_bind;
         [apply step_resolveEvaluateInput; intros; simpl; auto | intros]);
    host_steps; try (intros; apply emits_entry; exact I).
Qed.


End Dispatch.

(** ** The input resolver of [evaluate] *)

Section Resolver.

Context {G : Type}.
Context (P : Platform) (X : OrbitExports G).
Abbreviation Realm := (Realm G).

(** X12.  [tryLoadFileInput] never throws and never touches the module.
    It probes the file system at most twice: [existsSync] on a target,
    and [readFileSync] on that same target only after [existsSync]; it
    yields text only after both.  Without a file system, or for a path
    that is blank after trimming, it yields [null] without probing. *)
Theorem tryLoadFileInput_probes (path : string) (enc : option string)
  (r : Realm) :
  exists c r' ev,
    tryLoadFileInput P path enc r = (Normal c, r')
    /\ trace r' = trace r ++ ev
    /\ instance r' = instance r
    /\ memory_buffer r' = memory_buffer r
    /\ (ev = []
        \/ exists target,
             ev = [EvExistsSync target]
             \/ ev = [EvExistsSync target;
                      EvReadFileSync target (default "utf8" enc)])
    /\ (forall text, c = Some text ->
        exists target,
          ev = [EvExistsSync target;
                EvReadFileSync target (default "utf8" enc)])
    /\ (nodeFs P = None \/ String.length (String_trim P path) = 0%nat ->
        c = None /\ r' = r).
Proof.
  unfold tryLoadFileInput.
  destruct (nodeFs P) as [fs|].
  2:{ exists None, r, []. rewrite app_nil_r.
      repeat split; auto; discriminate. }
  destruct (String.length (String_trim P path) =? 0)%nat eqn:El.
  { exists None, r, []. rewrite app_nil_r.
    repeat split; auto; discriminate. }
  apply Nat.eqb_neq in El.
  (* from here on a target is built or the constructor of URL throws *)
  assert (Hprobe : forall target,
            exists c r' ev,
              catch_null
                (found <- fs_existsSync fs target ;;
                 if negb found then ret None
                 else
                   contents <-
                     fs_readFileSync fs target (default "utf8" enc) ;;
                   ret (Some contents)) r = (Normal c, r')
              /\ trace r' = trace r ++ ev
              /\ instance r' = instance r
              /\ memory_buffer r' = memory_buffer r
              /\ (ev = [EvExistsSync target]
                  \/ ev = [EvExistsSync target;
                           EvReadFileSync target (default "utf8" enc)])
              /\ (forall text, c = Some text ->
                  ev = [EvExistsSync target;
                        EvReadFileSync target (default "utf8" enc)])).
  { intros target. unfold catch_null, bind, fs_existsSync, fs_readFileSync.
    destruct (existsSync fs target); simpl.
    - destruct (readFileSync fs target (default "utf8" enc)); simpl;
        eexists _, _, _; (split; [reflexivity|]); simpl;
        rewrite <- app_assoc; simpl; repeat split; auto; discriminate.
    - eexists _, _, _. split; [reflexivity|]. simpl.
      repeat split; auto; discriminate. }
  destruct (String.prefix "file:" (String_trim P path)) eqn:Ep.
  - destruct (URL_new P (String_trim P path)) as [u|].
    + destruct (Hprobe (UrlTarget u)) as (c & r' & ev & E & T & I & Mb & S & Tx).
      exists c, r', ev. split.
      { unfold catch_null in *. unfold bind at 1. cbv [ret]. exact E. }
      split; [exact T|]. split; [exact I|]. split; [exact Mb|].
      split; [right; eexists; exact S|].
      split; [intros text Ht; eexists; exact (Tx text Ht)|].
      intros [H|H]; [discriminate H | contradiction].
    + exists None, r, []. rewrite app_nil_r.
      repeat split; auto; discriminate.
  - destruct (Hprobe (PathTarget (String_trim P path)))
      as (c & r' & ev & E & T & I & Mb & S & Tx).
    exists c, r', ev. split.
    { unfold catch_null in *. unfold bind at 1. cbv [ret]. exact E. }
    split; [exact T|]. split; [exact I|]. split; [exact Mb|].
    split; [right; eexists; exact S|].
    split; [intros text Ht; eexists; exact (Tx text Ht)|].
    intros [H|H]; [discriminate H | contradiction].
Qed.

(** X13.  Resolving a plain string never throws: the string is taken
    as a path first and as Orbit source otherwise.  [evaluate] of the
    string continues as [evaluate] of an options object whose [source]
    is the text that was loaded, or the string itself when nothing was
    loaded; without a file system, or for a blank string, that is the
    string itself and the realm is untouched. *)
Theorem evaluate_string_input (s : string) (r : Realm) :
  exists loaded r',
    tryLoadFileInput P s None r = (Normal loaded, r')
    /\ resolveEvaluateInput P (InputString s) r
       = (Normal (default s loaded), r')
    /\ evaluate P X (InputString s) r
       = evaluate P X
           (InputOptions (mkOptions None (Some (default s loaded)) None)) r'
    /\ (nodeFs P = None \/ String.length (String_trim P s) = 0%nat ->
        loaded = None /\ r' = r).
Proof.
  destruct (tryLoadFileInput_probes s None r)
    as (loaded & r' & ev & E & _ & _ & _ & _ & _ & Hnone).
  exists loaded, r'. split; [exact E|].
  assert (Hres : resolveEvaluateInput P (InputString s) r
                 = (Normal (default s loaded), r')).
  { unfold resolveEvaluateInput, bind. rewrite E. reflexivity. }
  split; [exact Hres|]. split; [|exact Hnone].
  unfold evaluate at 1. unfold bind at 1. rewrite Hres. reflexivity.
Qed.

End Resolver.

(** ** Loading and validating the module *)

Section Loading.

Context {Imports WasmModule : Type}.
Context (P : Platform) (L : Loader Imports WasmModule).

Lemma check_required_first (before after : list string) (key : string)
  (e : gmap string ExportValue) :
  (forall k, In k before -> is_Some (e !! k)) ->
  e !! key = None ->
  check_required (before ++ key :: after) e
  = Throw (Error ("orbit wasm is missing required export: " +:+ key)).
Proof.
  induction before as [|k before IH]; intros Hb Hk; simpl.
  - rewrite Hk. reflexivity.
  - destruct (Hb k (or_introl eq_refl)) as [v ->].
    apply IH; [|exact Hk]. intros k' Hin. apply Hb. now right.
Qed.

Lemma check_required_all (keys : list string) (e : gmap string ExportValue) :
  (forall k, In k keys -> is_Some (e !! k)) ->
  check_required keys e = Normal tt.
Proof.
  induction keys as [|k keys IH]; intros Hall; simpl; [reflexivity|].
  destruct (Hall k (or_introl eq_refl)) as [v ->].
  apply IH. intros k' Hin. apply Hall. now right.
Qed.

(** X14.  [validateExports] reports the first required export, in the
    order of the [required] list, that the instance lacks, by name; with
    every required export present it accepts the instance exactly when
    [memory] is a [WebAssembly.Memory], and otherwise reports the memory
    export. *)
Theorem validateExports_reports (e : gmap string ExportValue) :
  (forall before key after,
     required = before ++ key :: after ->
     (forall k, In k before -> is_Some (e !! k)) ->
     e !! key = None ->
     validateExports e
     = Throw (Error ("orbit wasm is missing required export: " +:+ key)))
  /\ ((forall k, In k required -> is_Some (e !! k)) ->
      (e !! "memory" = Some ExportMemory -> validateExports e = Normal tt)
      /\ (e !! "memory" <> Some ExportMemory ->
          validateExports e
          = Throw (Error "orbit wasm did not export a WebAssembly.Memory"))).
Proof.
  split.
  - intros before key after Hr Hb Hk. unfold validateExports.
    rewrite Hr, (check_required_first before after key e Hb Hk).
    reflexivity.
  - intros Hall. unfold validateExports.
    rewrite (check_required_all required e Hall). simpl.
    split; [intros ->; reflexivity|].
    destruct (e !! "memory") as [[]|]; intros Hm;
      try reflexivity; now destruct Hm.
Qed.

(** The location [loadWasmBytes] reads: the override when it is a [URL]
    or a non-empty string, the packaged module otherwise. *)
Lemma loadWasmBytes_default (u : option UrlInput) :
  url_truthy u = false ->
  loadWasmBytes P L u = loadWasmBytes P L None.
Proof.
  destruct u as [[[|c s]|u]|]; simpl; try discriminate; reflexivity.
Qed.

(** X15.  Bytes come out of [loadWasmBytes] through exactly one channel.
    When it succeeds there is a target location such that either the
    target is a [file:] URL, the platform is Node and the bytes are what
    [readFile] returned for it, or the target is not a [file:] URL,
    [fetch] exists, answered with an [ok] response, and the bytes are
    the body of that response.  The target is the packaged module's
    location when the override is absent or the empty string. *)
Theorem loadWasmBytes_success (u : option UrlInput) (bytes : list byte) :
  loadWasmBytes P L u = Normal bytes ->
  exists target,
    (url_truthy u = false -> target = DEFAULT_WASM_URL L)
    /\ (forall v, u = Some v -> url_truthy u = true ->
        normalizeUrl P L v = Normal target)
    /\ ((protocol target = "file:"
         /\ isNodeLike P = true
         /\ readFile L target = Normal bytes)
        \/ (protocol target <> "file:"
            /\ exists do_fetch response,
                fetch L = Some do_fetch
                /\ do_fetch target = Normal response
                /\ ok response = true
                /\ arrayBuffer response = Normal bytes)).
Proof.
  unfold loadWasmBytes.
  set (chosen := match u with
                 | Some v => if url_truthy u then normalizeUrl P L v
                             else Normal (DEFAULT_WASM_URL L)
                 | None => Normal (DEFAULT_WASM_URL L)
                 end).
  destruct chosen as [target|e] eqn:Ec; simpl; [|discriminate].
  intros Hload. exists target. split; [|split].
  - intros Hf. subst chosen. destruct u as [v|].
    + rewrite Hf in Ec. congruence.
    + congruence.
  - intros v -> Ht. subst chosen. rewrite Ht in Ec. exact Ec.
  - destruct (String.eqb (protocol target) "file:") eqn:Ep.
    + apply String.eqb_eq in Ep. left.
      destruct (isNodeLike P); [auto | discriminate].
    + apply String.eqb_neq in Ep. right. split; [exact Ep|].
      destruct (fetch L) as [do_fetch|]; [|discriminate].
      destruct (do_fetch target) as [response|e] eqn:Ef; simpl in Hload;
        [|discriminate].
      destruct (ok response) eqn:Eo; simpl in Hload; [|discriminate].
      exists do_fetch, response. auto.
Qed.

(** X16.  On a platform that is not Node and has no [fetch], a module
    can only come from the options: with no hook, no precompiled module
    and no bytes, [createOrbit] throws the error of [loadWasmBytes],
    whatever location is configured: the location is invalid, or is a
    file, or needs [fetch]. *)
Theorem createOrbit_needs_a_channel
  (options : option (OrbitInitOptions Imports WasmModule)) :
  isNodeLike P = false ->
  fetch L = None ->
  (forall o, options = Some o ->
     instantiate o = None /\ module o = None /\ binary o = None) ->
  exists e,
    createOrbit P L options = Throw e
    /\ loadWasmBytes P L (o ← options; url o) = Throw e
    /\ (e = TypeError "Invalid URL"
        \/ e = Error "File URLs are not supported in this environment. Provide wasm bytes via options.binary instead."
        \/ e = Error "Global fetch is unavailable. Provide wasm bytes via options.binary.").
Proof.
  intros Hnode Hfetch Hopt.
  assert (Hl : exists e,
             loadWasmBytes P L (o ← options; url o) = Throw e
             /\ (e = TypeError "Invalid URL"
                 \/ e = Error "File URLs are not supported in this environment. Provide wasm bytes via options.binary instead."
                 \/ e = Error "Global fetch is unavailable. Provide wasm bytes via options.binary.")).
  { unfold loadWasmBytes. rewrite Hnode, Hfetch.
    match goal with
    | |- context [cbind ?c _] => destruct c as [target|e] eqn:Ec
    end; simpl.
    - destruct (String.eqb (protocol target) "file:"); eauto.
    - exists e. split; [reflexivity|]. left.
      destruct (o ← options; url o) as [v|]; [|discriminate].
      destruct (url_truthy (Some v)); [|discriminate].
      unfold normalizeUrl in Ec. destruct v as [s|u]; [|discriminate].
      destruct (URL_new P s); [discriminate|].
      destruct (URL_new_base L s (DEFAULT_WASM_URL L)); [discriminate|].
      congruence. }
  destruct Hl as (e & Hl & He). exists e. split; [|split; assumption].
  unfold createOrbit, instantiateOrbit.
  destruct options as [o|]; simpl in *.
  - destruct (Hopt o eq_refl) as (-> & -> & ->). rewrite Hl. reflexivity.
  - rewrite Hl. reflexivity.
Qed.

(** X17.  [bufferSourceToUint8Array] copies an [ArrayBuffer] whole and,
    of a view that lies inside its buffer, exactly the window of the
    view: [byteLength] bytes from [byteOffset]. *)
Theorem bufferSourceToUint8Array_window (content : list byte)
  (byteOffset byteLength : nat) :
  (byteOffset + byteLength <= length content)%nat ->
  exists bytes,
    bufferSourceToUint8Array (SourceView content byteOffset byteLength)
    = Normal bytes
    /\ bytes = take byteLength (drop byteOffset content)
    /\ length bytes = byteLength
    /\ (forall i, (i < byteLength)%nat ->
        bytes !! i = content !! (byteOffset + i)%nat)
    /\ (byteOffset = 0%nat -> byteLength = length content ->
        bufferSourceToUint8Array (SourceView content byteOffset byteLength)
        = bufferSourceToUint8Array (SourceArrayBuffer content)).
Proof.
  intros Hin. eexists. split; [reflexivity|].
  rewrite !Nat.min_l by lia.
  replace (byteOffset + byteLength - byteOffset)%nat with byteLength by lia.
  split; [reflexivity|]. split; [|split].
  - rewrite length_take, length_drop. lia.
  - intros i Hi. rewrite lookup_take_lt by exact Hi.
    now rewrite lookup_drop.
  - intros -> ->. simpl. rewrite Nat.min_l by lia.
    rewrite Nat.sub_0_r, drop_0, firstn_all. reflexivity.
Qed.

End Loading.

(** ** The packaging script *)

Section ScriptFacts.

Import DownloadWasm.

Context (P : Platform) (W : Host).



(** X18.  With a non-empty [ORBIT_WASM_TAG] the override is the only
    candidate, whatever the version is.  Without it, a version string
    [v] gives one or two distinct candidates, the first of which is [v]
    prefixed with the letter v; the version itself is a candidate
    exactly when it does not start with that letter already. *)
Theorem buildTagCandidates_shape :
  (forall tag version,
     ORBIT_WASM_TAG W = Some tag -> tag <> EmptyString ->
     buildTagCandidates P W version = Normal [tag])
  /\ (truthy (ORBIT_WASM_TAG W) = false ->
      forall v,
      exists cands,
        buildTagCandidates P W (JString v) = Normal cands
        /\ head cands = Some ("v" +:+ v)
        /\ NoDup cands
        /\ (1 <= length cands <= 2)%nat
        /\ (In v cands <-> String.prefix "v" v = false)).
Proof.
  assert (Hne : forall v : string, "v" +:+ v <> v).
  { intros v E. change ("v" +:+ v) with (String "v" v) in E.
    apply (f_equal String.length) in E. simpl in E. lia. }
  split.
  - intros tag version Ht Hn. unfold buildTagCandidates. rewrite Ht.
    destruct tag; [contradiction | reflexivity].
  - intros Hf v. unfold buildTagCandidates. rewrite Hf.
    eexists. split; [reflexivity|]. split; [reflexivity|].
    destruct (String.prefix "v" v) eqn:Ep.
    + split; [repeat constructor; set_solver|]. split; [simpl; lia|].
      split; [|discriminate].
      intros [E|[]]. now apply Hne in E.
    + split.
      { repeat constructor; [|set_solver].
        intros Hin. apply list_elem_of_singleton in Hin. now apply Hne in Hin. }
      split; [simpl; lia|]. split; [reflexivity|].
      intros _. right. now left.
Qed.

(** X19.  One download attempt sends exactly one request, to the release
    URL of the tag.  It writes nothing unless the response is [ok] and
    its body could be read; what it writes is that body, first to [src]
    and then to [dist]; and when it returns normally both were
    written. *)
Theorem downloadWasmForTag_effects (tag : string) (h : list Effect) :
  exists out ev response_at,
    downloadWasmForTag W tag h = (out, h ++ ev)
    /\ response_at = fetch W (h ++ [ConsoleLog ("[orbit-js]: Fetching "
                                      +:+ assetName tag +:+ " for tag "
                                      +:+ tag +:+ "...")])
                       (release_url tag)
    /\ fetches ev = [release_url tag]
    /\ (forall bytes,
          (exists response,
             response_at = Normal response /\ ok response = true
             /\ arrayBuffer response = Normal bytes) ->
          exists n, writes ev = take n [(wasmOut, bytes); (distWasmOut, bytes)])
    /\ ((forall response bytes,
           response_at = Normal response -> ok response = true ->
           arrayBuffer response <> Normal bytes) ->
        writes ev = [] /\ exists e, out = Throw e)
    /\ (out = Normal tt ->
        exists response bytes,
          response_at = Normal response /\ ok response = true
          /\ arrayBuffer response = Normal bytes
          /\ writes ev = [(wasmOut, bytes); (distWasmOut, bytes)]).
Proof.
  unfold downloadWasmForTag, andThen, console_log, perform, raise, lift.
  set (h1 := h ++ [ConsoleLog _]).
  destruct (fetch W h1 (release_url tag)) as [response|e] eqn:Ef.
  2:{ eexists _, _, _. split; [unfold h1; rewrite <- !app_assoc; reflexivity|].
      split; [reflexivity|]. split; [reflexivity|].
      split; [intros bytes (resp & Hr & _); discriminate Hr|].
      split; [intros _; split; [reflexivity | eauto]|]. discriminate. }
  destruct (ok response) eqn:Eo; simpl.
  2:{ eexists _, _, _. split; [unfold h1; rewrite <- !app_assoc; reflexivity|].
      split; [reflexivity|]. split; [reflexivity|].
      split; [intros bytes (resp & [= <-] & Hok & _); congruence|].
      split; [intros _; split; [reflexivity | eauto]|]. discriminate. }
  destruct (arrayBuffer response) as [bytes|e] eqn:Eb.
  2:{ eexists _, _, _. split; [unfold h1; rewrite <- !app_assoc; reflexivity|].
      split; [reflexivity|]. split; [reflexivity|].
      split; [intros bytes (resp & [= <-] & _ & Hb); congruence|].
      split; [intros _; split; [reflexivity | eauto]|]. discriminate. }
  assert (Hsome : forall P0 : Prop,
            (forall response0 bytes0,
               Normal response = Normal response0 -> ok response0 = true ->
               arrayBuffer response0 <> Normal bytes0) -> P0).
  { intros P0 Hno. exfalso. exact (Hno response bytes eq_refl Eo Eb). }
  assert (Hbytes : forall bytes0,
            (exists response0,
               Normal response = Normal response0 /\ ok response0 = true
               /\ arrayBuffer response0 = Normal bytes0) -> bytes0 = bytes).
  { intros bytes0 (resp & [= <-] & _ & Hb). congruence. }
  destruct (fs_mkdir W _ "src") as [[]|e].
  2:{ eexists _, _, _. split; [unfold h1; rewrite <- !app_assoc; reflexivity|].
      split; [reflexivity|]. split; [reflexivity|].
      split; [intros b0 Hb0; exists 0%nat; reflexivity|].
      split; [apply Hsome | discriminate]. }
  destruct (fs_writeFile W _ wasmOut bytes) as [[]|e].
  2:{ eexists _, _, _. split; [unfold h1; rewrite <- !app_assoc; reflexivity|].
      split; [reflexivity|]. split; [reflexivity|].
      split; [intros b0 Hb0; rewrite (Hbytes b0 Hb0); exists 1%nat;
              reflexivity|].
      split; [apply Hsome | discriminate]. }
  destruct (fs_mkdir W _ "dist") as [[]|e].
  2:{ eexists _, _, _. split; [unfold h1; rewrite <- !app_assoc; reflexivity|].
      split; [reflexivity|]. split; [reflexivity|].
      split; [intros b0 Hb0; rewrite (Hbytes b0 Hb0); exists 1%nat;
              reflexivity|].
      split; [apply Hsome | discriminate]. }
  destruct (fs_writeFile W _ distWasmOut bytes) as [[]|e].
  2:{ eexists _, _, _. split; [unfold h1; rewrite <- !app_assoc; reflexivity|].
      split; [reflexivity|]. split; [reflexivity|].
      split; [intros b0 Hb0; rewrite (Hbytes b0 Hb0); exists 2%nat;
              reflexivity|].
      split; [apply Hsome | discriminate]. }
  eexists _, _, _. split; [unfold h1; rewrite <- !app_assoc; reflexivity|].
  split; [reflexivity|]. split; [reflexivity|].
  split; [intros b0 Hb0; rewrite (Hbytes b0 Hb0); exists 2%nat; reflexivity|].
  split; [apply Hsome|].
  intros _. exists response, bytes. auto.
Qed.



(** X21.  When the version cannot be read or the candidates cannot be
    built, [main] throws that error and does nothing: no request, no
    write, no output.  The version cannot be read, in particular, when
    the manifest has no [version] member or an empty one. *)
Theorem main_without_version :
  (forall e, readPackageVersion P W = Throw e ->
     main P W [] = (Throw e, []))
  /\ (forall version e,
      readPackageVersion P W = Normal version ->
      buildTagCandidates P W version = Throw e ->
      main P W [] = (Throw e, []))
  /\ (forall raw members,
      package_json W = Normal raw ->
      JSON_parse P raw = Some (JObject members) ->
      own_property members "version" = None
      \/ own_property members "version" = Some (JString EmptyString) ->
      main P W []
      = (Throw (Error "[orbit-js]: Missing version field in package.json"),
         [])).
Proof.
  split; [|split].
  - intros e He. unfold main, andThen, lift. now rewrite He.
  - intros version e Hv Hc. unfold main, andThen, lift. now rewrite Hv, Hc.
  - intros raw members Hr Hp Hm.
    unfold main, andThen, lift, readPackageVersion.
    rewrite Hr, Hp. simpl. destruct Hm as [-> | ->]; reflexivity.
Qed.

End ScriptFacts.

(** ** Runs of the further properties *)

Section MoreRuns.

Import Demo Scenes.

(** The descriptor the answering core left in the slot. *)
Lemma readSlice_decodes_witness :
  readSlice 13 (after_call answering 64)
  = (Normal (mkSlice 25 5 5), after_read answering 64)
  /\ 13 + 12 <= byte_length (linear_memory (instance (after_call answering 64)))
  /\ 0 <= 25 < 4294967296
  /\ instance (after_read answering 64) = instance (after_call answering 64).
Proof.
  assert (Hr : readSlice 13 (after_call answering 64)
               = (Normal (mkSlice 25 5 5), after_read answering 64))
    by (vm_compute; reflexivity).
  destruct (readSlice_decodes 13 _ _ _ Hr)
    as (_ & Hin & _ & Hp & _ & _ & Hi).
  split; [exact Hr|]. split; [exact Hin|]. split; [exact Hp | exact Hi].
Defined.

(** In a memory of 64 bytes a descriptor can be read at 52 and not at
    60. *)
Lemma readSlice_bounds_witness :
  (exists s r', readSlice 52 (boot 64) = (Normal s, r'))
  /\ (exists r',
        readSlice 60 (boot 64)
        = (Throw (RangeError "Offset is outside the bounds of the DataView"),
           r')).
Proof.
  assert (Hin : 0 <= 52
                /\ 52 + 12 <= byte_length (linear_memory (instance (boot 64))))
    by (split; [lia | vm_compute; intro; discriminate]).
  assert (Hout : 60 < 0
                 \/ byte_length (linear_memory (instance (boot 64))) < 60 + 12)
    by (right; vm_compute; reflexivity).
  split.
  - destruct (readSlice_bounds 52 (boot 64)) as (Hok & _). exact (Hok Hin).
  - destruct (readSlice_bounds 60 (boot 64)) as (_ & Hbad). exact (Hbad Hout).
Defined.

(** A descriptor of ten bytes at 60 in a memory of 64 bytes: four bytes
    are copied. *)
Lemma copySlice_segment_witness :
  0 <= ptr (mkSlice 60 10 10)
  /\ 0 <= len (mkSlice 60 10 10)
  /\ exists a r',
       copySlice (mkSlice 60 10 10) (boot 64) = (Normal a, r')
       /\ byte_length (u8_bytes a) = 4.
Proof.
  assert (Hp : 0 <= ptr (mkSlice 60 10 10)) by (simpl; lia).
  assert (Hl : 0 <= len (mkSlice 60 10 10)) by (simpl; lia).
  split; [exact Hp|]. split; [exact Hl|].
  destruct (copySlice_segment (mkSlice 60 10 10) (boot 64) Hp Hl)
    as (a & r' & E & _ & Hn & _).
  exists a, r'. split; [exact E|]. rewrite Hn. vm_compute. reflexivity.
Defined.

(** The input of the demos, written and copied back. *)
Lemma write_then_copy_witness :
  writeInput answering (Some app_source) (ready 64)
  = (Normal (mkSlice 8 5 5), after_write answering 64)
  /\ exists a r2,
       copySlice (mkSlice 8 5 5) (after_write answering 64) = (Normal a, r2)
       /\ u8_bytes a = u8_bytes app_source.
Proof.
  assert (Hw : writeInput answering (Some app_source) (ready 64)
               = (Normal (mkSlice 8 5 5), after_write answering 64))
    by (vm_compute; reflexivity).
  split; [exact Hw|].
  exact (write_then_copy answering app_source _ _ _ Hw).
Defined.

(** Writing the input of the demos leaves the byte at 20 as it was. *)
Lemma writeInput_frame_witness :
  u8_bytes app_source <> []
  /\ writeInput answering (Some app_source) (ready 64)
     = (Normal (mkSlice 8 5 5), after_write answering 64)
  /\ exists ra,
       exports_orbit_alloc answering (byte_length (u8_bytes app_source))
         (ready 64) = (Normal 8, ra)
       /\ linear_memory (instance (after_write answering 64)) !! 20%nat
          = linear_memory (instance ra) !! 20%nat.
Proof.
  assert (Hne : u8_bytes app_source <> []) by (vm_compute; discriminate).
  assert (Hw : writeInput answering (Some app_source) (ready 64)
               = (Normal (mkSlice 8 5 5), after_write answering 64))
    by (vm_compute; reflexivity).
  split; [exact Hne|]. split; [exact Hw|].
  destruct (writeInput_frame answering app_source _ _ _ Hne Hw)
    as (ra & Ea & _ & Hout).
  exists ra. split; [exact Ea|]. apply Hout. right. simpl. lia.
Defined.

(** A memory of eight bytes has no room for the input. *)
Lemma invoke_input_allocation_failure_witness :
  u8_bytes app_source <> []
  /\ exports_orbit_alloc answering (byte_length (u8_bytes app_source))
       (ready 8)
     = (Normal 0,
        snd (exports_orbit_alloc answering
               (byte_length (u8_bytes app_source)) (ready 8)))
  /\ fst (invoke node answering (Some app_source) (call_parse answering)
            (decode_json node) (ready 8))
     = Throw (Error "orbit wasm could not allocate input buffer").
Proof.
  assert (Hne : u8_bytes app_source <> []) by (vm_compute; discriminate).
  assert (Ha : exports_orbit_alloc answering
                 (byte_length (u8_bytes app_source)) (ready 8)
               = (Normal 0,
                  snd (exports_orbit_alloc answering
                         (byte_length (u8_bytes app_source)) (ready 8))))
    by (vm_compute; reflexivity).
  split; [exact Hne|]. split; [exact Ha|].
  destruct (invoke_input_allocation_failure node answering app_source
              (call_parse answering) (decode_json node) _ _ Hne Ha)
    as (E & _).
  rewrite E. reflexivity.
Defined.

(** The careless core returns 4096 in a memory of 64 bytes. *)
Lemma invoke_input_write_failure_witness :
  u8_bytes app_source <> []
  /\ exports_orbit_alloc careless (byte_length (u8_bytes app_source))
       (ready 64)
     = (Normal 4096,
        snd (exports_orbit_alloc careless
               (byte_length (u8_bytes app_source)) (ready 64)))
  /\ 4096 <> 0
  /\ exists r',
       invoke node careless (Some app_source) (call_parse careless)
         (decode_json node) (ready 64)
       = (Throw (RangeError "offset is out of bounds"), r')
       /\ deallocs (trace r') = [].
Proof.
  assert (Hne : u8_bytes app_source <> []) by (vm_compute; discriminate).
  assert (Ha : exports_orbit_alloc careless
                 (byte_length (u8_bytes app_source)) (ready 64)
               = (Normal 4096,
                  snd (exports_orbit_alloc careless
                         (byte_length (u8_bytes app_source)) (ready 64))))
    by (vm_compute; reflexivity).
  assert (Hp : 4096 <> 0) by lia.
  assert (Hbad : 4096 < 0
                 \/ byte_length
                      (linear_memory
                         (instance
                            (snd (exports_orbit_alloc careless
                                    (byte_length (u8_bytes app_source))
                                    (ready 64)))))
                    < 4096 + byte_length (u8_bytes app_source))
    by (right; vm_compute; reflexivity).
  split; [exact Hne|]. split; [exact Ha|]. split; [exact Hp|].
  destruct (invoke_input_write_failure node careless app_source
              (call_parse careless) (decode_json node) _ _ _ Hne Ha Hp Hbad)
    as (r' & E & Tr & _).
  exists r'. split; [exact E|]. rewrite Tr. reflexivity.
Defined.

(** A rejected parse throws, whatever the decoder. *)
Lemma invoke_failure_status_throws_witness :
  invoke_exchange rejecting (Some app_source) (call_parse rejecting)
    (ready 160)
  = (Normal (1, copied error_payload), snd (exchange rejecting 160))
  /\ 1 <> 0
  /\ exists e,
       invoke node rejecting (Some app_source) (call_parse rejecting)
         (decode_json node) (ready 160)
       = (Throw e, snd (exchange rejecting 160))
       /\ invoke node rejecting (Some app_source) (call_parse rejecting)
            (decode_string node) (ready 160)
          = (Throw e, snd (exchange rejecting 160)).
Proof.
  assert (Hst : 1 <> 0) by lia.
  assert (He : invoke_exchange rejecting (Some app_source)
                 (call_parse rejecting) (ready 160)
               = (Normal (1, copied error_payload),
                  snd (exchange rejecting 160)))
    by (vm_compute; reflexivity).
  split; [exact He|]. split; [exact Hst|].
  destruct (invoke_failure_status_throws node rejecting (Some app_source)
              (call_parse rejecting) (decode_json node) (ready 160))
    as (Hfail & _).
  destruct (Hfail 1 (copied error_payload) (snd (exchange rejecting 160))
              He Hst) as (e & E & Hany).
  exists e. split; [exact E | exact (Hany string (decode_string node))].
Defined.

(** The trap of the entry point comes out of [invoke] as it is, after
    the release of the slot and of the input buffer. *)
Lemma invoke_rethrows_witness :
  writeInput trapping (Some app_source) (ready 64)
  = (Normal (mkSlice 8 5 5), after_write trapping 64)
  /\ exports_orbit_alloc trapping SLICE_STRUCT_SIZE (after_write trapping 64)
     = (Normal 13, after_slot trapping 64)
  /\ call_parse trapping 8 5 13 (after_slot trapping 64)
     = (Throw (RuntimeError "unreachable"), after_call trapping 64)
  /\ exists r' before,
       invoke node trapping (Some app_source) (call_parse trapping)
         (decode_json node) (ready 64)
       = (Throw (RuntimeError "unreachable"), r')
       /\ trace r'
          = trace (after_call trapping 64) ++ before
              ++ [EvDealloc 13 12 12; EvDealloc 8 5 5]
       /\ deallocs before = [].
Proof.
  assert (Hw : writeInput trapping (Some app_source) (ready 64)
               = (Normal (mkSlice 8 5 5), after_write trapping 64))
    by (vm_compute; reflexivity).
  assert (Ha : exports_orbit_alloc trapping SLICE_STRUCT_SIZE
                 (after_write trapping 64)
               = (Normal 13, after_slot trapping 64))
    by (vm_compute; reflexivity).
  assert (Hs : 13 <> 0) by lia.
  assert (Hc : call_parse trapping (ptr (mkSlice 8 5 5))
                 (len (mkSlice 8 5 5)) 13 (after_slot trapping 64)
               = (Throw (RuntimeError "unreachable"), after_call trapping 64))
    by (vm_compute; reflexivity).
  split; [exact Hw|]. split; [exact Ha|]. split; [exact Hc|].
  exact (invoke_rethrows node trapping (Some app_source)
           (call_parse trapping) (decode_json node) _ _ _ _ _ _ _ _
           Hw Ha Hs Hc (or_introl eq_refl)).
Defined.

(** The exchange of a successful parse: one call, two allocations, and
    the releases of the result buffer, the slot and the input buffer. *)
Lemma invoke_exchange_balanced_witness :
  writeInput answering (Some app_source) (ready 64)
  = (Normal (mkSlice 8 5 5), after_write answering 64)
  /\ exports_orbit_alloc answering SLICE_STRUCT_SIZE (after_write answering 64)
     = (Normal 13, after_slot answering 64)
  /\ exists out r' ev result,
       invoke_exchange answering (Some app_source) (call_parse answering)
         (ready 64) = (out, r')
       /\ trace r' = trace (ready 64) ++ ev
       /\ entries ev = [("orbit_parse", [8; 5; 13])]
       /\ allocs ev = [(5, 8); (12, 13)]
       /\ deallocs ev = result ++ [(13, 12, 12); (8, 5, 5)].
Proof.
  assert (Hw : writeInput answering (Some app_source) (ready 64)
               = (Normal (mkSlice 8 5 5), after_write answering 64))
    by (vm_compute; reflexivity).
  assert (Ha : exports_orbit_alloc answering SLICE_STRUCT_SIZE
                 (after_write answering 64)
               = (Normal 13, after_slot answering 64))
    by (vm_compute; reflexivity).
  assert (Hs : 13 <> 0) by lia.
  split; [exact Hw|]. split; [exact Ha|].
  destruct (invoke_exchange_balanced answering (Some app_source)
              "orbit_parse" (fun p l q => [p; l; q]) (orbit_parse answering)
              _ _ _ _ _ Hw Ha Hs)
    as (out & r' & ev & result & E & Tr & En & Al & De & _).
  exists out, r', ev, result.
  split; [exact E|]. split; [exact Tr|]. split; [exact En|].
  split; [exact Al|]. rewrite De, Al. reflexivity.
Defined.

(** On Node a path that is blank after trimming is not looked up. *)
Lemma tryLoadFileInput_probes_witness :
  String.length (String_trim node "   ") = 0%nat
  /\ tryLoadFileInput node "   " None (boot 8) = (Normal None, boot 8).
Proof.
  assert (Hb : String.length (String_trim node "   ") = 0%nat)
    by (vm_compute; reflexivity).
  split; [exact Hb|].
  destruct (tryLoadFileInput_probes node "   " None (boot 8))
    as (c & r' & ev & E & _ & _ & _ & _ & _ & Hnone).
  destruct (Hnone (or_intror Hb)) as (-> & ->). exact E.
Defined.

(** In a browser a string is always source text. *)
Lemma evaluate_string_input_witness :
  nodeFs browser = None
  /\ evaluate browser answering (InputString "/etc/app.orbit") (ready 64)
     = evaluate browser answering
         (InputOptions (mkOptions None (Some "/etc/app.orbit") None))
         (ready 64).
Proof.
  assert (Hn : nodeFs browser = None) by reflexivity.
  split; [exact Hn|].
  destruct (evaluate_string_input browser answering "/etc/app.orbit"
              (ready 64)) as (loaded & r' & _ & _ & E & Hnone).
  destruct (Hnone (or_introl Hn)) as (-> & ->). exact E.
Defined.

(** A module without [orbit_evaluate] is refused with the name of that
    export; a module whose [memory] is a function, with the memory
    error. *)
Lemma validateExports_reports_witness :
  validateExports without_evaluate
  = Throw (Error "orbit wasm is missing required export: orbit_evaluate")
  /\ validateExports memory_is_function
     = Throw (Error "orbit wasm did not export a WebAssembly.Memory")
  /\ validateExports full_exports = Normal tt.
Proof.
  assert (Hr : required
               = [ "memory"; "orbit_alloc"; "orbit_dealloc"; "orbit_version";
                   "orbit_parse"; "orbit_parse_with_recovery" ]
                 ++ "orbit_evaluate"
                 :: [ "orbit_evaluate_ast"; "orbit_value_to_json";
                      "orbit_value_to_yaml"; "orbit_value_to_msgpack" ])
    by reflexivity.
  assert (Hb : forall k,
            In k [ "memory"; "orbit_alloc"; "orbit_dealloc"; "orbit_version";
                   "orbit_parse"; "orbit_parse_with_recovery" ] ->
            is_Some (without_evaluate !! k)).
  { intros k Hin. simpl in Hin.
    repeat (destruct Hin as [<- | Hin]; [vm_compute; eauto|]).
    destruct Hin. }
  assert (Hk : without_evaluate !! "orbit_evaluate" = None)
    by (vm_compute; reflexivity).
  assert (Hall : forall e,
            e = memory_is_function \/ e = full_exports ->
            forall k, In k required -> is_Some (e !! k)).
  { intros e He k Hin. simpl in Hin.
    repeat (destruct Hin as [<- | Hin];
            [destruct He as [-> | ->]; vm_compute; eauto|]).
    destruct Hin. }
  assert (Hfun : memory_is_function !! "memory" <> Some ExportMemory)
    by (vm_compute; discriminate).
  assert (Hmem : full_exports !! "memory" = Some ExportMemory)
    by (vm_compute; reflexivity).
  split; [|split].
  - destruct (validateExports_reports without_evaluate) as (Hfirst & _).
    exact (Hfirst _ _ _ Hr Hb Hk).
  - destruct (validateExports_reports memory_is_function) as (_ & Hrest).
    destruct (Hrest (Hall _ (or_introl eq_refl))) as (_ & Hbad).
    exact (Hbad Hfun).
  - destruct (validateExports_reports full_exports) as (_ & Hrest).
    destruct (Hrest (Hall _ (or_intror eq_refl))) as (Hgood & _).
    exact (Hgood Hmem).
Defined.

(** In a page the packaged module arrives through [fetch]. *)
Lemma loadWasmBytes_success_witness :
  loadWasmBytes browser cdn None = Normal served
  /\ exists target,
       target = DEFAULT_WASM_URL cdn
       /\ (protocol target = "file:" /\ isNodeLike browser = true
           \/ protocol target <> "file:"
              /\ exists do_fetch response,
                   fetch cdn = Some do_fetch
                   /\ do_fetch target = Normal response
                   /\ arrayBuffer response = Normal served).
Proof.
  assert (Hl : loadWasmBytes browser cdn None = Normal served)
    by (vm_compute; reflexivity).
  split; [exact Hl|].
  destruct (loadWasmBytes_success browser cdn None served Hl)
    as (target & Hd & _ & Hch).
  exists target. split; [exact (Hd eq_refl)|].
  destruct Hch as [(Hp & Hn & _) | (Hp & f & resp & Hf & Hr & _ & Hb)].
  - left. split; assumption.
  - right. split; [exact Hp|]. exists f, resp. auto.
Defined.

(** A page without [fetch] and without options cannot load the packaged
    module. *)
Lemma createOrbit_needs_a_channel_witness :
  isNodeLike browser = false
  /\ fetch offline = None
  /\ exists e, createOrbit browser offline None = Throw e.
Proof.
  assert (Hn : isNodeLike browser = false) by reflexivity.
  assert (Hf : fetch offline = None) by reflexivity.
  assert (Ho : forall o : OrbitInitOptions unit unit,
            None = Some o ->
            instantiate o = None /\ module o = None /\ binary o = None)
    by (intros o Ho; discriminate Ho).
  split; [exact Hn|]. split; [exact Hf|].
  destruct (createOrbit_needs_a_channel browser offline None Hn Hf Ho)
    as (e & E & _).
  exists e. exact E.
Defined.

(** A view of two bytes at offset 1 of a buffer of four. *)
Lemma bufferSourceToUint8Array_window_witness :
  (1 + 2 <= length [x0a; x0b; x0c; x0d])%nat
  /\ exists bytes,
       bufferSourceToUint8Array (SourceView [x0a; x0b; x0c; x0d] 1 2)
       = Normal bytes
       /\ bytes = [x0b; x0c].
Proof.
  assert (Hin : (1 + 2 <= length [x0a; x0b; x0c; x0d])%nat) by (simpl; lia).
  split; [exact Hin|].
  destruct (bufferSourceToUint8Array_window [x0a; x0b; x0c; x0d] 1 2 Hin)
    as (bytes & E & -> & _).
  eexists. split; [exact E | reflexivity].
Defined.

End MoreRuns.

Section ScriptRuns.

Import DownloadWasm.

(** Version 0.1.0 gives the candidates [v0.1.0] and [0.1.0]. *)
Lemma buildTagCandidates_shape_witness :
  truthy (ORBIT_WASM_TAG host) = false
  /\ exists cands,
       buildTagCandidates Demo.node host (JString "0.1.0") = Normal cands
       /\ head cands = Some "v0.1.0"
       /\ In "0.1.0" cands.
Proof.
  assert (Hf : truthy (ORBIT_WASM_TAG host) = false) by reflexivity.
  split; [exact Hf|].
  destruct (buildTagCandidates_shape Demo.node host) as (_ & Hshape).
  destruct (Hshape Hf "0.1.0") as (cands & E & Hh & _ & _ & Hin).
  exists cands. split; [exact E|]. split; [exact Hh|].
  apply Hin. reflexivity.
Defined.

(** The download of the tag that has an asset writes the asset twice. *)
Lemma downloadWasmForTag_effects_witness :
  exists ev,
    downloadWasmForTag host "0.1.0" [] = (Normal tt, ev)
    /\ fetches ev = [release_url "0.1.0"]
    /\ exists bytes,
         writes ev = [(wasmOut, bytes); (distWasmOut, bytes)].
Proof.
  destruct (downloadWasmForTag_effects host "0.1.0" [])
    as (out & ev & resp & E & _ & F & _ & _ & Hok).
  assert (Hout : fst (downloadWasmForTag host "0.1.0" []) = Normal tt)
    by (vm_compute; reflexivity).
  rewrite E in Hout. simpl in Hout. subst out.
  exists ev. split; [exact E|]. split; [exact F|].
  destruct (Hok eq_refl) as (response & bytes & _ & _ & _ & Hw).
  exists bytes. exact Hw.
Defined.


(** A manifest without a version stops the run before any request. *)
Lemma main_without_version_witness :
  package_json unversioned = Normal (Demo.json_text "{'name':'orbit'}")
  /\ JSON_parse Demo.node (Demo.json_text "{'name':'orbit'}")
     = Some (JObject [("name", JString "orbit")])
  /\ main Demo.node unversioned []
     = (Throw (Error "[orbit-js]: Missing version field in package.json"),
        []).
Proof.
  assert (Hr : package_json unversioned
               = Normal (Demo.json_text "{'name':'orbit'}")) by reflexivity.
  assert (Hp : JSON_parse Demo.node (Demo.json_text "{'name':'orbit'}")
               = Some (JObject [("name", JString "orbit")]))
    by (vm_compute; reflexivity).
  split; [exact Hr|]. split; [exact Hp|].
  destruct (main_without_version Demo.node unversioned) as (_ & _ & Hm).
  exact (Hm _ _ Hr Hp (or_introl eq_refl)).
Defined.

End ScriptRuns.
